(** * Etatherm Modbus client: a shallow embedding and its verified properties

    The development follows [custom_components/etetherm_modbus/etathermmodbus.py]
    (class [EtathermModbus]) and [const.py].  Python integers are [Z], a
    [bytes] object is a [list Z] whose elements lie in [0, 256), a [str] is
    the list of its Unicode code points, dictionaries keyed by the zone
    position are [gmap Z _], and a Python exception is the [Raise] outcome
    of the [result] type.  The pymodbus client is an interface
    ([Transport]) whose register calls answer with a response or raise.
    Every method of [EtathermModbus] is a program ([prog]): the tree of
    the calls it makes to the transport, the lock and the object's own
    fields.  [run] executes a program as one task; [advance]
    interleaves several tasks on one client object.  Of [climate.py], the
    dictionary the coordinator builds from the two polls and the entity's
    [_handle_coordinator_update] are pure functions. *)

From Stdlib Require Import ZArith List Lia Bool String Ascii QArith Qround.
From stdpp Require Import gmap list.

Local Open Scope Z_scope.

(** ** Python values and exceptions *)

Inductive exn : Type :=
| ValueError
| IndexError
| KeyError
| OverflowError
| UnicodeDecodeError
| ZeroDivisionError
| TypeError
| UnboundLocalError
| AttributeError
| ModbusException.

Inductive result (A : Type) : Type :=
| Ok (a : A)
| Raise (e : exn).

Arguments Ok {A} a.
Arguments Raise {A} e.

Definition result_bind {A B} (r : result A) (k : A -> result B) : result B :=
  match r with
  | Ok a => k a
  | Raise e => Raise e
  end.

(** A Python [str], as its code points. *)
Abbreviation str := (list Z).

Definition str_lit (s : string) : str :=
  map (fun a => Z.of_N (N_of_ascii a)) (list_ascii_of_string s).

Definition is_byte (b : Z) : bool := (0 <=? b) && (b <? 256).

(** [bytes(iterable_of_ints)]: every element must be in [range(0, 256)]. *)
Fixpoint bytes (l : list Z) : result (list Z) :=
  match l with
  | [] => Ok []
  | x :: l' =>
      if is_byte x
      then result_bind (bytes l') (fun t => Ok (x :: t))
      else Raise ValueError
  end.

(** [data[i]] on a [bytes] object or a list, negative indices included. *)
Definition getitem {A} (data : list A) (i : Z) : result A :=
  let n := Z.of_nat (length data) in
  let j := if i <? 0 then i + n else i in
  if (0 <=? j) && (j <? n)
  then match nth_error data (Z.to_nat j) with
       | Some x => Ok x
       | None => Raise IndexError
       end
  else Raise IndexError.

(** [data[lo:hi]] for non-negative bounds. *)
Definition slice {A} (data : list A) (lo hi : Z) : list A :=
  firstn (Z.to_nat (hi - lo)) (skipn (Z.to_nat lo) data).

(** [data.find(b"\x00")]-style search for one byte: first index or [-1]. *)
Fixpoint find_from (b : Z) (data : list Z) (i : Z) : Z :=
  match data with
  | [] => -1
  | x :: rest => if x =? b then i else find_from b rest (i + 1)
  end.

Definition find (data : list Z) (b : Z) : Z := find_from b data 0.

(** [n.to_bytes(length, "big")]. *)
Fixpoint be_digits (len : nat) (n : Z) : list Z :=
  match len with
  | O => []
  | S k => be_digits k (n / 256) ++ [n mod 256]
  end.

Definition to_bytes (n : Z) (len : nat) : result (list Z) :=
  if (0 <=? n) && (n <? 256 ^ Z.of_nat len)
  then Ok (be_digits len n)
  else Raise OverflowError.

(** [a // b] on integers. *)
Definition floordiv (a b : Z) : result Z :=
  if b =? 0 then Raise ZeroDivisionError else Ok (a / b).

(** [math.floor]: the temperature may be an [int] or a finite [float];
    both are rationals. *)
Definition floor (x : Q) : Z := Qfloor x.

(** ** [datetime] and [timedelta(minutes=...)] of the Python library *)

Record datetime : Type := mk_datetime {
  year : Z;
  month : Z;
  day : Z;
  hour : Z;
  minute : Z
}.

Definition is_leap (y : Z) : bool :=
  (y mod 4 =? 0) && (negb (y mod 100 =? 0) || (y mod 400 =? 0)).

Definition days_in_month (y m : Z) : Z :=
  if m =? 2 then (if is_leap y then 29 else 28)
  else if (m =? 4) || (m =? 6) || (m =? 9) || (m =? 11) then 30
  else 31.

Definition valid_datetime (d : datetime) : Prop :=
  1 <= year d <= 9999 /\
  1 <= month d <= 12 /\
  1 <= day d <= days_in_month (year d) (month d) /\
  0 <= hour d < 24 /\
  0 <= minute d < 60.

Definition next_day (d : datetime) : datetime :=
  if day d <? days_in_month (year d) (month d)
  then mk_datetime (year d) (month d) (day d + 1) (hour d) (minute d)
  else if month d <? 12
       then mk_datetime (year d) (month d + 1) 1 (hour d) (minute d)
       else mk_datetime (year d + 1) 1 1 (hour d) (minute d).

Definition prev_day (d : datetime) : datetime :=
  if 1 <? day d
  then mk_datetime (year d) (month d) (day d - 1) (hour d) (minute d)
  else if 1 <? month d
       then mk_datetime (year d) (month d - 1)
                        (days_in_month (year d) (month d - 1))
                        (hour d) (minute d)
       else mk_datetime (year d - 1) 12 31 (hour d) (minute d).

Definition add_days (n : Z) (d : datetime) : datetime :=
  if 0 <=? n
  then Nat.iter (Z.to_nat n) next_day d
  else Nat.iter (Z.to_nat (- n)) prev_day d.

(** [d + timedelta(minutes=m)]: [OverflowError] when the delta exceeds
    999999999 days or the resulting year leaves [1, 9999]. *)
Definition datetime_add_minutes (d : datetime) (m : Z) : result datetime :=
  if (-999999999 <=? m / 1440) && (m / 1440 <=? 999999999)
  then
    let total := hour d * 60 + minute d + m in
    let date := add_days (total / 1440) d in
    let r := mk_datetime (year date) (month date) (day date)
                         ((total mod 1440) / 60) ((total mod 1440) mod 60) in
    if (1 <=? year r) && (year r <=? 9999) then Ok r else Raise OverflowError
  else Raise OverflowError.

(** ** const.py *)

Definition CONF_MODBUS_RETR : nat := 10.
Definition CONF_MODBUS_RETR_WAIT : Z := 1.
Definition CONF_MODBUS_TIMEOUT : Z := 15.

(** ** Register codec

    The bit arithmetic of [__read_params], [get_current_temperatures],
    [get_required_temperatures], [set_temporary_temperature], [set_mode]
    and [__get_toy], each under the name of the method or with the line it
    comes from. *)

(** One entry of [self._params]. *)
Record position : Type := mk_position {
  used : bool;
  name : str;
  shift : Z;
  step : Z
}.

(** One entry of the dictionary returned by [get_parameters]
    (keys ["name"], ["min"], ["max"]). *)
Record limits : Type := mk_limits {
  lim_name : str;
  lim_min : Z;
  lim_max : Z
}.

(** One entry of the dictionary returned by [get_required_temperatures]
    (keys ["temp"], ["flag"]). *)
Record requirement : Type := mk_requirement {
  temp : Z;
  flag : Z
}.

(** [__read_params], lines 146-152: the configuration block. *)
Definition decode_zone_params (params : list Z) : result (bool * Z * Z) :=
  result_bind (getitem params 0) (fun p0 =>
  let used := Z.land p0 0x07 in
  let used := negb (used =? 0) in
  result_bind (getitem params 2) (fun p2 =>
  let shift := Z.land p2 0x3F in
  let shift := shift - (64 * (shift / 32)) in
  result_bind (getitem params 2) (fun p2' =>
  let step := Z.shiftr (Z.land p2' 0xC0) 6 in
  let step := step + 1 in
  Ok (used, shift, step)))).

(** The record stored for a slot whose configuration read failed. *)
Definition timeout_position : position :=
  mk_position false (str_lit "<timeout>") 5 1.

(** [get_parameters], lines 35-39. *)
Definition limits_of (p : position) : limits :=
  mk_limits (name p) ((1 + shift p) * step p) ((30 + shift p) * step p).

(** [get_current_temperatures], line 103. *)
Definition decode_current_temp (b : Z) (p : position) : Z :=
  (b + shift p) * step p.

(** [get_required_temperatures], lines 116-123. *)
Definition decode_requirement (byte : Z) (p : position) : requirement :=
  let b := Z.land byte 0x1F in
  let flag := Z.shiftr byte 5 in
  mk_requirement ((b + shift p) * step p) flag.

(** [set_temporary_temperature], line 71. *)
Definition target_raw_level (temperature : Q) (p : position) : result Z :=
  result_bind (floordiv (floor temperature) (step p)) (fun q =>
  Ok (Z.land (q - shift p) 0x1F)).

(** [__get_toy]. *)
Definition get_toy (time_in : datetime) : Z :=
  (minute time_in / 15)
  + (hour time_in * 4)
  + (day time_in * 32 * 4)
  + (month time_in * 32 * 32 * 4).

(** [set_temporary_temperature], lines 80-84. *)
Definition temporary_payload (data : list Z) (temp start end_ : Z)
  : result (list Z) :=
  result_bind (getitem data 0) (fun d0 =>
  result_bind (bytes [Z.land d0 0xC0 + temp]) (fun first =>
  result_bind (to_bytes start 2) (fun s =>
  result_bind (to_bytes end_ 2) (fun e =>
  Ok (first ++ s ++ e))))).

(** [set_mode], lines 52-55. *)
Definition mode_payload (data : list Z) (auto : bool) : result (list Z) :=
  if auto
  then result_bind (getitem data 0) (fun d0 =>
       result_bind (bytes [Z.land d0 0xDF]) (fun first =>
       Ok (first ++ [0x10; 0x80; 0x10; 0x80])))
  else result_bind (getitem data 0) (fun d0 =>
       result_bind (bytes [Z.lor d0 0x20]) (fun first =>
       Ok (first ++ slice data 1 5))).

(** ** The transport collaborator (pymodbus [AsyncModbusTcpClient])

    A response exposes [isError()] and, when it carries data, the
    attribute [registers]; an error response may come without that
    attribute, and then [registers] is [None]. *)

Record response : Type := mk_response {
  isError : bool;
  registers : option (list Z)
}.

(** [bytes(response.registers)]: the attribute access raises
    [AttributeError] on a response without [registers]. *)
Definition registers_bytes (r : response) : result (list Z) :=
  match registers r with
  | Some l => bytes l
  | None => Raise AttributeError
  end.

(** What awaiting a register call of the client gives: a response, or an
    exception of the client.  pymodbus raises [ConnectionException] when
    the client is not connected and [ModbusIOException] when no answer
    comes; both are [ModbusException]s. *)
Inductive answer : Type :=
| Response (r : response)
| Raises.

Definition awaited (a : answer) : result response :=
  match a with
  | Response r => Ok r
  | Raises => Raise ModbusException
  end.

(** The client exposes [connected], [connect], [read_holding_registers]
    and [write_registers].  [connect] reports a failure by answering
    [False]; the optional argument of the register calls is the [slave=]
    keyword. *)
Class Transport (D : Type) : Type := {
  connected : D -> bool;
  connect : D -> bool * D;
  read_holding_registers : Z -> Z -> option Z -> D -> answer * D;
  write_registers : Z -> list Z -> option Z -> D -> answer * D
}.

(** ** Programs

    What a coroutine of [EtathermModbus] may do next: return or raise,
    enter or leave [self._lock], ask the transport, sleep, or touch
    [self._address] and [self._params].  The continuation of a register
    call gets the [answer]: the response, or the fact that the call
    raised. *)

Inductive prog (A : Type) : Type :=
| Ret (r : result A)
| Acquire (k : prog A)
| Release (k : prog A)
| IsConnected (k : bool -> prog A)
| Connect (k : bool -> prog A)
| ReadRegs (address count : Z) (kwargs : option Z) (k : answer -> prog A)
| WriteRegs (address : Z) (values : list Z) (kwargs : option Z)
            (k : answer -> prog A)
| Sleep (delay : Z) (k : prog A)
| GetAddress (k : Z -> prog A)
| GetParams (k : option (gmap Z position) -> prog A)
| SetParams (ps : gmap Z position) (k : prog A).

Arguments Ret {A} r.
Arguments Acquire {A} k.
Arguments Release {A} k.
Arguments IsConnected {A} k.
Arguments Connect {A} k.
Arguments ReadRegs {A} address count kwargs k.
Arguments WriteRegs {A} address values kwargs k.
Arguments Sleep {A} delay k.
Arguments GetAddress {A} k.
Arguments GetParams {A} k.
Arguments SetParams {A} ps k.

Definition ret {A} (a : A) : prog A := Ret (Ok a).

Definition lift {A} (r : result A) : prog A := Ret r.

Fixpoint bind {A B} (m : prog A) (f : A -> prog B) : prog B :=
  match m with
  | Ret (Ok a) => f a
  | Ret (Raise e) => Ret (Raise e)
  | Acquire k => Acquire (bind k f)
  | Release k => Release (bind k f)
  | IsConnected k => IsConnected (fun b => bind (k b) f)
  | Connect k => Connect (fun b => bind (k b) f)
  | ReadRegs a n kw k => ReadRegs a n kw (fun r => bind (k r) f)
  | WriteRegs a vs kw k => WriteRegs a vs kw (fun r => bind (k r) f)
  | Sleep t k => Sleep t (bind k f)
  | GetAddress k => GetAddress (fun a => bind (k a) f)
  | GetParams k => GetParams (fun ps => bind (k ps) f)
  | SetParams ps k => SetParams ps (bind k f)
  end.

Notation "'let*' x ':=' m 'in' k" := (bind m (fun x => k))
  (at level 10, x name, m at level 100, k at level 200).

(** [async with self._lock: body]: the lock is released however the body
    ends, by returning or by raising. *)
Fixpoint releasing {A} (body : prog A) : prog A :=
  match body with
  | Ret r => Release (Ret r)
  | Acquire k => Acquire (releasing k)
  | Release k => Release (releasing k)
  | IsConnected k => IsConnected (fun b => releasing (k b))
  | Connect k => Connect (fun b => releasing (k b))
  | ReadRegs a n kw k => ReadRegs a n kw (fun r => releasing (k r))
  | WriteRegs a vs kw k => WriteRegs a vs kw (fun r => releasing (k r))
  | Sleep t k => Sleep t (releasing k)
  | GetAddress k => GetAddress (fun a => releasing (k a))
  | GetParams k => GetParams (fun ps => releasing (k ps))
  | SetParams ps k => SetParams ps (releasing k)
  end.

Definition async_with_lock {A} (body : prog A) : prog A :=
  Acquire (releasing body).

(** [for x in l: s = body(x, s)], stopping at the first exception. *)
Fixpoint for_each {A S} (l : list A) (body : A -> S -> prog S) (s : S)
  : prog S :=
  match l with
  | [] => ret s
  | x :: l' => let* s' := body x s in for_each l' body s'
  end.

(** *** Connection manager *)

Definition async_connect : prog bool :=
  Connect (fun result => ret result).

Definition check_connection : prog bool :=
  IsConnected (fun is_connected =>
  if negb is_connected
  then async_connect
  else IsConnected (fun is_connected => ret is_connected)).

(** *** Transaction executor *)

(** [kwargs = {"slave": unit} if unit else {}]. *)
Definition slave_kwargs (unit : Z) : option Z :=
  if unit =? 0 then None else Some unit.

(** The loop [for i in range(0, CONF_MODBUS_RETR)]: [n] iterations are
    left, [regs_l] is the variable the loop assigns ([None] while unbound).
    An exception of [op] leaves the loop at once. *)
Fixpoint attempts (n : nat) (op : prog response) (regs_l : option response)
  : prog (option response) :=
  match n with
  | O => ret regs_l
  | S k =>
      let* r := op in
      if isError r
      then Sleep CONF_MODBUS_RETR_WAIT (attempts k op (Some r))
      else ret (Some r)
  end.

Definition transaction (op : prog response) : prog response :=
  async_with_lock (
    let* _ := check_connection in
    let* regs_l := attempts CONF_MODBUS_RETR op None in
    match regs_l with
    | Some r => ret r
    | None => Ret (Raise UnboundLocalError)
    end).

Definition async_read_holding_registers (unit address count : Z)
  : prog response :=
  let kwargs := slave_kwargs unit in
  transaction
    (ReadRegs address count kwargs (fun regs_l => lift (awaited regs_l))).

Definition async_write_register (unit address : Z) (payload : list Z)
  : prog response :=
  let kwargs := slave_kwargs unit in
  transaction
    (WriteRegs address payload kwargs (fun regs_l => lift (awaited regs_l))).

(** *** Facade *)

(** [self._params[pos]]. *)
Definition params_getitem (ps : option (gmap Z position)) (pos : Z)
  : result position :=
  match ps with
  | None => Raise TypeError
  | Some ps =>
      match ps !! pos with
      | Some p => Ok p
      | None => Raise KeyError
      end
  end.

Section Facade.

(** Python's ["1250"] codec as a table from a byte to its code point,
    [None] where the code page leaves the byte undefined. *)
Variable cp1250 : Z -> option Z.

(** [name.decode("1250")], strict error handling. *)
Fixpoint decode (data : list Z) : result str :=
  match data with
  | [] => Ok []
  | b :: rest =>
      match cp1250 b with
      | Some u => result_bind (decode rest) (fun t => Ok (u :: t))
      | None => Raise UnicodeDecodeError
      end
  end.

(** One iteration of the loop of [__read_params]; [res] is the dictionary
    under construction. *)
Definition read_params_slot (pos : Z) (res : gmap Z position)
  : prog (gmap Z position) :=
  let start := 0x1100 in
  let name_start := 0x1030 in
  let addr := start + (pos - 1) * 0x10 in
  GetAddress (fun address =>
  let* param_response := async_read_holding_registers address addr 4 in
  if isError param_response
  then ret (<[pos := timeout_position]> res)
  else
    let* params := lift (registers_bytes param_response) in
    let* decoded := lift (decode_zone_params params) in
    let '(used, shift, step) := decoded in
    let* name :=
      (if used : bool
       then
         let addr := name_start + (pos - 1) * 8 in
         let* name_response :=
           GetAddress (fun address =>
           async_read_holding_registers address addr 8) in
         let* name :=
           (if isError param_response
            then ret []
            else lift (registers_bytes name_response)) in
         let end_ := find name 0 in
         let name := if negb (end_ =? -1) then slice name 0 end_ else name in
         lift (decode name)
       else ret []) in
    ret (<[pos := mk_position used name shift step]> res)).

Definition read_params : prog unit :=
  let* res := for_each (seqZ 1 16) read_params_slot ∅ in
  SetParams res (ret tt).

(** [if self._params is None: await self.__read_params()]. *)
Definition ensure_params : prog unit :=
  GetParams (fun ps =>
  match ps with
  | None => read_params
  | Some _ => ret tt
  end).

Definition get_parameters : prog (option (gmap Z limits)) :=
  let* _ := ensure_params in
  GetParams (fun ps =>
  match ps with
  | None => ret None
  | Some ps =>
      ret (Some (limits_of <$> filter (fun kv => used kv.2 = true) ps))
  end).

Definition set_mode (pos : Z) (auto : bool) : prog bool :=
  let start := 0x1100 in
  let addr := start + (pos - 1) * 0x10 + 0x03 in
  GetAddress (fun address =>
  let* response := async_read_holding_registers address addr 6 in
  if isError response
  then ret false
  else
    let* data := lift (registers_bytes response) in
    let* data := lift (mode_payload data auto) in
    GetAddress (fun address =>
    let* response := async_write_register address addr data in
    if isError response then ret false else ret true)).

(** [now] is the value [datetime.now()] returns at line 77. *)
Definition set_temporary_temperature (pos : Z) (temperature : Q)
  (duration : Z) (now : datetime) : prog bool :=
  let start := 0x1100 in
  let addr := start + (pos - 1) * 0x10 + 0x03 in
  let* _ := ensure_params in
  GetParams (fun ps =>
  let* position := lift (params_getitem ps pos) in
  let* temp := lift (target_raw_level temperature position) in
  GetAddress (fun address =>
  let* response := async_read_holding_registers address addr 1 in
  if isError response
  then ret false
  else
    let* data := lift (registers_bytes response) in
    let* start_time := lift (datetime_add_minutes now (- 0)) in
    let start := get_toy start_time in
    let* end_time := lift (datetime_add_minutes now (duration + 1)) in
    let end_ := get_toy end_time in
    let* data := lift (temporary_payload data temp start end_) in
    GetAddress (fun address =>
    let* response := async_write_register address addr data in
    if isError response then ret false else ret true))).

(** The loop body of [get_current_temperatures]. *)
Definition current_slot (data : list Z) (ps : option (gmap Z position))
  (pos : Z) (res : gmap Z Z) : prog (gmap Z Z) :=
  let* b := lift (getitem data (pos - 1)) in
  let* position := lift (params_getitem ps pos) in
  if used position
  then ret (<[pos := decode_current_temp b position]> res)
  else ret res.

Definition get_current_temperatures : prog (option (gmap Z Z)) :=
  GetAddress (fun address =>
  let* response := async_read_holding_registers address 0x60 16 in
  let* data := lift (registers_bytes response) in
  let* _ := ensure_params in
  GetParams (fun ps =>
  if negb (Z.of_nat (length data) =? 16) || negb (bool_decide (is_Some ps))
  then ret None
  else
    let* res := for_each (seqZ 1 16) (current_slot data ps) ∅ in
    ret (Some res))).

(** The loop body of [get_required_temperatures]. *)
Definition required_slot (data : list Z) (ps : option (gmap Z position))
  (pos : Z) (res : gmap Z requirement) : prog (gmap Z requirement) :=
  let* byte := lift (getitem data (pos - 1)) in
  let* position := lift (params_getitem ps pos) in
  if used position
  then ret (<[pos := decode_requirement byte position]> res)
  else ret res.

Definition get_required_temperatures : prog (option (gmap Z requirement)) :=
  GetAddress (fun address =>
  let* response := async_read_holding_registers address 0x70 16 in
  let* data := lift (registers_bytes response) in
  let* _ := ensure_params in
  GetParams (fun ps =>
  if negb (Z.of_nat (length data) =? 16) || negb (bool_decide (is_Some ps))
  then ret None
  else
    let* res := for_each (seqZ 1 16) (required_slot data ps) ∅ in
    ret (Some res))).

End Facade.

(** The public coroutines of [EtathermModbus], with their arguments, as
    tasks whose value is discarded. *)
Definition discard {A} (m : prog A) : prog unit := let* _ := m in ret tt.

Inductive facade_call (cp1250 : Z -> option Z) : prog unit -> Prop :=
| call_get_parameters :
    facade_call cp1250 (discard (get_parameters cp1250))
| call_set_mode pos auto :
    facade_call cp1250 (discard (set_mode pos auto))
| call_set_temporary_temperature pos temperature duration now :
    facade_call cp1250
      (discard (set_temporary_temperature cp1250 pos temperature duration now))
| call_get_current_temperatures :
    facade_call cp1250 (discard (get_current_temperatures cp1250))
| call_get_required_temperatures :
    facade_call cp1250 (discard (get_required_temperatures cp1250)).

(** ** One task: the sequential semantics *)

(** What a run does to the outside world, in order. *)
Inductive event : Type :=
| EvAcquire
| EvRelease
| EvConnect
| EvRead (address count : Z)
| EvWrite (address : Z) (values : list Z)
| EvSleep (delay : Z).

(** The [EtathermModbus] object, with the log of what it did. *)
Record client (D : Type) : Type := mk_client {
  _client : D;
  _address : Z;
  _params : option (gmap Z position);
  trace : list event
}.

Arguments mk_client {D} _ _ _ _.
Arguments _client {D} c.
Arguments _address {D} c.
Arguments _params {D} c.
Arguments trace {D} c.

Section Run.

Context {D : Type} `{Transport D}.

Definition log (e : event) (c : client D) : client D :=
  mk_client (_client c) (_address c) (_params c) (trace c ++ [e]).

Definition set_device (d : D) (c : client D) : client D :=
  mk_client d (_address c) (_params c) (trace c).

Definition set_params (ps : gmap Z position) (c : client D) : client D :=
  mk_client (_client c) (_address c) (Some ps) (trace c).

(** A lone task always finds the lock free, so entering and leaving it
    are only logged. *)
Fixpoint run {A} (m : prog A) (c : client D) : result A * client D :=
  match m with
  | Ret r => (r, c)
  | Acquire k => run k (log EvAcquire c)
  | Release k => run k (log EvRelease c)
  | IsConnected k => run (k (connected (_client c))) c
  | Connect k =>
      let (b, d) := connect (_client c) in
      run (k b) (log EvConnect (set_device d c))
  | ReadRegs a n kw k =>
      let (r, d) := read_holding_registers a n kw (_client c) in
      run (k r) (log (EvRead a n) (set_device d c))
  | WriteRegs a vs kw k =>
      let (r, d) := write_registers a vs kw (_client c) in
      run (k r) (log (EvWrite a vs) (set_device d c))
  | Sleep t k => run k (log (EvSleep t) c)
  | GetAddress k => run (k (_address c)) c
  | GetParams k => run (k (_params c)) c
  | SetParams ps k => run k (set_params ps c)
  end.

End Run.

(** ** Several tasks on one client: the interleaving semantics

    A task is suspended while a transport call it issued is pending
    ([awaiting]); the call takes effect on the device when it completes.
    [_lock] holds the index of the task inside [async with self._lock]. *)

Inductive phase : Type := Issued | Completed.

Record task : Type := mk_task {
  code : prog unit;
  awaiting : bool
}.

Record system (D : Type) : Type := mk_system {
  self : client D;
  _lock : option nat;
  tasks : list task;
  history : list (nat * phase)
}.

Arguments mk_system {D} _ _ _ _.
Arguments self {D} s.
Arguments _lock {D} s.
Arguments tasks {D} s.
Arguments history {D} s.

Section Interleaving.

Context {D : Type} `{Transport D}.

Definition resume (i : nat) (k : prog unit) (s : system D) : system D :=
  mk_system (self s) (_lock s) (<[i := mk_task k false]> (tasks s))
            (history s).

Definition issue (i : nat) (t : task) (s : system D) : system D :=
  mk_system (self s) (_lock s) (<[i := mk_task (code t) true]> (tasks s))
            (history s ++ [(i, Issued)]).

Definition complete (i : nat) (k : prog unit) (c : client D) (s : system D)
  : system D :=
  mk_system c (_lock s) (<[i := mk_task k false]> (tasks s))
            (history s ++ [(i, Completed)]).

Definition with_lock (l : option nat) (s : system D) : system D :=
  mk_system (self s) l (tasks s) (history s).

Definition with_self (c : client D) (s : system D) : system D :=
  mk_system c (_lock s) (tasks s) (history s).

(** Task [i] runs up to its next suspension or lock operation; [None]
    when it cannot move (finished, or waiting for the lock). *)
Definition advance (i : nat) (s : system D) : option (system D) :=
  match tasks s !! i with
  | None => None
  | Some t =>
      match code t with
      | Ret _ => None
      | Acquire k =>
          match _lock s with
          | None => Some (resume i k (with_lock (Some i) s))
          | Some _ => None
          end
      | Release k =>
          match _lock s with
          | Some _ => Some (resume i k (with_lock None s))
          | None => None
          end
      | IsConnected k =>
          Some (resume i (k (connected (_client (self s)))) s)
      | Connect k =>
          if awaiting t
          then let (b, d) := connect (_client (self s)) in
               Some (complete i (k b) (set_device d (self s)) s)
          else Some (issue i t s)
      | ReadRegs a n kw k =>
          if awaiting t
          then let (r, d) := read_holding_registers a n kw (_client (self s)) in
               Some (complete i (k r) (set_device d (self s)) s)
          else Some (issue i t s)
      | WriteRegs a vs kw k =>
          if awaiting t
          then let (r, d) := write_registers a vs kw (_client (self s)) in
               Some (complete i (k r) (set_device d (self s)) s)
          else Some (issue i t s)
      | Sleep _ k => Some (resume i k s)
      | GetAddress k => Some (resume i (k (_address (self s))) s)
      | GetParams k => Some (resume i (k (_params (self s))) s)
      | SetParams ps k => Some (resume i k (with_self (set_params ps (self s)) s))
      end
  end.

(** A schedule names the task that moves at each turn. *)
Fixpoint exec (schedule : list nat) (s : system D) : option (system D) :=
  match schedule with
  | [] => Some s
  | i :: rest =>
      match advance i s with
      | Some s' => exec rest s'
      | None => None
      end
  end.

Definition spawn (calls : list (prog unit)) (c : client D) : system D :=
  mk_system c None (map (fun p => mk_task p false) calls) [].

Definition finished (t : task) : bool :=
  match code t with
  | Ret _ => true
  | _ => false
  end.

End Interleaving.

(** Reading a history from the left: the call in flight after it, or
    [None] when a call was issued while another was in flight, or was
    completed by a task that had not issued it. *)
Fixpoint pending_after (pending : option nat) (h : list (nat * phase))
  : option (option nat) :=
  match h with
  | [] => Some pending
  | (i, Issued) :: rest =>
      match pending with
      | None => pending_after (Some i) rest
      | Some _ => None
      end
  | (i, Completed) :: rest =>
      match pending with
      | Some j => if Nat.eqb i j then pending_after None rest else None
      | None => None
      end
  end.

(** No two transport calls overlap in time: the history alternates
    [Issued i], [Completed i]. *)
Definition serialized (h : list (nat * phase)) : bool :=
  match pending_after None h with
  | Some _ => true
  | None => false
  end.

(** Which lock state a program needs and leaves: [gated h h' m] says that
    [m], started with the lock held by this task iff [h], only calls the
    transport while it holds the lock, and ends with the lock held iff
    [h']. *)
Inductive gated {A} : bool -> bool -> prog A -> Prop :=
| gated_Ret h r : gated h h (Ret r)
| gated_Acquire h' k : gated true h' k -> gated false h' (Acquire k)
| gated_Release h' k : gated false h' k -> gated true h' (Release k)
| gated_IsConnected h h' k :
    (forall b, gated h h' (k b)) -> gated h h' (IsConnected k)
| gated_Connect h' k :
    (forall b, gated true h' (k b)) -> gated true h' (Connect k)
| gated_ReadRegs h' a n kw k :
    (forall r, gated true h' (k r)) -> gated true h' (ReadRegs a n kw k)
| gated_WriteRegs h' a vs kw k :
    (forall r, gated true h' (k r)) -> gated true h' (WriteRegs a vs kw k)
| gated_Sleep h h' t k : gated h h' k -> gated h h' (Sleep t k)
| gated_GetAddress h h' k :
    (forall a, gated h h' (k a)) -> gated h h' (GetAddress k)
| gated_GetParams h h' k :
    (forall ps, gated h h' (k ps)) -> gated h h' (GetParams k)
| gated_SetParams h h' ps k : gated h h' k -> gated h h' (SetParams ps k).

(** The task holding the lock. *)
Definition holds {D} (s : system D) (i : nat) : bool :=
  bool_decide (_lock s = Some i).

(** A program suspended on a transport call. *)
Definition is_call {A} (m : prog A) : Prop :=
  match m with
  | Connect _ | ReadRegs _ _ _ _ | WriteRegs _ _ _ _ => True
  | _ => False
  end.

(** What every reachable state of the interleaving satisfies: each task's
    remaining program fits the lock state it is in, only a task suspended
    on a transport call is [awaiting], and the history is serial with the
    awaiting task as its open call. *)
Definition gate_invariant {D} (s : system D) : Prop :=
  (forall i t,
     tasks s !! i = Some t ->
     gated (holds s i) false (code t) /\
     (awaiting t = true -> is_call (code t))) /\
  exists o,
    pending_after None (history s) = Some o /\
    forall i, o = Some i <->
              exists t, tasks s !! i = Some t /\ awaiting t = true.

(** ** Two transports to run the programs on *)

(** A device that is always connected and never fails: register [a] holds
    [mem !! a], zero when never written. *)
#[export] Instance memory_transport : Transport (gmap Z Z) := {
  connected := fun _ => true;
  connect := fun mem => (true, mem);
  read_holding_registers := fun a n _ mem =>
    (Response
       (mk_response false
          (Some (map (fun i => default 0 (mem !! (a + i))) (seqZ 0 n)))),
     mem);
  write_registers := fun a vs _ mem =>
    (Response (mk_response false None),
     fold_left (fun m iv => <[a + Z.of_nat (fst iv) := snd iv]> m)
               (combine (seq 0 (length vs)) vs) mem)
}.

(** An error response as the client returns it: without registers. *)
Definition error_response : response := mk_response true None.

(** A transport that answers from a script, one response per call, and
    with an error response once the script is used up. *)
#[export] Instance scripted_transport : Transport (list response) := {
  connected := fun _ => true;
  connect := fun script => (true, script);
  read_holding_registers := fun _ _ _ script =>
    match script with
    | r :: rest => (Response r, rest)
    | [] => (Response error_response, [])
    end;
  write_registers := fun _ _ _ script =>
    match script with
    | r :: rest => (Response r, rest)
    | [] => (Response error_response, [])
    end
}.

(** The ASCII half of code page 1250, enough to run examples. *)
Definition ascii_table (b : Z) : option Z :=
  if (0 <=? b) && (b <? 128) then Some b else None.

(** A device on which only zone 3 is wired: its configuration block is
    [01 00 41 00] and its name block is left at zero. *)
Definition zone3_memory : gmap Z Z :=
  <[0x1120 := 0x01]> (<[0x1122 := 0x41]> ∅).

Definition fresh_client {D} (d : D) : client D := mk_client d 1 None [].

(** The same device with [C5] in zone 3's mode register, with the
    requirement byte [45] for zone 3, and with the requirement byte [E5]. *)
Definition override_memory : gmap Z Z := <[0x1123 := 0xC5]> zone3_memory.
Definition requirement_memory : gmap Z Z := <[0x72 := 0x45]> zone3_memory.
Definition stray_flag_memory : gmap Z Z := <[0x72 := 0xE5]> zone3_memory.

(** A device whose zone 1 has the mode block [40 01 02 03 04 05], two
    calls of [set_mode] for that zone, and the schedule in which each call
    does its read before the other does its write. *)
Definition mode_memory : gmap Z Z :=
  <[0x1103 := 0x40]> (<[0x1104 := 1]> (<[0x1105 := 2]> (<[0x1106 := 3]>
  (<[0x1107 := 4]> (<[0x1108 := 5]> ∅))))).

Definition two_mode_calls : list (prog unit) :=
  [discard (set_mode 1 true); discard (set_mode 1 false)].

Definition alternating_schedule : list nat :=
  repeat 0%nat 7 ++ repeat 1%nat 7 ++ repeat 0%nat 7 ++ repeat 1%nat 7.

(** The five registers [set_mode] writes for zone 1. *)
Definition mode_block (mem : gmap Z Z) : list Z :=
  match fst (read_holding_registers 0x1103 5 None mem) with
  | Response r => default [] (registers r)
  | Raises => []
  end.

(** Three failed attempts, then sixteen registers of data. *)
Definition flaky_script : list response :=
  [error_response; error_response; error_response;
   mk_response false (Some [20; 0; 0; 0; 0; 0; 0; 0; 0; 0; 0; 0; 0; 0; 0; 0])].

(** A transport that answers every call on an address the same way. *)
#[export] Instance table_transport : Transport (Z -> response) := {
  connected := fun _ => true;
  connect := fun table => (true, table);
  read_holding_registers := fun a _ _ table => (Response (table a), table);
  write_registers := fun a _ _ table => (Response (table a), table)
}.

(** Slot 1 answers its configuration read with a used zone; every other
    read, the read of the name of slot 1 among them, is answered with an
    error response. *)
Definition name_error_device : Z -> response :=
  fun a =>
    if a =? 0x1100 then mk_response false (Some [0x01; 0x00; 0x00; 0x00])
    else error_response.

(** The same device when its error responses carry an empty register
    list. *)
Definition empty_error_device : Z -> response :=
  fun a =>
    if a =? 0x1100 then mk_response false (Some [0x01; 0x00; 0x00; 0x00])
    else mk_response true (Some []).

(** A client that is not connected and cannot connect: every register
    call raises. *)
Inductive offline : Type := Offline.

#[export] Instance offline_transport : Transport offline := {
  connected := fun _ => false;
  connect := fun d => (false, d);
  read_holding_registers := fun _ _ _ d => (Raises, d);
  write_registers := fun _ _ _ d => (Raises, d)
}.

(** ** Vocabulary for the statements about retries *)

(** A register operation handed to the transaction executor. *)
Inductive request : Type :=
| Read (address count : Z)
| Write (address : Z) (values : list Z).

Definition perform (q : request) (unit : Z) : prog response :=
  match q with
  | Read address count => async_read_holding_registers unit address count
  | Write address values => async_write_register unit address values
  end.

(** The transport call a request stands for, as the executor issues it. *)
Definition request_op (q : request) (kwargs : option Z) : prog response :=
  match q with
  | Read address count =>
      ReadRegs address count kwargs (fun regs_l => lift (awaited regs_l))
  | Write address values =>
      WriteRegs address values kwargs (fun regs_l => lift (awaited regs_l))
  end.

Definition request_event (q : request) : event :=
  match q with
  | Read address count => EvRead address count
  | Write address values => EvWrite address values
  end.

(** An attempt that the loop repeats: the call returned an error
    response. *)
Definition failed (a : answer) : bool :=
  match a with
  | Response r => isError r
  | Raises => false
  end.

(** [k] failed attempts, each followed by its sleep. *)
Fixpoint retry_events (e : event) (k : nat) : list event :=
  match k with
  | O => []
  | S k' => e :: EvSleep CONF_MODBUS_RETR_WAIT :: retry_events e k'
  end.

Section Replies.

Context {D : Type} `{Transport D}.

Definition transport_call (q : request) (kwargs : option Z)
  : D -> answer * D :=
  match q with
  | Read address count => read_holding_registers address count kwargs
  | Write address values => write_registers address values kwargs
  end.

(** The device after [k] consecutive calls, and its answer to call
    number [k + 1]. *)
Fixpoint device_after (f : D -> answer * D) (k : nat) (d : D) : D :=
  match k with
  | O => d
  | S k' => device_after f k' (snd (f d))
  end.

Definition reply (f : D -> answer * D) (k : nat) (d : D) : answer :=
  fst (f (device_after f k d)).

(** The client as [async with self._lock] and [__check_connection] leave
    it, before the first attempt. *)
Definition connected_client (c : client D) : client D :=
  snd (run check_connection (log EvAcquire c)).

(** [c'] is [c] with, at most, another device state and a longer log. *)
Definition same_object (c c' : client D) : Prop :=
  _address c' = _address c /\ _params c' = _params c.

End Replies.

(** ** Vocabulary for the statements about the parameter cache *)

(** Every slot position has an entry. *)
Definition cache_complete (ps : gmap Z position) : Prop :=
  forall pos, 1 <= pos <= 16 -> is_Some (ps !! pos).

(** [self._params] is [None] or was filled by [__read_params]. *)
Definition cache_invariant {D} (c : client D) : Prop :=
  match _params c with
  | None => True
  | Some ps => cache_complete ps
  end.

(** [m] never ends in the exception [e], whatever the device answers. *)
Definition never_raises {D} `{Transport D} {A} (e : exn) (m : prog A) : Prop :=
  forall c : client D, fst (run m c) <> Raise e.

(** The same for a computation without effects. *)
Definition not_raised {A} (e : exn) (r : result A) : Prop := r <> Raise e.

(** [__read_params] raises only what [bytes], the access to [registers],
    indexing and [decode] raise, and what the client raises. *)
Definition population_error (e : exn) : Prop :=
  e = ValueError \/ e = IndexError \/ e = UnicodeDecodeError \/
  e = AttributeError \/ e = ModbusException.

(** ** Vocabulary for the further properties *)

(** An event that is not a register write. *)
Definition not_a_write (e : event) : Prop :=
  match e with
  | EvWrite _ _ => False
  | _ => True
  end.

(** A program that never asks the transport to write. *)
Inductive read_only {A} : prog A -> Prop :=
| read_only_Ret r : read_only (Ret r)
| read_only_Acquire k : read_only k -> read_only (Acquire k)
| read_only_Release k : read_only k -> read_only (Release k)
| read_only_IsConnected k :
    (forall b, read_only (k b)) -> read_only (IsConnected k)
| read_only_Connect k : (forall b, read_only (k b)) -> read_only (Connect k)
| read_only_ReadRegs a n kw k :
    (forall r, read_only (k r)) -> read_only (ReadRegs a n kw k)
| read_only_Sleep t k : read_only k -> read_only (Sleep t k)
| read_only_GetAddress k :
    (forall a, read_only (k a)) -> read_only (GetAddress k)
| read_only_GetParams k :
    (forall ps, read_only (k ps)) -> read_only (GetParams k)
| read_only_SetParams ps k : read_only k -> read_only (SetParams ps k).

(** A transport on which every read fails and nothing changes. *)
Definition dead_table : Z -> response := fun _ => error_response.

(** What the log gains when every configuration read of the slots [l]
    uses up its ten attempts. *)
Fixpoint exhausted_reads (l : list Z) : list event :=
  match l with
  | [] => []
  | pos :: rest =>
      EvAcquire
      :: retry_events (EvRead (0x1100 + (pos - 1) * 0x10) 4) CONF_MODBUS_RETR
      ++ EvRelease :: exhausted_reads rest
  end.

(** Slot 1 answers its configuration read with two registers only. *)
Definition short_config_device : Z -> response :=
  fun a =>
    if a =? 0x1100 then mk_response false (Some [0x01; 0x00])
    else error_response.

(** The ranges of the values [__read_params] stores. *)
Definition entry_in_range (p : position) : Prop :=
  -32 <= shift p <= 31 /\ 1 <= step p <= 4 /\
  (used p = false -> name p = [] \/ p = timeout_position).

(** Zone 3 wired as in [zone3_memory], with the name block
    [48 61 00 ...]. *)
Definition named_memory : gmap Z Z :=
  <[0x1040 := 0x48]> (<[0x1041 := 0x61]> zone3_memory).

(** The lock is held by a task that exists. *)
Definition lock_owner_live {D} (s : system D) : Prop :=
  forall i, _lock s = Some i -> is_Some (tasks s !! i).

(** ** climate.py: the coordinator's data and the thermostat entity *)

(** Home Assistant's [HVACMode] and [HVACAction]; of the actions only the
    two the entity assigns. *)
Inductive HVACMode : Type :=
| HVACMode_OFF
| HVACMode_HEAT
| HVACMode_COOL
| HVACMode_HEAT_COOL
| HVACMode_AUTO
| HVACMode_DRY
| HVACMode_FAN_ONLY.

Inductive HVACAction : Type :=
| HVACAction_HEATING
| HVACAction_IDLE.

(** One entry of the coordinator's data (keys ["curr"], ["req"]). *)
Record reading : Type := mk_reading {
  curr : Z;
  req : requirement
}.

(** [__async_get_data], lines 110-113, for two polls that returned
    dictionaries: one entry per key of [current], looked up in
    [required]. *)
Fixpoint data_items (items : list (Z * Z)) (required : gmap Z requirement)
  (data : gmap Z reading) : result (gmap Z reading) :=
  match items with
  | [] => Ok data
  | (iid, curr) :: rest =>
      match required !! iid with
      | None => Raise KeyError
      | Some r => data_items rest required (<[iid := mk_reading curr r]> data)
      end
  end.

Definition async_get_data_dict (current : gmap Z Z)
  (required : gmap Z requirement) : result (gmap Z reading) :=
  data_items (map_to_list current) required ∅.

(** The attributes of [EtathermThermostat] that
    [_handle_coordinator_update] reads and assigns. *)
Record EtathermThermostat : Type := mk_thermostat {
  _id : Z;
  _current_temperature : option Z;
  _target_temperature : option Z;
  _attr_hvac_mode : HVACMode;
  _attr_hvac_action : option HVACAction
}.

(** [_handle_coordinator_update], lines 189-206, on the coordinator's
    data; pushing the new state to Home Assistant is left out. *)
Definition _handle_coordinator_update (data : option (gmap Z reading))
  (self : EtathermThermostat) : result EtathermThermostat :=
  match data with
  | None => Ok self
  | Some data =>
      match data !! _id self with
      | None => Raise KeyError
      | Some entry =>
          let current := curr entry in
          let target := temp (req entry) in
          let action :=
            if current <? target then HVACAction_HEATING
            else HVACAction_IDLE in
          let mode :=
            match flag (req entry) with
            | 0 => HVACMode_OFF
            | 1 | 4 => HVACMode_AUTO
            | 2 | 3 => HVACMode_HEAT
            | _ => _attr_hvac_mode self
            end in
          Ok (mk_thermostat (_id self) (Some current) (Some target) mode
                (Some action))
      end
  end.

(** A thermostat as [__init__] leaves it. *)
Definition new_thermostat (idx : Z) : EtathermThermostat :=
  mk_thermostat idx None None HVACMode_AUTO None.

(** * Properties *)

(** ** Python values *)

Lemma is_byte_range b : is_byte b = true <-> 0 <= b < 256.
Proof. unfold is_byte. rewrite andb_true_iff, Z.leb_le, Z.ltb_lt. tauto. Qed.

Lemma bytes_ok (l : list Z) :
  Forall (fun b => 0 <= b < 256) l -> bytes l = Ok l.
Proof.
  induction 1 as [|b l Hb _ IH]; simpl; [reflexivity|].
  apply is_byte_range in Hb. rewrite Hb, IH. reflexivity.
Qed.

Lemma bytes_inv (l data : list Z) :
  bytes l = Ok data -> data = l /\ Forall (fun b => 0 <= b < 256) l.
Proof.
  revert data. induction l as [|b l IH]; simpl; intros data Hd.
  - inversion Hd. split; [reflexivity | constructor].
  - destruct (is_byte b) eqn:Hb; [|discriminate].
    destruct (bytes l) as [t|e] eqn:Ht; simpl in Hd; [|discriminate].
    inversion Hd; subst. destruct (IH t eq_refl) as [-> Hall].
    split; [reflexivity|]. constructor; [apply is_byte_range, Hb | exact Hall].
Qed.

Lemma registers_bytes_inv (r : response) (data : list Z) :
  registers_bytes r = Ok data ->
  registers r = Some data /\ Forall (fun b => 0 <= b < 256) data.
Proof.
  unfold registers_bytes. destruct (registers r) as [l|]; [|discriminate].
  intros Hb. apply bytes_inv in Hb. destruct Hb as [-> Hall]. auto.
Qed.

Lemma getitem_nth {A} (l : list A) (i : nat) x :
  nth_error l i = Some x -> getitem l (Z.of_nat i) = Ok x.
Proof.
  intros Hx. unfold getitem.
  assert (Hlt : (i < length l)%nat) by (apply nth_error_Some; congruence).
  destruct (Z.ltb_spec (Z.of_nat i) 0); [lia|].
  destruct (Z.leb_spec 0 (Z.of_nat i)); [|lia].
  destruct (Z.ltb_spec (Z.of_nat i) (Z.of_nat (length l))); [|lia].
  simpl. rewrite Nat2Z.id, Hx. reflexivity.
Qed.

(** ** Bit fields *)

Lemma land_low_bits b n : 0 <= n -> Z.land b (Z.ones n) = b mod 2 ^ n.
Proof. intros. apply Z.land_ones; lia. Qed.

Lemma land_7 b : Z.land b 0x07 = b mod 8.
Proof. apply (land_low_bits b 3); lia. Qed.

Lemma land_3F b : Z.land b 0x3F = b mod 64.
Proof. apply (land_low_bits b 6); lia. Qed.

Lemma land_1F b : Z.land b 0x1F = b mod 32.
Proof. apply (land_low_bits b 5); lia. Qed.

Lemma high_two_bits b : 0 <= b < 256 -> Z.shiftr (Z.land b 0xC0) 6 = b / 64.
Proof.
  intros Hb. rewrite Z.shiftr_land. change (Z.shiftr 0xC0 6) with (Z.ones 2).
  rewrite Z.land_ones by lia. rewrite Z.shiftr_div_pow2 by lia.
  change (2 ^ 6) with 64. change (2 ^ 2) with 4.
  apply Z.mod_small.
  split; [apply Z.div_pos; lia | apply Z.div_lt_upper_bound; lia].
Qed.

Lemma byte_high_bits_clear b i : 0 <= b < 256 -> 8 <= i -> Z.testbit b i = false.
Proof.
  intros Hb Hi. rewrite <- (Z.mod_small b (2 ^ 8)) by (change (2 ^ 8) with 256; lia).
  apply Z.mod_pow2_bits_high. lia.
Qed.

Lemma testbit_0x20 i : Z.testbit 0x20 i = (i =? 5).
Proof.
  change 0x20 with (2 ^ 5). destruct (Z.eqb_spec i 5) as [->|Hne].
  - apply Z.pow2_bits_true. lia.
  - apply Z.pow2_bits_false. congruence.
Qed.

Lemma testbit_0xDF i : 0 <= i < 8 -> Z.testbit 0xDF i = negb (i =? 5).
Proof.
  intros Hi.
  assert (Hc : i = 0 \/ i = 1 \/ i = 2 \/ i = 3 \/ i = 4 \/ i = 5 \/ i = 6 \/ i = 7)
    by lia.
  destruct Hc as [->|[->|[->|[->|[->|[->|[->| ->]]]]]]]; reflexivity.
Qed.

(** Clearing bit [0x20] of a byte: the other bits stay. *)
Lemma clear_mode_bit b i :
  0 <= b < 256 ->
  Z.testbit (Z.land b 0xDF) i = if i =? 5 then false else Z.testbit b i.
Proof.
  intros Hb. rewrite Z.land_spec.
  destruct (Z.ltb_spec i 0) as [Hneg|Hpos].
  - rewrite !Z.testbit_neg_r by lia. destruct (i =? 5); reflexivity.
  - destruct (Z.ltb_spec i 8) as [Hlo|Hhi].
    + rewrite testbit_0xDF by lia.
      destruct (i =? 5); simpl; [apply andb_false_r | apply andb_true_r].
    + rewrite (byte_high_bits_clear b i) by lia.
      destruct (i =? 5); reflexivity.
Qed.

(** Setting bit [0x20] of a byte: the other bits stay. *)
Lemma set_mode_bit b i :
  Z.testbit (Z.lor b 0x20) i = if i =? 5 then true else Z.testbit b i.
Proof.
  rewrite Z.lor_spec, testbit_0x20.
  destruct (i =? 5); [apply orb_true_r | apply orb_false_r].
Qed.

(** A property of bytes that a boolean test decides holds for all of them
    once it holds for the 256 values. *)
Lemma forall_bytes (P : Z -> bool) :
  forallb P (seqZ 0 256) = true -> forall b, 0 <= b < 256 -> P b = true.
Proof.
  intros Hall b Hb. rewrite forallb_forall in Hall. apply Hall.
  apply list_elem_of_In, elem_of_seqZ. lia.
Qed.

Lemma land_0xDF_range b : 0 <= b < 256 -> 0 <= Z.land b 0xDF < 256.
Proof.
  intros Hb.
  pose proof (forall_bytes (fun b => is_byte (Z.land b 0xDF)) eq_refl b Hb) as Hr.
  apply is_byte_range in Hr. exact Hr.
Qed.

Lemma lor_0x20_range b : 0 <= b < 256 -> 0 <= Z.lor b 0x20 < 256.
Proof.
  intros Hb.
  pose proof (forall_bytes (fun b => is_byte (Z.lor b 0x20)) eq_refl b Hb) as Hr.
  apply is_byte_range in Hr. exact Hr.
Qed.

Lemma land_0xC0_range b : 0 <= b < 256 -> 0 <= Z.land b 0xC0 <= 192.
Proof.
  intros Hb.
  pose proof (forall_bytes
    (fun b => (0 <=? Z.land b 0xC0) && (Z.land b 0xC0 <=? 192)) eq_refl b Hb) as Hr.
  apply andb_true_iff in Hr. destruct Hr as [H0 H1].
  apply Z.leb_le in H0. apply Z.leb_le in H1. lia.
Qed.

Lemma masks_disjoint x y : Z.land (Z.land x 0xC0) (Z.land y 0x1F) = 0.
Proof.
  rewrite (Z.land_comm y), Z.land_assoc, <- (Z.land_assoc x).
  change (Z.land 0xC0 0x1F) with 0. rewrite Z.land_0_r. apply Z.land_0_l.
Qed.

(** On disjoint bit fields the [+] of line 81 is a bitwise or. *)
Lemma add_is_lor x y :
  Z.land x 0xC0 + Z.land y 0x1F = Z.lor (Z.land x 0xC0) (Z.land y 0x1F).
Proof.
  rewrite Z.add_nocarry_lxor by apply masks_disjoint.
  apply Z.lxor_lor, masks_disjoint.
Qed.

(** ** Register codec *)

Lemma decode_zone_params_formula b0 b1 b2 b3 :
  0 <= b2 < 256 ->
  decode_zone_params [b0; b1; b2; b3] =
    Ok (negb (b0 mod 8 =? 0), b2 mod 64 - 64 * (b2 mod 64 / 32), b2 / 64 + 1).
Proof.
  intros Hb. unfold decode_zone_params.
  rewrite (getitem_nth _ 0 b0) by reflexivity.
  rewrite (getitem_nth _ 2 b2) by reflexivity. simpl.
  rewrite land_7, land_3F, high_two_bits by lia. reflexivity.
Qed.

Lemma sign_correction raw :
  0 <= raw < 64 -> raw - 64 * (raw / 32) = if raw <? 32 then raw else raw - 64.
Proof.
  intros Hr. destruct (Z.ltb_spec raw 32).
  - rewrite Z.div_small by lia. lia.
  - assert (raw / 32 = 1) as ->; [|lia].
    symmetry. apply (Z.div_unique raw 32 1 (raw - 32)); lia.
Qed.

Lemma target_raw_level_value temperature p :
  step p <> 0 ->
  target_raw_level temperature p =
    Ok ((Qfloor temperature / step p - shift p) mod 32).
Proof.
  intros Hs. unfold target_raw_level, floordiv, floor.
  destruct (Z.eqb_spec (step p) 0); [contradiction|]. simpl.
  rewrite land_1F. reflexivity.
Qed.

Lemma target_raw_level_multiple k p :
  1 <= step p ->
  target_raw_level (inject_Z ((k + shift p) * step p)) p = Ok (k mod 32).
Proof.
  intros Hs. rewrite target_raw_level_value by lia.
  rewrite Qfloor_Z, Z.div_mul by lia.
  replace (k + shift p - shift p) with k by lia. reflexivity.
Qed.

Lemma mode_payload_auto b0 rest :
  0 <= b0 < 256 ->
  mode_payload (b0 :: rest) true = Ok [Z.land b0 0xDF; 0x10; 0x80; 0x10; 0x80].
Proof.
  intros Hb. unfold mode_payload.
  rewrite (getitem_nth _ 0 b0) by reflexivity. simpl.
  pose proof (land_0xDF_range b0 Hb) as Hr. apply is_byte_range in Hr.
  rewrite Hr. reflexivity.
Qed.

Lemma mode_payload_manual b0 b1 b2 b3 b4 rest :
  0 <= b0 < 256 ->
  mode_payload (b0 :: b1 :: b2 :: b3 :: b4 :: rest) false =
    Ok [Z.lor b0 0x20; b1; b2; b3; b4].
Proof.
  intros Hb. unfold mode_payload.
  rewrite (getitem_nth _ 0 b0) by reflexivity. simpl.
  pose proof (lor_0x20_range b0 Hb) as Hr. apply is_byte_range in Hr.
  rewrite Hr. reflexivity.
Qed.

(** ** One task at a time *)

Arguments async_read_holding_registers : simpl never.
Arguments async_write_register : simpl never.
Arguments check_connection : simpl never.

Section Sequential.

Context {D : Type} `{Transport D}.

Variable cp1250 : Z -> option Z.

Lemma run_bind {A B} (m : prog A) (f : A -> prog B) (c : client D) :
  run (bind m f) c =
    match run m c with
    | (Ok a, c') => run (f a) c'
    | (Raise e, c') => (Raise e, c')
    end.
Proof.
  revert c. induction m as [r|k IH|k IH|k IH|k IH|a n kw k IH|a vs kw k IH|t k IH|k IH|k IH|ps k IH];
    intros c; simpl; auto.
  - destruct r; reflexivity.
  - destruct (connect (_client c)). apply IH.
  - destruct (read_holding_registers a n kw (_client c)). apply IH.
  - destruct (write_registers a vs kw (_client c)). apply IH.
Qed.

Lemma run_releasing {A} (m : prog A) (c : client D) :
  run (releasing m) c = (fst (run m c), log EvRelease (snd (run m c))).
Proof.
  revert c. induction m as [r|k IH|k IH|k IH|k IH|a n kw k IH|a vs kw k IH|t k IH|k IH|k IH|ps k IH];
    intros c; simpl; auto.
  - destruct (connect (_client c)). apply IH.
  - destruct (read_holding_registers a n kw (_client c)). apply IH.
  - destruct (write_registers a vs kw (_client c)). apply IH.
Qed.

Lemma perform_transaction q unit :
  perform q unit = transaction (request_op q (slave_kwargs unit)).
Proof. destruct q; reflexivity. Qed.

Lemma run_request_op q kw (c : client D) :
  run (request_op q kw) c =
    (awaited (fst (transport_call q kw (_client c))),
     log (request_event q) (set_device (snd (transport_call q kw (_client c))) c)).
Proof.
  destruct q; simpl.
  - destruct (read_holding_registers address count kw (_client c)); reflexivity.
  - destruct (write_registers address values kw (_client c)); reflexivity.
Qed.

Lemma run_check_connection (c : client D) :
  exists b, run check_connection c = (Ok b, snd (run check_connection c)).
Proof.
  unfold check_connection, async_connect. simpl.
  destruct (connected (_client c)); simpl.
  - eexists; reflexivity.
  - destruct (connect (_client c)); simpl. eexists; reflexivity.
Qed.

Lemma check_connection_object (c : client D) :
  _address (snd (run check_connection c)) = _address c /\
  _params (snd (run check_connection c)) = _params c.
Proof.
  unfold check_connection, async_connect. simpl.
  destruct (connected (_client c)); simpl; [auto|].
  destruct (connect (_client c)); simpl. auto.
Qed.

Lemma failed_response a :
  failed a = true -> exists r, a = Response r /\ isError r = true.
Proof. destruct a as [r|]; [eauto | discriminate]. Qed.

(** One failed attempt: the call, the sleep, and the rest of the loop. *)
Lemma attempts_failed_once q kw n last (c : client D) r :
  fst (transport_call q kw (_client c)) = Response r ->
  isError r = true ->
  run (attempts (S n) (request_op q kw) last) c =
    run (attempts n (request_op q kw) (Some r))
        (log (EvSleep CONF_MODBUS_RETR_WAIT)
           (log (request_event q)
              (set_device (snd (transport_call q kw (_client c))) c))).
Proof.
  intros Ha He. cbn [attempts]. rewrite run_bind, run_request_op, Ha.
  cbn [awaited]. rewrite He. reflexivity.
Qed.

Lemma attempts_succeed q kw n : forall k last (c : client D) r,
  (k < n)%nat ->
  (forall i, (i < k)%nat ->
     failed (reply (transport_call q kw) i (_client c)) = true) ->
  reply (transport_call q kw) k (_client c) = Response r ->
  isError r = false ->
  run (attempts n (request_op q kw) last) c =
    (Ok (Some r),
     mk_client (device_after (transport_call q kw) (S k) (_client c))
               (_address c) (_params c)
               (trace c ++ retry_events (request_event q) k ++ [request_event q])).
Proof.
  induction n as [|n IH]; intros k last c r Hk Hfail Hr Hok; [lia|].
  destruct k as [|k].
  - cbn [attempts]. rewrite run_bind, run_request_op.
    unfold reply in Hr. cbn [device_after] in Hr. rewrite Hr. cbn [awaited].
    rewrite Hok. reflexivity.
  - destruct (failed_response _ (Hfail 0%nat ltac:(lia))) as (r0 & Hr0 & He0).
    unfold reply in Hr0. cbn [device_after] in Hr0.
    rewrite (attempts_failed_once q kw n last c r0 Hr0 He0).
    rewrite (IH k _ _ r); cbn [log _client _address _params trace set_device];
      try lia.
    + cbn [device_after retry_events]. rewrite <- !app_assoc. reflexivity.
    + intros i Hi. apply (Hfail (S i)). lia.
    + exact Hr.
    + exact Hok.
Qed.

(** An attempt on which the client raises ends the loop with that
    exception: no sleep and no further attempt. *)
Lemma attempts_raise q kw n : forall k last (c : client D),
  (k < n)%nat ->
  (forall i, (i < k)%nat ->
     failed (reply (transport_call q kw) i (_client c)) = true) ->
  reply (transport_call q kw) k (_client c) = Raises ->
  run (attempts n (request_op q kw) last) c =
    (Raise ModbusException,
     mk_client (device_after (transport_call q kw) (S k) (_client c))
               (_address c) (_params c)
               (trace c ++ retry_events (request_event q) k ++ [request_event q])).
Proof.
  induction n as [|n IH]; intros k last c Hk Hfail Hr; [lia|].
  destruct k as [|k].
  - cbn [attempts]. rewrite run_bind, run_request_op.
    unfold reply in Hr. cbn [device_after] in Hr. rewrite Hr. reflexivity.
  - destruct (failed_response _ (Hfail 0%nat ltac:(lia))) as (r0 & Hr0 & He0).
    unfold reply in Hr0. cbn [device_after] in Hr0.
    rewrite (attempts_failed_once q kw n last c r0 Hr0 He0).
    rewrite (IH k); cbn [log _client _address _params trace set_device];
      try lia.
    + cbn [device_after retry_events]. rewrite <- !app_assoc. reflexivity.
    + intros i Hi. apply (Hfail (S i)). lia.
    + exact Hr.
Qed.

Lemma attempts_exhausted q kw n : forall last (c : client D),
  (forall i, (i < n)%nat ->
     failed (reply (transport_call q kw) i (_client c)) = true) ->
  run (attempts n (request_op q kw) last) c =
    (Ok (match n with
         | O => last
         | S m =>
             match reply (transport_call q kw) m (_client c) with
             | Response r => Some r
             | Raises => None
             end
         end),
     mk_client (device_after (transport_call q kw) n (_client c))
               (_address c) (_params c)
               (trace c ++ retry_events (request_event q) n)).
Proof.
  induction n as [|n IH]; intros last c Hfail.
  - simpl. rewrite app_nil_r. destruct c; reflexivity.
  - destruct (failed_response _ (Hfail 0%nat ltac:(lia))) as (r0 & Hr0 & He0).
    unfold reply in Hr0. cbn [device_after] in Hr0.
    rewrite (attempts_failed_once q kw n last c r0 Hr0 He0).
    rewrite IH; cbn [log _client _address _params trace set_device].
    + cbn [device_after retry_events]. f_equal.
      * destruct n; [|reflexivity]. unfold reply. cbn [device_after].
        rewrite Hr0. reflexivity.
      * rewrite <- !app_assoc. reflexivity.
    + intros i Hi. apply (Hfail (S i)). lia.
Qed.

Lemma same_object_refl (c : client D) : same_object c c.
Proof. split; reflexivity. Qed.

Lemma same_object_trans (c1 c2 c3 : client D) :
  same_object c1 c2 -> same_object c2 c3 -> same_object c1 c3.
Proof. intros [? ?] [? ?]. split; congruence. Qed.

(** The loop ends with the variable bound, or with the exception of the
    client. *)
Lemma attempts_total q kw n : forall last (c : client D),
  exists out c',
    run (attempts n (request_op q kw) last) c = (out, c') /\
    match out with
    | Ok o => o = None -> n = O /\ last = None
    | Raise e => e = ModbusException
    end /\
    same_object c c'.
Proof.
  induction n as [|n IH]; intros last c.
  - exists (Ok last), c. simpl. repeat split; auto.
  - cbn [attempts]. rewrite run_bind, run_request_op.
    destruct (fst (transport_call q kw (_client c))) as [r|]; cbn [awaited].
    + destruct (isError r) eqn:He.
      * cbn [run].
        destruct (IH (Some r)
                    (log (EvSleep CONF_MODBUS_RETR_WAIT)
                       (log (request_event q)
                          (set_device (snd (transport_call q kw (_client c))) c))))
          as (out & c' & Hrun & Hout & Hobj).
        exists out, c'. split; [exact Hrun|]. split.
        -- destruct out as [o|e]; [|exact Hout].
           intros ->. destruct (Hout eq_refl) as [_ Hl]. discriminate.
        -- destruct Hobj as [Ha Hp]. split; [rewrite Ha | rewrite Hp]; reflexivity.
      * eexists (Ok (Some r)), _. cbn. split; [reflexivity|].
        split; [discriminate|]. split; reflexivity.
    + eexists (Raise ModbusException), _. split; [reflexivity|].
      split; [reflexivity|]. split; reflexivity.
Qed.

Lemma run_async_with_lock {A} (body : prog A) (c : client D) :
  run (async_with_lock body) c =
    (fst (run body (log EvAcquire c)),
     log EvRelease (snd (run body (log EvAcquire c)))).
Proof. unfold async_with_lock. simpl. apply run_releasing. Qed.

Lemma same_object_log e (c : client D) : same_object c (log e c).
Proof. split; reflexivity. Qed.

(** A transaction returns a response or raises what the client raised;
    the object keeps its address and its cache. *)
Lemma run_perform q unit (c : client D) :
  exists out c',
    run (perform q unit) c = (out, c') /\ same_object c c' /\
    forall e, out = Raise e -> e = ModbusException.
Proof.
  rewrite perform_transaction. unfold transaction.
  rewrite run_async_with_lock, run_bind.
  destruct (run_check_connection (log EvAcquire c)) as [b Hb].
  pose proof (check_connection_object (log EvAcquire c)) as Hobj.
  rewrite Hb. rewrite run_bind.
  destruct (attempts_total q (slave_kwargs unit) CONF_MODBUS_RETR None
              (snd (run check_connection (log EvAcquire c))))
    as (out & c' & Hrun & Hout & Hobj').
  assert (Hsame : same_object c (log EvRelease c')).
  { eapply same_object_trans; [apply (same_object_log EvAcquire)|].
    eapply same_object_trans; [split; apply Hobj|].
    eapply same_object_trans; [exact Hobj'|]. apply same_object_log. }
  rewrite Hrun. destruct out as [[r|]|e].
  - exists (Ok r). eexists. cbn. split; [reflexivity|].
    split; [exact Hsame | discriminate].
  - destruct (Hout eq_refl) as [Hn _]. discriminate.
  - exists (Raise e). eexists. cbn. split; [reflexivity|].
    split; [exact Hsame|]. intros e' Heq. inversion Heq; subst e'. exact Hout.
Qed.

Lemma run_async_read unit address count (c : client D) :
  exists out c',
    run (async_read_holding_registers unit address count) c = (out, c') /\
    same_object c c' /\
    forall e, out = Raise e -> e = ModbusException.
Proof. apply (run_perform (Read address count)). Qed.

Lemma run_async_write unit address payload (c : client D) :
  exists out c',
    run (async_write_register unit address payload) c = (out, c') /\
    same_object c c' /\
    forall e, out = Raise e -> e = ModbusException.
Proof. apply (run_perform (Write address payload)). Qed.


Lemma read_params_slot_inserts pos res (c : client D) res' c' :
  run (read_params_slot cp1250 pos res) c = (Ok res', c') ->
  (exists p, res' = <[pos := p]> res) /\ same_object c c'.
Proof.
  unfold read_params_slot. cbn [run]. rewrite run_bind.
  destruct (run_async_read (_address c) (0x1100 + (pos - 1) * 0x10) 4 c)
    as (o & c1 & Hr & Hobj1 & _).
  rewrite Hr. destruct o as [r|e]; [|discriminate]. destruct (isError r).
  - cbn. intros Heq. inversion Heq; subst. eauto.
  - rewrite run_bind. cbn [run lift].
    destruct (registers_bytes r) as [params|e]; [|discriminate].
    rewrite run_bind. cbn [run lift].
    destruct (decode_zone_params params) as [[[u sh] st]|e]; [|discriminate].
    rewrite run_bind. destruct u.
    + rewrite run_bind. cbn [run].
      destruct (run_async_read (_address c1) (0x1030 + (pos - 1) * 8) 8 c1)
        as (o2 & c2 & Hr2 & Hobj2 & _).
      rewrite Hr2. destruct o2 as [r2|e]; [|discriminate].
      rewrite run_bind. cbn [run lift].
      destruct (registers_bytes r2) as [nm|e]; [|discriminate].
      cbn [run lift].
      match goal with |- context [decode ?t ?n] => destruct (decode t n) as [s|e] end;
        [|discriminate].
      cbn. intros Heq. inversion Heq; subst. split; [eauto|].
      eapply same_object_trans; eauto.
    + cbn. intros Heq. inversion Heq; subst. eauto.
Qed.

(** *** The parameter cache *)

Lemma read_params_slot_object pos res (c : client D) :
  same_object c (snd (run (read_params_slot cp1250 pos res) c)).
Proof.
  unfold read_params_slot. cbn [run]. rewrite run_bind.
  destruct (run_async_read (_address c) (0x1100 + (pos - 1) * 0x10) 4 c)
    as (o & c1 & Hr & Hobj1 & _).
  rewrite Hr. destruct o as [r|e]; [|exact Hobj1].
  destruct (isError r); [exact Hobj1|].
  rewrite run_bind. cbn [run lift].
  destruct (registers_bytes r) as [params|e]; [|exact Hobj1].
  rewrite run_bind. cbn [run lift].
  destruct (decode_zone_params params) as [[[u sh] st]|e]; [|exact Hobj1].
  rewrite run_bind. destruct u; [|exact Hobj1].
  rewrite run_bind. cbn [run].
  destruct (run_async_read (_address c1) (0x1030 + (pos - 1) * 8) 8 c1)
    as (o2 & c2 & Hr2 & Hobj2 & _).
  assert (Hobj : same_object c c2) by (eapply same_object_trans; eauto).
  rewrite Hr2. destruct o2 as [r2|e]; [|exact Hobj].
  rewrite run_bind. cbn [run lift].
  destruct (registers_bytes r2) as [nm|e]; [|exact Hobj].
  cbn [run lift].
  match goal with
  | |- context [decode ?t ?n] => destruct (decode t n) as [s|e]
  end; exact Hobj.
Qed.

Lemma getitem_error {A} (l : list A) i e :
  getitem l i = Raise e -> e = IndexError.
Proof.
  unfold getitem. destruct (_ && _).
  - destruct (nth_error _ _); [discriminate | congruence].
  - congruence.
Qed.

Lemma bytes_error l e : bytes l = Raise e -> e = ValueError.
Proof.
  induction l as [|x l IH]; simpl; [discriminate|].
  destruct (is_byte x); [|congruence].
  destruct (bytes l); simpl; [discriminate|].
  intros Heq. inversion Heq; subst. apply IH. reflexivity.
Qed.

Lemma registers_bytes_error r e :
  registers_bytes r = Raise e -> e = ValueError \/ e = AttributeError.
Proof.
  unfold registers_bytes. destruct (registers r) as [l|].
  - intros Hb. left. eapply bytes_error, Hb.
  - intros Heq. inversion Heq. auto.
Qed.

Lemma registers_bytes_population r e :
  registers_bytes r = Raise e -> population_error e.
Proof.
  intros Hb. unfold population_error.
  destruct (registers_bytes_error r e Hb) as [->| ->]; auto.
Qed.

Lemma decode_error l e : decode cp1250 l = Raise e -> e = UnicodeDecodeError.
Proof.
  induction l as [|x l IH]; simpl; [discriminate|].
  destruct (cp1250 x); [|congruence].
  destruct (decode cp1250 l); simpl; [discriminate|].
  intros Heq. inversion Heq; subst. apply IH. reflexivity.
Qed.

Lemma decode_zone_params_error params e :
  decode_zone_params params = Raise e -> e = IndexError.
Proof.
  unfold decode_zone_params.
  destruct (getitem params 0) as [p0|e0] eqn:H0; simpl.
  - destruct (getitem params 2) as [p2|e2] eqn:H2; simpl; [discriminate|].
    intros Heq. inversion Heq; subst. eapply getitem_error, H2.
  - intros Heq. inversion Heq; subst. eapply getitem_error, H0.
Qed.

Lemma read_params_slot_raises pos res (c : client D) e c' :
  run (read_params_slot cp1250 pos res) c = (Raise e, c') -> population_error e.
Proof.
  unfold read_params_slot. cbn [run]. rewrite run_bind.
  destruct (run_async_read (_address c) (0x1100 + (pos - 1) * 0x10) 4 c)
    as (o & c1 & Hr & Hobj1 & Hexn).
  rewrite Hr. destruct o as [r|e1].
  2:{ intros Heq. inversion Heq; subst. rewrite (Hexn e eq_refl).
      unfold population_error. auto 6. }
  destruct (isError r); [discriminate|].
  rewrite run_bind. cbn [run lift].
  destruct (registers_bytes r) as [params|e1] eqn:Hb.
  2:{ intros Heq. inversion Heq; subst. eapply registers_bytes_population, Hb. }
  rewrite run_bind. cbn [run lift].
  destruct (decode_zone_params params) as [[[u sh] st]|e1] eqn:Hd.
  2:{ intros Heq. inversion Heq; subst. right; left.
      eapply decode_zone_params_error, Hd. }
  rewrite run_bind. destruct u; [|discriminate].
  rewrite run_bind. cbn [run].
  destruct (run_async_read (_address c1) (0x1030 + (pos - 1) * 8) 8 c1)
    as (o2 & c2 & Hr2 & Hobj2 & Hexn2).
  rewrite Hr2. destruct o2 as [r2|e1].
  2:{ intros Heq. inversion Heq; subst. rewrite (Hexn2 e eq_refl).
      unfold population_error. auto 6. }
  rewrite run_bind. cbn [run lift].
  destruct (registers_bytes r2) as [nm|e1] eqn:Hb2.
  2:{ intros Heq. inversion Heq; subst. eapply registers_bytes_population, Hb2. }
  cbn [run lift].
  match goal with
  | |- context [decode ?t ?n] => destruct (decode t n) as [s|e1] eqn:Hdec
  end; [discriminate|].
  intros Heq. inversion Heq; subst. right; right; left.
  eapply decode_error, Hdec.
Qed.

Lemma read_params_loop l : forall res (c : client D),
  same_object c (snd (run (for_each l (read_params_slot cp1250) res) c)) /\
  (forall res' c',
     run (for_each l (read_params_slot cp1250) res) c = (Ok res', c') ->
     forall k, is_Some (res' !! k) <-> is_Some (res !! k) \/ k ∈ l) /\
  (forall e c',
     run (for_each l (read_params_slot cp1250) res) c = (Raise e, c') ->
     population_error e).
Proof.
  induction l as [|pos l IH]; intros res c.
  - cbn. split; [apply same_object_refl|]. split.
    + intros res' c' Heq k. inversion Heq; subst. set_solver.
    + discriminate.
  - cbn [for_each]. rewrite run_bind.
    pose proof (read_params_slot_object pos res c) as Hobj.
    destruct (run (read_params_slot cp1250 pos res) c) as [[res1|e1] c1] eqn:Hslot.
    + destruct (read_params_slot_inserts pos res c res1 c1 Hslot) as [[p ->] _].
      destruct (IH (<[pos := p]> res) c1) as (Hobj' & Hok & Herr).
      split; [eapply same_object_trans; eauto|]. split.
      * intros res' c' Hrun k. rewrite (Hok res' c' Hrun k).
        destruct (decide (pos = k)) as [->|Hne].
        -- rewrite lookup_insert_eq. set_solver.
        -- rewrite lookup_insert_ne by exact Hne. set_solver.
      * exact Herr.
    + split; [exact Hobj|]. split; [discriminate|].
      intros e c' Heq. inversion Heq; subst.
      eapply read_params_slot_raises, Hslot.
Qed.

Lemma read_params_spec (c : client D) :
  (exists ps c',
     run (read_params cp1250) c = (Ok tt, c') /\
     _params c' = Some ps /\ _address c' = _address c /\
     forall pos, is_Some (ps !! pos) <-> 1 <= pos <= 16)
  \/ (exists e c',
        run (read_params cp1250) c = (Raise e, c') /\
        population_error e /\ same_object c c').
Proof.
  unfold read_params. rewrite run_bind.
  destruct (read_params_loop (seqZ 1 16) ∅ c) as (Hobj & Hok & Herr).
  destruct (run (for_each (seqZ 1 16) (read_params_slot cp1250) ∅) c)
    as [[res|e] c1] eqn:Hrun.
  - left. exists res, (set_params res c1). cbn. split; [reflexivity|].
    split; [reflexivity|]. split; [apply Hobj|].
    intros pos. rewrite (Hok res c1 eq_refl pos), elem_of_seqZ.
    rewrite lookup_empty. split.
    + intros [[x Hx]|Hin]; [discriminate | lia].
    + intros Hpos. right. lia.
  - right. exists e, c1. split; [reflexivity|]. split; [eapply Herr; eauto|].
    exact Hobj.
Qed.

Lemma ensure_params_cached (c : client D) ps :
  _params c = Some ps -> run (ensure_params cp1250) c = (Ok tt, c).
Proof. intros Hps. unfold ensure_params. cbn [run]. rewrite Hps. reflexivity. Qed.

Lemma ensure_params_empty (c : client D) :
  _params c = None ->
  run (ensure_params cp1250) c = run (read_params cp1250) c.
Proof. intros Hps. unfold ensure_params. cbn [run]. rewrite Hps. reflexivity. Qed.

(** After [if self._params is None: await self.__read_params()] the cache
    is there and complete, or the population raised. *)
Lemma ensure_params_spec (c : client D) :
  cache_invariant c ->
  (exists ps c',
     run (ensure_params cp1250) c = (Ok tt, c') /\
     _params c' = Some ps /\ _address c' = _address c /\ cache_complete ps)
  \/ (exists e c',
        run (ensure_params cp1250) c = (Raise e, c') /\
        population_error e /\ same_object c c').
Proof.
  intros Hinv. unfold cache_invariant in Hinv.
  destruct (_params c) as [ps|] eqn:Hps.
  - left. exists ps, c. rewrite (ensure_params_cached c ps Hps). auto.
  - rewrite (ensure_params_empty c Hps).
    destruct (read_params_spec c) as [(ps & c' & Hrun & Hps' & Ha & Hdom)|Herr].
    + left. exists ps, c'. repeat split; auto.
      intros pos Hpos. apply Hdom, Hpos.
    + right. exact Herr.
Qed.

Lemma get_parameters_cached (c : client D) ps :
  _params c = Some ps ->
  run (get_parameters cp1250) c =
    (Ok (Some (limits_of <$> filter (fun kv => used kv.2 = true) ps)), c).
Proof.
  intros Hps. unfold get_parameters. rewrite run_bind.
  rewrite (ensure_params_cached c ps Hps). cbn [run]. rewrite Hps. reflexivity.
Qed.

Lemma get_parameters_returns (c : client D) r c1 :
  run (get_parameters cp1250) c = (Ok r, c1) ->
  exists ps,
    _params c1 = Some ps /\
    r = Some (limits_of <$> filter (fun kv => used kv.2 = true) ps) /\
    (forall ps0, _params c = Some ps0 -> c1 = c).
Proof.
  destruct (_params c) as [ps0|] eqn:Hps.
  - rewrite (get_parameters_cached c ps0 Hps). intros Heq.
    inversion Heq; subst. exists ps0. auto.
  - unfold get_parameters. rewrite run_bind, (ensure_params_empty c Hps).
    destruct (read_params_spec c)
      as [(ps & c' & Hrun & Hps' & _ & _)|(e & c' & Hrun & _ & _)];
      rewrite Hrun; [|discriminate].
    cbn [run]. rewrite Hps'. cbn. intros Heq. inversion Heq; subst.
    exists ps. repeat split; auto. discriminate.
Qed.

Lemma listed_zone (ps : gmap Z position) pos l :
  (limits_of <$> filter (fun kv => used kv.2 = true) ps) !! pos = Some l <->
  exists p, ps !! pos = Some p /\ used p = true /\ l = limits_of p.
Proof.
  rewrite lookup_fmap, fmap_Some. split.
  - intros (p & Hf & ->). apply map_lookup_filter_Some in Hf.
    destruct Hf as [Hp Hu]. exists p. auto.
  - intros (p & Hp & Hu & ->). exists p. split; [|reflexivity].
    apply map_lookup_filter_Some. auto.
Qed.

(** *** The two polling loops *)

Lemma getitem_in_range {A} (data : list A) pos :
  1 <= pos <= Z.of_nat (length data) ->
  exists b, getitem data (pos - 1) = Ok b /\
            nth_error data (Z.to_nat (pos - 1)) = Some b.
Proof.
  intros Hpos.
  destruct (nth_error data (Z.to_nat (pos - 1))) as [b|] eqn:Hb.
  - exists b. split; [|reflexivity].
    rewrite <- (Z2Nat.id (pos - 1)) by lia. apply getitem_nth, Hb.
  - apply nth_error_None in Hb. lia.
Qed.

(** Both loops have one shape; [dec] is what they store for a used zone. *)
Lemma polling_loop {V} (dec : Z -> position -> V)
  (slot : Z -> gmap Z V -> prog (gmap Z V)) data (ps : gmap Z position) :
  (forall pos res,
     slot pos res =
       (let* b := lift (getitem data (pos - 1)) in
        let* position := lift (params_getitem (Some ps) pos) in
        if used position
        then ret (<[pos := dec b position]> res)
        else ret res)) ->
  cache_complete ps ->
  forall l res (c : client D),
  (forall pos, pos ∈ l -> 1 <= pos <= 16 /\ pos <= Z.of_nat (length data)) ->
  exists res',
    run (for_each l slot res) c = (Ok res', c) /\
    forall k,
      res' !! k =
        if decide (k ∈ l)
        then match ps !! k, nth_error data (Z.to_nat (k - 1)) with
             | Some p, Some b => if used p then Some (dec b p) else res !! k
             | _, _ => res !! k
             end
        else res !! k.
Proof.
  intros Hslot Hps. induction l as [|x l IH]; intros res c Hrng.
  - exists res. split; [reflexivity|]. intros k.
    destruct (decide (k ∈ [])) as [Hin|_]; [inversion Hin | reflexivity].
  - cbn [for_each]. rewrite run_bind, Hslot.
    destruct (Hrng x ltac:(left)) as [Hx Hxlen].
    destruct (getitem_in_range data x ltac:(lia)) as (b & Hb & Hnth).
    rewrite run_bind. cbn [run lift]. rewrite Hb.
    destruct (Hps x Hx) as [p Hp].
    rewrite run_bind. cbn [run lift params_getitem]. rewrite Hp.
    assert (Hrng' : forall pos, pos ∈ l ->
                      1 <= pos <= 16 /\ pos <= Z.of_nat (length data))
      by (intros; apply Hrng; right; assumption).
    destruct (used p) eqn:Hu; cbn [run ret].
    + destruct (IH (<[x := dec b p]> res) c Hrng') as (res' & Hrun & Hres).
      exists res'. split; [exact Hrun|]. intros k. rewrite Hres.
      destruct (decide (k = x)) as [->|Hne].
      * rewrite Hp, Hnth, Hu, lookup_insert_eq.
        destruct (decide (x ∈ l)); destruct (decide (x ∈ x :: l)) as [|Hn];
          try reflexivity; exfalso; apply Hn; left.
      * rewrite lookup_insert_ne by congruence.
        destruct (decide (k ∈ l)) as [Hin|Hnin];
          destruct (decide (k ∈ x :: l)) as [Hin'|Hnin']; try reflexivity.
        -- exfalso. apply Hnin'. right. exact Hin.
        -- apply elem_of_cons in Hin'. destruct Hin'; [congruence|contradiction].
    + destruct (IH res c Hrng') as (res' & Hrun & Hres).
      exists res'. split; [exact Hrun|]. intros k. rewrite Hres.
      destruct (decide (k = x)) as [->|Hne].
      * rewrite Hp, Hnth, Hu.
        destruct (decide (x ∈ l)); destruct (decide (x ∈ x :: l)) as [|Hn];
          try reflexivity; exfalso; apply Hn; left.
      * destruct (decide (k ∈ l)) as [Hin|Hnin];
          destruct (decide (k ∈ x :: l)) as [Hin'|Hnin']; try reflexivity.
        -- exfalso. apply Hnin'. right. exact Hin.
        -- apply elem_of_cons in Hin'. destruct Hin'; [congruence|contradiction].
Qed.

(** [get_current_temperatures] and [get_required_temperatures] differ in
    the block they read and in what they store; [polling] is their
    common body. *)
Lemma polling_spec {V} (dec : Z -> position -> V)
  (slot : list Z -> option (gmap Z position) -> Z -> gmap Z V ->
          prog (gmap Z V)) (block : Z) (c : client D) :
  (forall data ps pos res,
     slot data (Some ps) pos res =
       (let* b := lift (getitem data (pos - 1)) in
        let* position := lift (params_getitem (Some ps) pos) in
        if used position
        then ret (<[pos := dec b position]> res)
        else ret res)) ->
  cache_invariant c ->
  let polling :=
    GetAddress (fun address =>
    let* response := async_read_holding_registers address block 16 in
    let* data := lift (registers_bytes response) in
    let* _ := ensure_params cp1250 in
    GetParams (fun ps =>
    if negb (Z.of_nat (length data) =? 16) || negb (bool_decide (is_Some ps))
    then ret None
    else
      let* res := for_each (seqZ 1 16) (slot data ps) ∅ in
      ret (Some res))) in
  match run (async_read_holding_registers (_address c) block 16) c with
  | (Raise e, c1) => run polling c = (Raise e, c1) /\ e = ModbusException
  | (Ok r, c1) =>
    match registers_bytes r with
    | Raise e =>
        run polling c = (Raise e, c1) /\ (e = ValueError \/ e = AttributeError)
    | Ok data =>
        match run (ensure_params cp1250) c1 with
        | (Raise e, c2) => run polling c = (Raise e, c2) /\ population_error e
        | (Ok _, c2) =>
            exists ps,
              _params c2 = Some ps /\ cache_complete ps /\
              if Z.of_nat (length data) =? 16
              then exists res,
                     run polling c = (Ok (Some res), c2) /\
                     forall pos p b,
                       1 <= pos <= 16 -> ps !! pos = Some p ->
                       nth_error data (Z.to_nat (pos - 1)) = Some b ->
                       res !! pos =
                         if used p then Some (dec b p) else None
              else run polling c = (Ok None, c2)
        end
    end
  end.
Proof.
  intros Hslot Hinv polling. unfold polling. cbn [run]. rewrite run_bind.
  destruct (run_async_read (_address c) block 16 c)
    as (o & c1 & Hr & Hobj & Hexn).
  rewrite Hr. destruct o as [r|e]; [|split; [reflexivity | auto]].
  rewrite run_bind. cbn [run lift].
  destruct (registers_bytes r) as [data|e] eqn:Hb.
  2:{ split; [reflexivity | eapply registers_bytes_error, Hb]. }
  rewrite run_bind.
  assert (Hinv1 : cache_invariant c1).
  { unfold cache_invariant in *. destruct Hobj as [_ Hp]. rewrite Hp. exact Hinv. }
  destruct (ensure_params_spec c1 Hinv1)
    as [(ps & c2 & Hrun & Hps & _ & Hfull)|(e & c2 & Hrun & He & _)];
    rewrite Hrun; [|split; [reflexivity | exact He]].
  exists ps. split; [exact Hps|]. split; [exact Hfull|].
  cbn [run]. rewrite Hps.
  destruct (Z.eqb_spec (Z.of_nat (length data)) 16) as [Hlen|Hlen]; cbn [negb orb].
  - rewrite bool_decide_eq_true_2 by eauto. cbn [negb]. rewrite run_bind.
    destruct (polling_loop dec (slot data (Some ps)) data ps (Hslot data ps) Hfull
                (seqZ 1 16) ∅ c2) as (res & Hloop & Hres).
    { intros pos Hin. apply elem_of_seqZ in Hin. lia. }
    rewrite Hloop. exists res. split; [reflexivity|].
    intros pos p b Hpos Hp Hnth. rewrite Hres.
    destruct (decide (pos ∈ seqZ 1 16)) as [_|Hnin].
    + rewrite Hp, Hnth. destruct (used p); [reflexivity | apply lookup_empty].
    + exfalso. apply Hnin, elem_of_seqZ. lia.
  - reflexivity.
Qed.

Lemma get_current_temperatures_polling :
  get_current_temperatures cp1250 =
    GetAddress (fun address =>
    let* response := async_read_holding_registers address 0x60 16 in
    let* data := lift (registers_bytes response) in
    let* _ := ensure_params cp1250 in
    GetParams (fun ps =>
    if negb (Z.of_nat (length data) =? 16) || negb (bool_decide (is_Some ps))
    then ret None
    else
      let* res := for_each (seqZ 1 16) (current_slot data ps) ∅ in
      ret (Some res))).
Proof. reflexivity. Qed.

Lemma get_required_temperatures_polling :
  get_required_temperatures cp1250 =
    GetAddress (fun address =>
    let* response := async_read_holding_registers address 0x70 16 in
    let* data := lift (registers_bytes response) in
    let* _ := ensure_params cp1250 in
    GetParams (fun ps =>
    if negb (Z.of_nat (length data) =? 16) || negb (bool_decide (is_Some ps))
    then ret None
    else
      let* res := for_each (seqZ 1 16) (required_slot data ps) ∅ in
      ret (Some res))).
Proof. reflexivity. Qed.

(** *** Dates and time-of-year stamps *)

Lemma days_in_month_bounds y m : 28 <= days_in_month y m <= 31.
Proof.
  unfold days_in_month. destruct (m =? 2); [destruct (is_leap y); lia|].
  destruct (_ || _); lia.
Qed.

Lemma next_day_date d :
  1 <= month d <= 12 ->
  1 <= day d <= days_in_month (year d) (month d) ->
  1 <= month (next_day d) <= 12 /\
  1 <= day (next_day d) <= days_in_month (year (next_day d)) (month (next_day d)).
Proof.
  intros Hm Hd. unfold next_day.
  destruct (Z.ltb_spec (day d) (days_in_month (year d) (month d))); simpl.
  - lia.
  - destruct (Z.ltb_spec (month d) 12); simpl.
    + pose proof (days_in_month_bounds (year d) (month d + 1)). lia.
    + pose proof (days_in_month_bounds (year d + 1) 1). lia.
Qed.

Lemma prev_day_date d :
  1 <= month d <= 12 ->
  1 <= day d <= days_in_month (year d) (month d) ->
  1 <= month (prev_day d) <= 12 /\
  1 <= day (prev_day d) <= days_in_month (year (prev_day d)) (month (prev_day d)).
Proof.
  intros Hm Hd. unfold prev_day.
  destruct (Z.ltb_spec 1 (day d)); simpl.
  - lia.
  - destruct (Z.ltb_spec 1 (month d)); simpl.
    + pose proof (days_in_month_bounds (year d) (month d - 1)). lia.
    + split; [lia|]. split; [lia|]. reflexivity.
Qed.

Lemma iter_date (f : datetime -> datetime) n d :
  (forall x,
     1 <= month x <= 12 ->
     1 <= day x <= days_in_month (year x) (month x) ->
     1 <= month (f x) <= 12 /\
     1 <= day (f x) <= days_in_month (year (f x)) (month (f x))) ->
  1 <= month d <= 12 ->
  1 <= day d <= days_in_month (year d) (month d) ->
  1 <= month (Nat.iter n f d) <= 12 /\
  1 <= day (Nat.iter n f d)
    <= days_in_month (year (Nat.iter n f d)) (month (Nat.iter n f d)).
Proof.
  intros Hf Hm Hd. induction n as [|n IH]; simpl; [auto|].
  destruct IH as [IHm IHd]. apply Hf; assumption.
Qed.

Lemma add_days_date n d :
  1 <= month d <= 12 ->
  1 <= day d <= days_in_month (year d) (month d) ->
  1 <= month (add_days n d) <= 12 /\
  1 <= day (add_days n d)
    <= days_in_month (year (add_days n d)) (month (add_days n d)).
Proof.
  intros Hm Hd. unfold add_days. destruct (0 <=? n).
  - apply iter_date; auto using next_day_date.
  - apply iter_date; auto using prev_day_date.
Qed.

Lemma datetime_add_minutes_valid d m r :
  valid_datetime d -> datetime_add_minutes d m = Ok r -> valid_datetime r.
Proof.
  intros (Hy & Hm & Hd & Hh & Hmin). unfold datetime_add_minutes.
  destruct (_ && _); [|discriminate].
  set (total := hour d * 60 + minute d + m).
  destruct (add_days_date (total / 1440) d Hm Hd) as [Hm' Hd'].
  cbn [year].
  destruct (Z.leb_spec 1 (year (add_days (total / 1440) d))) as [H1|];
    [|discriminate].
  destruct (Z.leb_spec (year (add_days (total / 1440) d)) 9999) as [H2|];
    [|discriminate].
  - intros Heq. inversion Heq; subst. unfold valid_datetime. cbn.
    pose proof (Z.mod_pos_bound total 1440 ltac:(lia)).
    pose proof (Z.mod_pos_bound (total mod 1440) 60 ltac:(lia)).
    repeat split; try lia.
    + apply Z.div_pos; lia.
    + apply Z.div_lt_upper_bound; lia.
Qed.

Lemma add_days_zero d : add_days 0 d = d.
Proof. reflexivity. Qed.

Lemma datetime_add_minutes_zero d :
  valid_datetime d -> datetime_add_minutes d (- 0) = Ok d.
Proof.
  intros (Hy & Hm & Hd & Hh & Hmin). unfold datetime_add_minutes.
  change (- 0) with 0. change (0 / 1440) with 0.
  change ((-999999999 <=? 0) && (0 <=? 999999999)) with true. cbv iota.
  rewrite Z.add_0_r.
  assert (Hsmall : 0 <= hour d * 60 + minute d < 1440) by lia.
  rewrite (Z.div_small _ 1440), (Z.mod_small _ 1440) by exact Hsmall.
  rewrite add_days_zero.
  assert (Hq : (hour d * 60 + minute d) / 60 = hour d).
  { symmetry. apply (Z.div_unique _ 60 (hour d) (minute d)); lia. }
  assert (Hr : (hour d * 60 + minute d) mod 60 = minute d).
  { symmetry. apply (Z.mod_unique _ 60 (hour d) (minute d)); lia. }
  rewrite Hq, Hr. cbn [year].
  destruct (Z.leb_spec 1 (year d)); [|lia].
  destruct (Z.leb_spec (year d) 9999); [|lia].
  destruct d; reflexivity.
Qed.

Lemma get_toy_formula d :
  get_toy d = minute d / 15 + hour d * 4 + day d * 128 + month d * 4096.
Proof. unfold get_toy. lia. Qed.

Lemma get_toy_range d : valid_datetime d -> 0 <= get_toy d < 65536.
Proof.
  intros (Hy & Hm & Hd & Hh & Hmin). rewrite get_toy_formula.
  pose proof (days_in_month_bounds (year d) (month d)).
  assert (0 <= minute d / 15 <= 3).
  { split; [apply Z.div_pos; lia|].
    apply Z.lt_succ_r, Z.div_lt_upper_bound; lia. }
  lia.
Qed.

Lemma to_bytes_2 n :
  0 <= n < 65536 -> to_bytes n 2 = Ok [n / 256; n mod 256].
Proof.
  intros Hn. unfold to_bytes. change (256 ^ Z.of_nat 2) with 65536.
  destruct (Z.leb_spec 0 n); [|lia]. destruct (Z.ltb_spec n 65536); [|lia].
  cbn [andb be_digits app].
  rewrite (Z.mod_small (n / 256) 256); [reflexivity|].
  split; [apply Z.div_pos; lia | apply Z.div_lt_upper_bound; lia].
Qed.

Lemma target_raw_level_range temperature p raw :
  target_raw_level temperature p = Ok raw ->
  0 <= raw < 32 /\ exists x, raw = Z.land x 0x1F.
Proof.
  unfold target_raw_level, floordiv. destruct (step p =? 0); [discriminate|].
  cbn. intros Heq. inversion Heq; subst. split; [|eauto].
  rewrite land_1F. apply Z.mod_pos_bound. lia.
Qed.

Lemma temporary_payload_value b0 rest temperature p raw start end_ :
  0 <= b0 < 256 ->
  target_raw_level temperature p = Ok raw ->
  0 <= start < 65536 -> 0 <= end_ < 65536 ->
  temporary_payload (b0 :: rest) raw start end_ =
    Ok [Z.lor (Z.land b0 0xC0) raw;
        start / 256; start mod 256; end_ / 256; end_ mod 256].
Proof.
  intros Hb Hraw Hs He. unfold temporary_payload.
  rewrite (getitem_nth _ 0 b0) by reflexivity. cbn [result_bind].
  destruct (target_raw_level_range _ _ _ Hraw) as [Hr [x ->]].
  pose proof (land_0xC0_range b0 Hb) as Hhi.
  rewrite bytes_ok by (repeat constructor; lia).
  cbn [result_bind]. rewrite !to_bytes_2 by assumption. cbn [result_bind app].
  rewrite add_is_lor. reflexivity.
Qed.

(** *** [set_temporary_temperature] and [set_mode], step by step *)

Lemma set_temporary_temperature_run (c : client D) pos temperature duration
  now c0 p raw r1 c1 b0 rest end_time :
  run (ensure_params cp1250) c = (Ok tt, c0) ->
  params_getitem (_params c0) pos = Ok p ->
  target_raw_level temperature p = Ok raw ->
  run (async_read_holding_registers (_address c0)
         (0x1100 + (pos - 1) * 0x10 + 0x03) 1) c0 = (Ok r1, c1) ->
  isError r1 = false ->
  registers_bytes r1 = Ok (b0 :: rest) ->
  valid_datetime now ->
  datetime_add_minutes now (duration + 1) = Ok end_time ->
  run (set_temporary_temperature cp1250 pos temperature duration now) c =
    match
      run (async_write_register (_address c0)
             (0x1100 + (pos - 1) * 0x10 + 0x03)
             [Z.lor (Z.land b0 0xC0) raw;
              get_toy now / 256; get_toy now mod 256;
              get_toy end_time / 256; get_toy end_time mod 256]) c1
    with
    | (Ok r2, c2) => (Ok (negb (isError r2)), c2)
    | (Raise e, c2) => (Raise e, c2)
    end.
Proof.
  intros Hens Hp Hraw Hread Herr Hbytes Hnow Hend.
  unfold set_temporary_temperature. rewrite run_bind, Hens. cbn [run].
  rewrite run_bind. cbn [run lift]. rewrite Hp.
  rewrite run_bind. cbn [run lift]. rewrite Hraw. cbn [run].
  rewrite run_bind, Hread, Herr.
  rewrite run_bind. cbn [run lift]. rewrite Hbytes.
  rewrite run_bind. cbn [run lift].
  rewrite (datetime_add_minutes_zero now Hnow).
  rewrite run_bind. cbn [run lift]. rewrite Hend.
  rewrite run_bind. cbn [run lift].
  apply registers_bytes_inv in Hbytes. destruct Hbytes as [Hregs Hall].
  pose proof (Forall_inv Hall) as Hb0. cbn beta in Hb0.
  pose proof (datetime_add_minutes_valid now (duration + 1) end_time Hnow Hend)
    as Hvalid.
  rewrite (temporary_payload_value b0 rest temperature p raw _ _ Hb0 Hraw
             (get_toy_range _ Hnow) (get_toy_range _ Hvalid)).
  cbn [run]. rewrite run_bind.
  destruct (run_async_read (_address c0) (0x1100 + (pos - 1) * 0x10 + 0x03) 1 c0)
    as (r & c' & Hr & [Ha _] & _).
  rewrite Hread in Hr. inversion Hr; subst. rewrite Ha.
  destruct (run (async_write_register _ _ _) c') as [[r2|e] c2]; [|reflexivity].
  destruct (isError r2); reflexivity.
Qed.

(** *** Which exceptions a method can end in *)

Create HintDb raises discriminated.

Lemma not_raised_Ok {A} e (a : A) : not_raised e (Ok a).
Proof. discriminate. Qed.

Lemma not_raised_other {A} e e' : e' <> e -> not_raised (A := A) e (Raise e').
Proof. intros Hne Heq. inversion Heq. contradiction. Qed.

Lemma not_raised_bind {A B} e (r : result A) (k : A -> result B) :
  not_raised e r -> (forall a, not_raised e (k a)) ->
  not_raised e (result_bind r k).
Proof.
  intros Hr Hk. destruct r as [a|e']; cbn; [apply Hk|].
  intros Heq. apply Hr. inversion Heq. reflexivity.
Qed.

Lemma getitem_no_key {A} (l : list A) i : not_raised KeyError (getitem l i).
Proof.
  intros Heq. apply getitem_error in Heq. discriminate.
Qed.

Lemma bytes_no_key l : not_raised KeyError (bytes l).
Proof. intros Heq. apply bytes_error in Heq. discriminate. Qed.

Lemma registers_bytes_no_key r : not_raised KeyError (registers_bytes r).
Proof.
  intros Heq. apply registers_bytes_error in Heq.
  destruct Heq; discriminate.
Qed.

Lemma to_bytes_no_key n len : not_raised KeyError (to_bytes n len).
Proof. unfold to_bytes. destruct (_ && _); discriminate. Qed.

Lemma datetime_add_minutes_no_key d m :
  not_raised KeyError (datetime_add_minutes d m).
Proof.
  unfold datetime_add_minutes. destruct (_ && _); [|discriminate].
  cbv zeta. destruct (_ && _); discriminate.
Qed.

Lemma target_raw_level_no_key t p : not_raised KeyError (target_raw_level t p).
Proof.
  unfold target_raw_level, floordiv. destruct (step p =? 0); discriminate.
Qed.

#[local] Hint Resolve not_raised_Ok not_raised_bind getitem_no_key
  bytes_no_key registers_bytes_no_key to_bytes_no_key
  datetime_add_minutes_no_key
  target_raw_level_no_key : raises.

Lemma temporary_payload_no_key data raw start end_ :
  not_raised KeyError (temporary_payload data raw start end_).
Proof. unfold temporary_payload. auto 10 with raises. Qed.

Lemma never_raises_lift {A} e (r : result A) :
  not_raised e r -> never_raises (D := D) e (lift r).
Proof. intros Hr c. exact Hr. Qed.

Lemma never_raises_ret {A} e (a : A) : never_raises (D := D) e (ret a).
Proof. intros c. discriminate. Qed.

Lemma never_raises_bind {A B} e (m : prog A) (f : A -> prog B) :
  never_raises (D := D) e m -> (forall a, never_raises (D := D) e (f a)) ->
  never_raises (D := D) e (bind m f).
Proof.
  intros Hm Hf c. rewrite run_bind. specialize (Hm c).
  destruct (run m c) as [[a|e'] c']; [apply Hf|].
  cbn in *. intros Heq. apply Hm. inversion Heq. reflexivity.
Qed.

Lemma never_raises_GetAddress {A} e (k : Z -> prog A) :
  (forall a, never_raises (D := D) e (k a)) ->
  never_raises (D := D) e (GetAddress k).
Proof. intros Hk c. apply Hk. Qed.

Lemma never_raises_read unit address count :
  never_raises (D := D) KeyError
    (async_read_holding_registers unit address count).
Proof.
  intros c.
  destruct (run_async_read unit address count c) as (o & c' & -> & _ & Hexn).
  cbn. intros Heq. specialize (Hexn _ Heq). discriminate.
Qed.

Lemma never_raises_write unit address payload :
  never_raises (D := D) KeyError
    (async_write_register unit address payload).
Proof.
  intros c.
  destruct (run_async_write unit address payload c) as (o & c' & -> & _ & Hexn).
  cbn. intros Heq. specialize (Hexn _ Heq). discriminate.
Qed.

Lemma never_raises_if {A} e (b : bool) (m1 m2 : prog A) :
  never_raises (D := D) e m1 -> never_raises (D := D) e m2 ->
  never_raises (D := D) e (if b then m1 else m2).
Proof. destruct b; auto. Qed.

#[local] Hint Resolve never_raises_lift never_raises_ret never_raises_bind
  never_raises_GetAddress never_raises_read never_raises_write
  never_raises_if temporary_payload_no_key : raises.

(** What [set_temporary_temperature] does once it has its cache entry. *)
Lemma override_tail_no_key pos temperature duration now p :
  never_raises (D := D) KeyError
    (let* temp := lift (target_raw_level temperature p) in
     GetAddress (fun address =>
     let* response :=
       async_read_holding_registers address (0x1100 + (pos - 1) * 0x10 + 0x03) 1 in
     if isError response
     then ret false
     else
       let* data := lift (registers_bytes response) in
       let* start_time := lift (datetime_add_minutes now (- 0)) in
       let start := get_toy start_time in
       let* end_time := lift (datetime_add_minutes now (duration + 1)) in
       let end_ := get_toy end_time in
       let* data := lift (temporary_payload data temp start end_) in
       GetAddress (fun address =>
       let* response :=
         async_write_register address (0x1100 + (pos - 1) * 0x10 + 0x03) data in
       if isError response then ret false else ret true))).
Proof.
  apply never_raises_bind; [auto with raises|]. intros temp.
  apply never_raises_GetAddress. intros address.
  apply never_raises_bind; [auto with raises|]. intros response.
  apply never_raises_if; [auto with raises|].
  apply never_raises_bind; [auto with raises|]. intros data.
  apply never_raises_bind; [auto with raises|]. intros start_time.
  apply never_raises_bind; [auto with raises|]. intros end_time.
  apply never_raises_bind; [auto with raises|]. intros payload.
  apply never_raises_GetAddress. intros address'.
  apply never_raises_bind; [auto with raises|]. intros response'.
  apply never_raises_if; auto with raises.
Qed.

Lemma population_error_not_key e : population_error e -> e <> KeyError.
Proof. intros [->|[->|[->|[->| ->]]]]; discriminate. Qed.

Lemma set_temporary_temperature_no_key (c : client D) pos temperature
  duration now :
  cache_invariant c -> 1 <= pos <= 16 ->
  fst (run (set_temporary_temperature cp1250 pos temperature duration now) c)
    <> Raise KeyError.
Proof.
  intros Hinv Hpos. unfold set_temporary_temperature. rewrite run_bind.
  destruct (ensure_params_spec c Hinv)
    as [(ps & c' & Hrun & Hps & _ & Hfull)|(e & c' & Hrun & He & _)];
    rewrite Hrun.
  - cbn [run]. rewrite Hps. rewrite run_bind. cbn [run lift params_getitem].
    destruct (Hfull pos Hpos) as [p Hp]. rewrite Hp.
    apply override_tail_no_key.
  - cbn. intros Heq. inversion Heq. subst.
    apply (population_error_not_key KeyError He). reflexivity.
Qed.

(** *** The transaction executor *)

Lemma run_transaction_attempts q unit (c : client D) o c2 :
  run (attempts CONF_MODBUS_RETR (request_op q (slave_kwargs unit)) None)
      (connected_client c) = (Ok (Some o), c2) ->
  run (perform q unit) c = (Ok o, log EvRelease c2).
Proof.
  intros Hrun. rewrite perform_transaction. unfold transaction.
  rewrite run_async_with_lock, run_bind.
  destruct (run_check_connection (log EvAcquire c)) as [b Hb].
  rewrite Hb. fold (connected_client c). rewrite run_bind, Hrun. reflexivity.
Qed.

Lemma connected_client_object (c : client D) :
  same_object c (connected_client c).
Proof.
  unfold connected_client.
  eapply same_object_trans; [apply (same_object_log EvAcquire)|].
  split; apply check_connection_object.
Qed.

Lemma run_transaction_raise q unit (c : client D) e c2 :
  run (attempts CONF_MODBUS_RETR (request_op q (slave_kwargs unit)) None)
      (connected_client c) = (Raise e, c2) ->
  run (perform q unit) c = (Raise e, log EvRelease c2).
Proof.
  intros Hrun. rewrite perform_transaction. unfold transaction.
  rewrite run_async_with_lock, run_bind.
  destruct (run_check_connection (log EvAcquire c)) as [b Hb].
  rewrite Hb. fold (connected_client c). rewrite run_bind, Hrun. reflexivity.
Qed.

(** C6.  Every register read or write goes through the same executor: it
    attempts the transport call at most [CONF_MODBUS_RETR] = 10 times,
    sleeps [CONF_MODBUS_RETR_WAIT] = 1 after each failed attempt (an
    attempt that returned an error response), and returns the last
    response.  If the first [k < 10] attempts fail and the next one
    succeeds, the caller gets that successful response after [k + 1]
    calls and [k] sleeps (with [k = 3]: attempts 1-3 fail, the data of
    attempt 4 is returned); if all 10 attempts fail, it gets the error
    response of the tenth, after 10 calls and 10 sleeps. *)
Theorem retry_discipline (q : request) (unit : Z) (c : client D) :
  let f := transport_call q (slave_kwargs unit) in
  let c1 := connected_client c in
  let e := request_event q in
  (forall k r,
     (k < CONF_MODBUS_RETR)%nat ->
     (forall i, (i < k)%nat -> failed (reply f i (_client c1)) = true) ->
     reply f k (_client c1) = Response r ->
     isError r = false ->
     run (perform q unit) c =
       (Ok r,
        mk_client (device_after f (S k) (_client c1)) (_address c) (_params c)
                  (trace c1 ++ retry_events e k ++ [e; EvRelease])))
  /\
  ((forall i, (i < CONF_MODBUS_RETR)%nat ->
      failed (reply f i (_client c1)) = true) ->
   exists r,
     reply f (CONF_MODBUS_RETR - 1) (_client c1) = Response r /\
     isError r = true /\
     run (perform q unit) c =
       (Ok r,
        mk_client (device_after f CONF_MODBUS_RETR (_client c1))
                  (_address c) (_params c)
                  (trace c1 ++ retry_events e CONF_MODBUS_RETR ++ [EvRelease]))).
Proof.
  intros f c1 e. destruct (connected_client_object c) as [Ha Hp].
  fold c1 in Ha, Hp. split.
  - intros k r Hk Hfail Hr Hok.
    rewrite (run_transaction_attempts q unit c r
               (mk_client (device_after f (S k) (_client c1)) (_address c1)
                  (_params c1) (trace c1 ++ retry_events e k ++ [e]))).
    + unfold log. cbn. rewrite Ha, Hp, <- !app_assoc. reflexivity.
    + apply (attempts_succeed q (slave_kwargs unit) CONF_MODBUS_RETR k None c1 r);
        assumption.
  - intros Hfail.
    destruct (failed_response _ (Hfail (CONF_MODBUS_RETR - 1)%nat
                                   ltac:(unfold CONF_MODBUS_RETR; lia)))
      as (r & Hr & Herr).
    exists r. split; [exact Hr|]. split; [exact Herr|].
    rewrite (run_transaction_attempts q unit c r
               (mk_client (device_after f CONF_MODBUS_RETR (_client c1))
                  (_address c1) (_params c1)
                  (trace c1 ++ retry_events e CONF_MODBUS_RETR))).
    + unfold log. cbn [_client _address _params trace].
      rewrite Ha, Hp, <- !app_assoc. reflexivity.
    + etransitivity;
        [apply (attempts_exhausted q (slave_kwargs unit) CONF_MODBUS_RETR None
                  c1 Hfail)|].
      change (match CONF_MODBUS_RETR with
              | O => None
              | S m =>
                  match reply (transport_call q (slave_kwargs unit)) m
                          (_client c1) with
                  | Response r0 => Some r0
                  | Raises => None
                  end
              end)
        with (match reply f (CONF_MODBUS_RETR - 1) (_client c1) with
              | Response r0 => Some r0
              | Raises => None
              end).
      rewrite Hr. reflexivity.
Qed.

Lemma connected_client_trace (c : client D) :
  trace (connected_client c) =
    trace c ++ (if connected (_client c)
                then [EvAcquire]
                else [EvAcquire; EvConnect]).
Proof.
  unfold connected_client, check_connection, async_connect. cbn [run].
  cbn [log _client]. destruct (connected (_client c)); cbn.
  - reflexivity.
  - destruct (connect (_client c)). cbn. rewrite <- app_assoc. reflexivity.
Qed.

(** *** Claims about the facade *)

(** C2.  When [set_temporary_temperature] gets as far as its write (the
    cache has the position, the one-register read succeeded and returned
    the byte [b0], the end time exists), the payload it hands to the
    executor has five bytes: the top two bits of [b0] ([b0 & 0xC0]) or-ed
    with the 5-bit target level, then the start stamp and the end stamp,
    two bytes each, most significant first, where the stamp of a time is
    [minute // 15 + hour * 4 + day * 128 + month * 4096]; 14:32 on day 10
    of month 3 gives 13626. *)
Theorem temporary_override_payload (c : client D) pos temperature duration
  now c0 p raw r1 c1 b0 rest end_time :
  run (ensure_params cp1250) c = (Ok tt, c0) ->
  params_getitem (_params c0) pos = Ok p ->
  target_raw_level temperature p = Ok raw ->
  run (async_read_holding_registers (_address c0)
         (0x1100 + (pos - 1) * 0x10 + 0x03) 1) c0 = (Ok r1, c1) ->
  isError r1 = false ->
  registers_bytes r1 = Ok (b0 :: rest) ->
  valid_datetime now ->
  datetime_add_minutes now (duration + 1) = Ok end_time ->
  let start :=
    minute now / 15 + hour now * 4 + day now * 128 + month now * 4096 in
  let end_ :=
    minute end_time / 15 + hour end_time * 4 + day end_time * 128
    + month end_time * 4096 in
  let payload :=
    [Z.lor (Z.land b0 0xC0) raw;
     start / 256; start mod 256; end_ / 256; end_ mod 256] in
  (0 <= raw < 32 /\ 0 <= start < 65536 /\ 0 <= end_ < 65536) /\
  run (set_temporary_temperature cp1250 pos temperature duration now) c =
    match
      run (async_write_register (_address c0)
             (0x1100 + (pos - 1) * 0x10 + 0x03) payload) c1
    with
    | (Ok r2, c2) => (Ok (negb (isError r2)), c2)
    | (Raise e, c2) => (Raise e, c2)
    end /\
  get_toy (mk_datetime (year now) 3 10 14 32) = 13626.
Proof.
  intros Hens Hp Hraw Hread Herr Hbytes Hnow Hend start end_ payload.
  pose proof (datetime_add_minutes_valid now (duration + 1) end_time Hnow Hend)
    as Hvalid.
  pose proof (get_toy_range now Hnow) as Hs.
  pose proof (get_toy_range end_time Hvalid) as He.
  rewrite get_toy_formula in Hs, He. fold start in Hs. fold end_ in He.
  split; [|split; [|reflexivity]].
  - split; [|split; assumption].
    apply (target_raw_level_range temperature p raw Hraw).
  - unfold payload, start, end_. rewrite <- !get_toy_formula.
    eapply set_temporary_temperature_run; eassumption.
Qed.

(** C5, as amended.  For a used zone, [get_required_temperatures] stores
    for the byte read from the [0x70] block the flag [byte >> 5], the top
    three bits, which is an integer from 0 to 7 (the docstring names the
    values 0 to 4), and the temperature [((byte & 0x1F) + shift) * step];
    byte [0x45] with shift 1 and step 2 gives flag 2 and temperature 12. *)
Theorem requirement_decoding (c : client D) r c1 data c2 ps pos p byte :
  cache_invariant c ->
  run (async_read_holding_registers (_address c) 0x70 16) c = (Ok r, c1) ->
  registers_bytes r = Ok data ->
  length data = 16%nat ->
  run (ensure_params cp1250) c1 = (Ok tt, c2) ->
  _params c2 = Some ps ->
  1 <= pos <= 16 ->
  ps !! pos = Some p ->
  used p = true ->
  nth_error data (Z.to_nat (pos - 1)) = Some byte ->
  (exists res,
     run (get_required_temperatures cp1250) c = (Ok (Some res), c2) /\
     res !! pos =
       Some (mk_requirement ((byte mod 32 + shift p) * step p) (byte / 32))) /\
  0 <= byte / 32 <= 7 /\
  decode_requirement 0x45 (mk_position true (name p) 1 2) = mk_requirement 12 2.
Proof.
  intros Hinv Hread Hbytes Hlen Hens Hps Hpos Hp Hu Hnth.
  assert (Hbyte : 0 <= byte < 256).
  { pose proof (registers_bytes_inv r data Hbytes) as [_ Hall].
    rewrite Forall_forall in Hall. apply Hall.
    apply list_elem_of_In. eapply nth_error_In, Hnth. }
  split; [|split; [|reflexivity]].
  - rewrite get_required_temperatures_polling.
    pose proof (polling_spec decode_requirement required_slot 0x70 c
                  ltac:(reflexivity) Hinv) as Hspec.
    cbv zeta in Hspec. rewrite Hread, Hbytes, Hens in Hspec.
    destruct Hspec as (ps' & Hps' & _ & Hspec).
    rewrite Hps in Hps'. inversion Hps'; subst ps'.
    rewrite Hlen in Hspec. cbn [Z.of_nat Pos.of_succ_nat Pos.succ Z.eqb Pos.eqb]
      in Hspec.
    destruct Hspec as (res & Hrun & Hres). exists res. split; [exact Hrun|].
    rewrite (Hres pos p byte Hpos Hp Hnth), Hu. unfold decode_requirement.
    rewrite land_1F, Z.shiftr_div_pow2 by lia. reflexivity.
  - split; [apply Z.div_pos; lia|].
    apply Z.lt_succ_r, Z.div_lt_upper_bound; lia.
Qed.

(** C8.  When [get_parameters] has returned, a second call returns the
    same dictionary and leaves the object, the device and the log exactly
    as they are: nothing is read again.  The cache is then populated, and
    a call that finds it populated does not touch the device either; the
    result is computed from the cached entries and holds exactly the
    positions whose entry has [used] set. *)
Theorem zone_listing_idempotent (c : client D) r c1 :
  run (get_parameters cp1250) c = (Ok r, c1) ->
  run (get_parameters cp1250) c1 = (Ok r, c1) /\
  (forall ps0, _params c = Some ps0 -> c1 = c) /\
  exists ps zones,
    _params c1 = Some ps /\ r = Some zones /\
    forall pos l,
      zones !! pos = Some l <->
      exists p, ps !! pos = Some p /\ used p = true /\ l = limits_of p.
Proof.
  intros Hrun.
  destruct (get_parameters_returns c r c1 Hrun) as (ps & Hps & -> & Hsame).
  split; [apply get_parameters_cached, Hps|]. split; [exact Hsame|].
  exists ps, (limits_of <$> filter (fun kv => used kv.2 = true) ps).
  split; [exact Hps|]. split; [reflexivity|]. apply listed_zone.
Qed.

(** C10.  When [__read_params] returns, [self._params] has an entry for
    exactly the positions 1 to 16, whichever reads failed.  With a cache
    that is empty or was filled this way, the lookups [self._params[pos]]
    of [get_current_temperatures], [get_required_temperatures] and, for
    [pos] from 1 to 16, [set_temporary_temperature] find their key: none
    of the three ends in [KeyError].  [get_parameters] never returns
    [None]. *)
Theorem cache_covers_all_slots :
  (forall (c c' : client D),
     run (read_params cp1250) c = (Ok tt, c') ->
     exists ps,
       _params c' = Some ps /\
       (forall pos, is_Some (ps !! pos) <-> 1 <= pos <= 16) /\
       (forall pos, 1 <= pos <= 16 ->
          exists p, params_getitem (_params c') pos = Ok p)) /\
  (forall c : client D,
     cache_invariant c ->
     fst (run (get_current_temperatures cp1250) c) <> Raise KeyError /\
     fst (run (get_required_temperatures cp1250) c) <> Raise KeyError /\
     forall pos temperature duration now,
       1 <= pos <= 16 ->
       fst (run (set_temporary_temperature cp1250 pos temperature duration now) c)
         <> Raise KeyError) /\
  (forall c : client D, fst (run (get_parameters cp1250) c) <> Ok None).
Proof.
  split; [|split].
  - intros c c' Hrun.
    destruct (read_params_spec c)
      as [(ps & c'' & Hrun' & Hps & _ & Hdom)|(e & c'' & Hrun' & _)];
      rewrite Hrun in Hrun'; inversion Hrun'; subst.
    exists ps. split; [exact Hps|]. split; [exact Hdom|].
    intros pos Hpos. rewrite Hps. cbn.
    destruct (proj2 (Hdom pos) Hpos) as [p ->]. eauto.
  - intros c Hinv. split; [|split].
    + rewrite get_current_temperatures_polling.
      pose proof (polling_spec decode_current_temp current_slot 0x60 c
                    ltac:(reflexivity) Hinv) as Hspec.
      cbv zeta in Hspec.
      destruct (run (async_read_holding_registers (_address c) 0x60 16) c)
        as [[r|e] c1].
      2:{ destruct Hspec as [-> ->]. discriminate. }
      destruct (registers_bytes r) as [data|e].
      * destruct (run (ensure_params cp1250) c1) as [[[]|e] c2].
        -- destruct Hspec as (ps & _ & _ & Hspec).
           destruct (_ =? 16); [destruct Hspec as (res & -> & _)|rewrite Hspec];
             discriminate.
        -- destruct Hspec as [-> He]. cbn. intros Heq. inversion Heq; subst.
           apply (population_error_not_key KeyError He). reflexivity.
      * destruct Hspec as [-> [->| ->]]; discriminate.
    + rewrite get_required_temperatures_polling.
      pose proof (polling_spec decode_requirement required_slot 0x70 c
                    ltac:(reflexivity) Hinv) as Hspec.
      cbv zeta in Hspec.
      destruct (run (async_read_holding_registers (_address c) 0x70 16) c)
        as [[r|e] c1].
      2:{ destruct Hspec as [-> ->]. discriminate. }
      destruct (registers_bytes r) as [data|e].
      * destruct (run (ensure_params cp1250) c1) as [[[]|e] c2].
        -- destruct Hspec as (ps & _ & _ & Hspec).
           destruct (_ =? 16); [destruct Hspec as (res & -> & _)|rewrite Hspec];
             discriminate.
        -- destruct Hspec as [-> He]. cbn. intros Heq. inversion Heq; subst.
           apply (population_error_not_key KeyError He). reflexivity.
      * destruct Hspec as [-> [->| ->]]; discriminate.
    + intros pos temperature duration now Hpos.
      apply set_temporary_temperature_no_key; assumption.
  - intros c Heq.
    destruct (run (get_parameters cp1250) c) as [r c1] eqn:Hrun. cbn in Heq.
    subst r. destruct (get_parameters_returns c None c1 Hrun) as (ps & _ & Hr & _).
    discriminate.
Qed.

(** *** Per-slot failures during population *)

(** A configuration read that ends in an error records the placeholder
    entry for the slot and the loop goes on with the next slot. *)
Lemma config_timeout_recorded pos res (c : client D) r c1 :
  run (async_read_holding_registers (_address c)
         (0x1100 + (pos - 1) * 0x10) 4) c = (Ok r, c1) ->
  isError r = true ->
  run (read_params_slot cp1250 pos res) c =
    (Ok (<[pos := timeout_position]> res), c1).
Proof.
  intros Hread Herr. unfold read_params_slot. cbn [run].
  rewrite run_bind, Hread, Herr. reflexivity.
Qed.

Lemma config_timeout_continues pos l res (c : client D) r c1 :
  run (async_read_holding_registers (_address c)
         (0x1100 + (pos - 1) * 0x10) 4) c = (Ok r, c1) ->
  isError r = true ->
  run (for_each (pos :: l) (read_params_slot cp1250) res) c =
    run (for_each l (read_params_slot cp1250) (<[pos := timeout_position]> res))
        c1.
Proof.
  intros Hread Herr. cbn [for_each].
  rewrite run_bind, (config_timeout_recorded pos res c r c1 Hread Herr).
  reflexivity.
Qed.

(** For a used slot, line 158 tests [param_response], which is not an
    error at that point, and so line 161 reads [name_response.registers]
    whether or not [name_response] is an error: what the slot ends in is
    what [bytes(name_response.registers)] and the decoding end in. *)
Lemma name_read_unchecked pos res (c : client D) r c1 params sh st r2 c2 :
  run (async_read_holding_registers (_address c)
         (0x1100 + (pos - 1) * 0x10) 4) c = (Ok r, c1) ->
  isError r = false ->
  registers_bytes r = Ok params ->
  decode_zone_params params = Ok (true, sh, st) ->
  run (async_read_holding_registers (_address c1)
         (0x1030 + (pos - 1) * 8) 8) c1 = (Ok r2, c2) ->
  run (read_params_slot cp1250 pos res) c =
    match registers_bytes r2 with
    | Raise e => (Raise e, c2)
    | Ok nm =>
        match
          decode cp1250
            (if negb (find nm 0 =? -1) then slice nm 0 (find nm 0) else nm)
        with
        | Raise e => (Raise e, c2)
        | Ok s => (Ok (<[pos := mk_position true s sh st]> res), c2)
        end
    end.
Proof.
  intros Hread Herr Hbytes Hdec Hread2.
  unfold read_params_slot. cbn [run]. rewrite run_bind, Hread, Herr.
  rewrite run_bind. cbn [run lift]. rewrite Hbytes.
  rewrite run_bind. cbn [run lift]. rewrite Hdec.
  rewrite run_bind, run_bind. cbn [run].
  rewrite Hread2. rewrite run_bind. cbn [run lift].
  destruct (registers_bytes r2) as [nm|e]; [|reflexivity].
  cbn [run lift].
  match goal with
  | |- context [decode ?t ?n] => destruct (decode t n) as [s|e]
  end; reflexivity.
Qed.

(** A slot that raises ends the whole pass, and the cache is not
    assigned. *)
Lemma slot_raise_aborts pos l res (c : client D) e c1 :
  run (read_params_slot cp1250 pos res) c = (Raise e, c1) ->
  run (for_each (pos :: l) (read_params_slot cp1250) res) c = (Raise e, c1).
Proof.
  intros Hslot. cbn [for_each]. rewrite run_bind, Hslot. reflexivity.
Qed.

End Sequential.

(** ** Claims about the codec *)

Lemma split_byte hi raw :
  0 <= hi < 4 -> 0 <= raw < 64 ->
  0 <= 64 * hi + raw < 256 /\
  (64 * hi + raw) mod 64 = raw /\ (64 * hi + raw) / 64 = hi.
Proof.
  intros Hhi Hraw. split; [lia|]. split.
  - symmetry. apply (Z.mod_unique _ 64 hi raw); lia.
  - symmetry. apply (Z.div_unique _ 64 hi raw); lia.
Qed.

(** C1.  A four-byte configuration block decodes to [used] = the low three
    bits of byte 0 are not all zero, [shift] = the low six bits of byte 2
    with the sign correction [raw - 64 * (raw // 32)] (a raw value below 32
    is kept, one from 32 on has 64 subtracted: 0 gives 0, 32 gives -32, 63
    gives -1), and [step] = the high two bits of byte 2 plus 1.  The block
    [01 00 41 00] decodes to used, shift 1, step 2, which
    [get_parameters] publishes as min 4 and max 62. *)
Theorem zone_params_decoding :
  (forall b0 b1 b2 b3,
     is_byte b0 = true -> is_byte b1 = true ->
     is_byte b2 = true -> is_byte b3 = true ->
     decode_zone_params [b0; b1; b2; b3] =
       Ok (negb (b0 mod 8 =? 0),
           b2 mod 64 - 64 * (b2 mod 64 / 32),
           b2 / 64 + 1)) /\
  (forall b0 b1 b3 hi raw,
     0 <= hi < 4 -> 0 <= raw < 64 ->
     decode_zone_params [b0; b1; 64 * hi + raw; b3] =
       Ok (negb (b0 mod 8 =? 0),
           (if raw <? 32 then raw else raw - 64),
           hi + 1)) /\
  (decode_zone_params [0x01; 0x00; 0; 0x00] = Ok (true, 0, 1) /\
   decode_zone_params [0x01; 0x00; 32; 0x00] = Ok (true, -32, 1) /\
   decode_zone_params [0x01; 0x00; 63; 0x00] = Ok (true, -1, 1)) /\
  decode_zone_params [0x01; 0x00; 0x41; 0x00] = Ok (true, 1, 2) /\
  (forall nm, limits_of (mk_position true nm 1 2) = mk_limits nm 4 62) /\
  fst (run (get_parameters ascii_table) (fresh_client zone3_memory)) =
    Ok (Some {[ 3 := mk_limits [] 4 62 ]}).
Proof.
  split; [|split; [|split; [|split; [|split]]]].
  - intros b0 b1 b2 b3 _ _ Hb2 _. apply decode_zone_params_formula.
    apply is_byte_range, Hb2.
  - intros b0 b1 b3 hi raw Hhi Hraw.
    destruct (split_byte hi raw Hhi Hraw) as (Hb & Hmod & Hdiv).
    rewrite decode_zone_params_formula by exact Hb.
    rewrite Hmod, Hdiv, sign_correction by exact Hraw. reflexivity.
  - repeat split; reflexivity.
  - reflexivity.
  - reflexivity.
  - vm_compute. reflexivity.
Qed.

(** C3.  For a zone with [step >= 1] and a temperature [t] between the
    zone's [min] and [max] that is [(b + shift) * step] for a 5-bit [b],
    the level [set_temporary_temperature] computes,
    [(floor(t) // step - shift) & 0x1F], decodes back to [t] under
    [(raw + shift) * step].  The mask wraps instead of clamping or
    rejecting: for any integer [k] the temperature [(k + shift) * step]
    gets the level [k mod 32] (so one step beyond level 31 gets level 0),
    and every temperature gets some level from 0 to 31. *)
Theorem target_level_left_inverse (p : position) :
  1 <= step p ->
  (forall t b,
     lim_min (limits_of p) <= t <= lim_max (limits_of p) ->
     0 <= b < 32 ->
     t = (b + shift p) * step p ->
     exists raw,
       target_raw_level (inject_Z t) p = Ok raw /\
       0 <= raw < 32 /\
       decode_current_temp raw p = t) /\
  (forall k,
     exists raw,
       target_raw_level (inject_Z ((k + shift p) * step p)) p = Ok raw /\
       raw = k mod 32 /\
       decode_current_temp raw p = (k mod 32 + shift p) * step p) /\
  (exists raw,
     target_raw_level (inject_Z ((32 + shift p) * step p)) p = Ok raw /\
     decode_current_temp raw p = shift p * step p) /\
  (forall temperature : Q,
     exists raw, target_raw_level temperature p = Ok raw /\ 0 <= raw < 32).
Proof.
  intros Hstep. split; [|split; [|split]].
  - intros t b _ Hb ->. exists b.
    rewrite target_raw_level_multiple, Z.mod_small by lia.
    repeat split; try lia.
  - intros k. exists (k mod 32).
    rewrite target_raw_level_multiple by lia. repeat split.
  - exists 0. rewrite target_raw_level_multiple by lia. split; [reflexivity|].
    unfold decode_current_temp. lia.
  - intros temperature. eexists. split.
    + apply target_raw_level_value. lia.
    + apply Z.mod_pos_bound. lia.
Qed.

(** C4.  For a six-byte mode block, the payload [set_mode] builds for
    [auto = True] is byte 0 with bit [0x20] (bit 5) cleared and every
    other bit as it was, followed by [10 80 10 80] whatever the block
    held; for [auto = False] it is byte 0 with bit [0x20] set and every
    other bit as it was, followed by bytes 1 to 4 unchanged. *)
Theorem mode_toggle_bytes b0 b1 b2 b3 b4 b5 :
  Forall (fun b => 0 <= b < 256) [b0; b1; b2; b3; b4; b5] ->
  (exists first,
     mode_payload [b0; b1; b2; b3; b4; b5] true =
       Ok [first; 0x10; 0x80; 0x10; 0x80] /\
     forall i, Z.testbit first i = if i =? 5 then false else Z.testbit b0 i) /\
  (exists first,
     mode_payload [b0; b1; b2; b3; b4; b5] false =
       Ok [first; b1; b2; b3; b4] /\
     forall i, Z.testbit first i = if i =? 5 then true else Z.testbit b0 i).
Proof.
  intros Hall. pose proof (Forall_inv Hall) as Hb0. cbn beta in Hb0. split.
  - exists (Z.land b0 0xDF). split; [apply mode_payload_auto, Hb0|].
    intros i. apply clear_mode_bit, Hb0.
  - exists (Z.lor b0 0x20). split; [apply mode_payload_manual, Hb0|].
    intros i. apply set_mode_bit.
Qed.

Lemma zone_params_decoding_witness :
  (is_byte 0x01 = true /\ is_byte 0x00 = true /\
   is_byte 0x41 = true /\ is_byte 0x00 = true) /\
  decode_zone_params [0x01; 0x00; 0x41; 0x00] = Ok (true, 1, 2).
Proof.
  split; [repeat split; reflexivity|].
  exact (proj1 zone_params_decoding 0x01 0x00 0x41 0x00
           eq_refl eq_refl eq_refl eq_refl).
Defined.

Lemma target_level_left_inverse_witness :
  let p := mk_position true [] 1 2 in
  1 <= step p /\
  (lim_min (limits_of p) <= 42 <= lim_max (limits_of p) /\
   0 <= 20 < 32 /\ 42 = (20 + shift p) * step p) /\
  exists raw,
    target_raw_level (inject_Z 42) p = Ok raw /\
    0 <= raw < 32 /\ decode_current_temp raw p = 42.
Proof.
  intros p.
  assert (Hstep : 1 <= step p) by (cbn; lia).
  assert (Hrange : lim_min (limits_of p) <= 42 <= lim_max (limits_of p))
    by (cbn; lia).
  assert (Hb : 0 <= 20 < 32) by lia.
  assert (Ht : 42 = (20 + shift p) * step p) by reflexivity.
  split; [exact Hstep|]. split; [auto|].
  exact (proj1 (target_level_left_inverse p Hstep) 42 20 Hrange Hb Ht).
Defined.

Lemma mode_toggle_bytes_witness :
  Forall (fun b => 0 <= b < 256) [0x65; 1; 2; 3; 4; 5] /\
  (exists first,
     mode_payload [0x65; 1; 2; 3; 4; 5] true =
       Ok [first; 0x10; 0x80; 0x10; 0x80] /\
     forall i, Z.testbit first i = if i =? 5 then false else Z.testbit 0x65 i).
Proof.
  assert (Hall : Forall (fun b => 0 <= b < 256) [0x65; 1; 2; 3; 4; 5])
    by (repeat constructor; lia).
  split; [exact Hall|].
  exact (proj1 (mode_toggle_bytes 0x65 1 2 3 4 5 Hall)).
Defined.

(** ** The claims on concrete devices *)

(** C5 as stated fails: zone 3 is used, the byte read for it from the
    [0x70] block is [E5], and the flag stored for it is 7, which is none
    of 0, 1, 2, 3, 4. *)
Lemma requirement_flag_outside_enumeration :
  exists res r,
    fst (run (get_required_temperatures ascii_table)
             (fresh_client stray_flag_memory)) = Ok (Some res) /\
    res !! 3 = Some r /\
    flag r = 7 /\
    ~ In (flag r) [0; 1; 2; 3; 4].
Proof.
  exists {[ 3 := mk_requirement 12 7 ]}, (mk_requirement 12 7).
  split; [vm_compute; reflexivity|]. split; [reflexivity|].
  split; [reflexivity|]. cbn. intros [H|[H|[H|[H|[H|[]]]]]]; discriminate.
Qed.

Lemma requirement_decoding_witness :
  exists res,
    fst (run (get_required_temperatures ascii_table)
             (fresh_client requirement_memory)) = Ok (Some res) /\
    res !! 3 = Some (mk_requirement 12 2).
Proof.
  pose (c := fresh_client requirement_memory).
  pose (rc := run (async_read_holding_registers (_address c) 0x70 16) c).
  pose (data := [0; 0; 0x45; 0; 0; 0; 0; 0; 0; 0; 0; 0; 0; 0; 0; 0]).
  pose (r := mk_response false (Some data)).
  pose (c2 := snd (run (ensure_params ascii_table) (snd rc))).
  pose (p := mk_position true [] 1 2).
  assert (Hinv : cache_invariant c) by exact I.
  assert (Hread : run (async_read_holding_registers (_address c) 0x70 16) c
                  = (Ok r, snd rc)) by (vm_compute; reflexivity).
  assert (Hbytes : registers_bytes r = Ok data) by reflexivity.
  assert (Hlen : length data = 16%nat) by reflexivity.
  assert (Hens : run (ensure_params ascii_table) (snd rc) = (Ok tt, c2))
    by (vm_compute; reflexivity).
  pose (ps := default ∅ (_params c2)).
  assert (Hc2 : _params c2 = Some ps) by (vm_compute; reflexivity).
  assert (Hp : ps !! 3 = Some p) by (vm_compute; reflexivity).
  destruct (requirement_decoding ascii_table c r (snd rc) data c2 ps
              3 p 0x45 Hinv Hread Hbytes Hlen Hens Hc2 ltac:(lia) Hp
              eq_refl eq_refl) as [(res & Hrun & Hres) _].
  exists res. fold c. rewrite Hrun. split; [reflexivity | exact Hres].
Defined.

Lemma temporary_override_payload_witness :
  exists r2 c1 c2,
    run (set_temporary_temperature ascii_table 3 (22 # 1) 120
           (mk_datetime 2024 3 10 14 32)) (fresh_client override_memory) =
      (Ok (negb (isError r2)), c2) /\
    run (async_write_register 1 0x1123 [0xCA; 53; 58; 53; 66]) c1 =
      (Ok r2, c2).
Proof.
  pose (c := fresh_client override_memory).
  pose (now := mk_datetime 2024 3 10 14 32).
  pose (end_time := mk_datetime 2024 3 10 16 33).
  pose (c0 := snd (run (ensure_params ascii_table) c)).
  pose (p := mk_position true [] 1 2).
  pose (rc := run (async_read_holding_registers (_address c0)
                     (0x1100 + (3 - 1) * 0x10 + 0x03) 1) c0).
  pose (r1 := mk_response false (Some [0xC5])).
  assert (Hens : run (ensure_params ascii_table) c = (Ok tt, c0))
    by (vm_compute; reflexivity).
  assert (Hp : params_getitem (_params c0) 3 = Ok p) by (vm_compute; reflexivity).
  assert (Hraw : target_raw_level (22 # 1) p = Ok 10) by reflexivity.
  assert (Hread : run (async_read_holding_registers (_address c0)
                         (0x1100 + (3 - 1) * 0x10 + 0x03) 1) c0
                  = (Ok r1, snd rc)) by (vm_compute; reflexivity).
  assert (Herr : isError r1 = false) by reflexivity.
  assert (Hbytes : registers_bytes r1 = Ok [0xC5]) by reflexivity.
  assert (Hnow : valid_datetime now) by (unfold valid_datetime; cbn; lia).
  assert (Hend : datetime_add_minutes now (120 + 1) = Ok end_time)
    by (vm_compute; reflexivity).
  destruct (temporary_override_payload ascii_table c 3 (22 # 1) 120 now c0 p 10
              r1 (snd rc) 0xC5 [] end_time Hens Hp Hraw Hread Herr Hbytes Hnow
              Hend) as (_ & Hrun & _).
  destruct (run (async_write_register (_address c0)
                   (0x1100 + (3 - 1) * 0x10 + 0x03)
                   [Z.lor (Z.land 0xC5 0xC0) 10;
                    (minute now / 15 + hour now * 4 + day now * 128
                     + month now * 4096) / 256;
                    (minute now / 15 + hour now * 4 + day now * 128
                     + month now * 4096) mod 256;
                    (minute end_time / 15 + hour end_time * 4
                     + day end_time * 128 + month end_time * 4096) / 256;
                    (minute end_time / 15 + hour end_time * 4
                     + day end_time * 128 + month end_time * 4096) mod 256])
                (snd rc)) as [[r2|e] c2] eqn:Hwrite.
  - exists r2, (snd rc), c2. split; [exact Hrun | exact Hwrite].
  - exfalso. revert Hwrite. vm_compute. discriminate.
Defined.

Lemma retry_discipline_witness :
  run (perform (Read 0x60 16) 1) (fresh_client flaky_script) =
    (Ok (mk_response false
           (Some [20; 0; 0; 0; 0; 0; 0; 0; 0; 0; 0; 0; 0; 0; 0; 0])),
     mk_client [] 1 None
       [EvAcquire;
        EvRead 0x60 16; EvSleep 1; EvRead 0x60 16; EvSleep 1;
        EvRead 0x60 16; EvSleep 1; EvRead 0x60 16; EvRelease]) /\
  run (perform (Write 0x1103 [1; 2; 3; 4; 5]) 1)
      (fresh_client (@nil response)) =
    (Ok error_response,
     mk_client [] 1 None
       (EvAcquire
        :: retry_events (EvWrite 0x1103 [1; 2; 3; 4; 5]) 10 ++ [EvRelease])).
Proof.
  split.
  - refine (proj1 (retry_discipline (Read 0x60 16) 1 (fresh_client flaky_script))
              3%nat _ _ _ _ _).
    + unfold CONF_MODBUS_RETR. lia.
    + intros i Hi. destruct i as [|[|[|i]]]; [reflexivity.. | lia].
    + reflexivity.
    + reflexivity.
  - assert (Hfail : forall i, (i < CONF_MODBUS_RETR)%nat ->
              failed (reply (transport_call (Write 0x1103 [1; 2; 3; 4; 5])
                               (slave_kwargs 1)) i
                        (_client (connected_client
                                    (fresh_client (@nil response))))) = true).
    { intros i Hi. unfold CONF_MODBUS_RETR in Hi.
      do 10 (destruct i as [|i]; [reflexivity|]). lia. }
    destruct (proj2 (retry_discipline (Write 0x1103 [1; 2; 3; 4; 5]) 1
                       (fresh_client (@nil response))) Hfail)
      as (r & Hr & _ & Hrun).
    assert (Er : r = error_response) by (cbv in Hr; inversion Hr; reflexivity).
    rewrite <- Er. exact Hrun.
Defined.

Lemma zone_listing_idempotent_witness :
  exists zones c1,
    run (get_parameters ascii_table) (fresh_client zone3_memory) =
      (Ok (Some zones), c1) /\
    run (get_parameters ascii_table) c1 = (Ok (Some zones), c1) /\
    zones !! 3 = Some (mk_limits [] 4 62).
Proof.
  pose (c := fresh_client zone3_memory).
  pose (zones := ({[ 3 := mk_limits [] 4 62 ]} : gmap Z limits)).
  pose (c1 := snd (run (get_parameters ascii_table) c)).
  assert (Hrun : run (get_parameters ascii_table) c = (Ok (Some zones), c1))
    by (vm_compute; reflexivity).
  exists zones, c1. split; [exact Hrun|]. split; [|reflexivity].
  exact (proj1 (zone_listing_idempotent ascii_table c (Some zones) c1 Hrun)).
Defined.

Lemma cache_covers_all_slots_witness :
  exists ps,
    _params (snd (run (read_params ascii_table) (fresh_client (@nil response))))
      = Some ps /\
    (forall pos, is_Some (ps !! pos) <-> 1 <= pos <= 16) /\
    ps !! 16 = Some timeout_position.
Proof.
  pose (c := fresh_client (@nil response)).
  pose (c' := snd (run (read_params ascii_table) c)).
  assert (Hrun : run (read_params ascii_table) c = (Ok tt, c'))
    by (vm_compute; reflexivity).
  destruct (proj1 (cache_covers_all_slots ascii_table) c c' Hrun)
    as (ps & Hps & Hdom & _).
  exists ps. split; [exact Hps|]. split; [exact Hdom|].
  assert (Hv : _params c' ≫= (fun m => m !! 16) = Some timeout_position)
    by (vm_compute; reflexivity).
  rewrite Hps in Hv. exact Hv.
Defined.

(** C7.  The first half holds: a configuration read that ends in an
    error response records [used = False], name ["<timeout>"], shift 5,
    step 1 for the slot, and the pass goes on.  The second half fails.
    Slot 1 is used and the read of its name ends in an error response;
    line 158 tests [param_response] where [name_response] is meant, so
    line 161 reads [name_response.registers], which an error response
    does not have: [AttributeError] ends the pass after the ten attempts
    of that read, no other slot is read and [self._params] stays [None];
    [get_parameters] raises with it.  Only when the error response
    carries an empty register list does the slot get the empty name. *)
Theorem name_read_error_aborts_population :
  (exists c',
     run (read_params ascii_table) (fresh_client name_error_device) =
       (Raise AttributeError, c') /\
     _params c' = None /\
     trace c' =
       [EvAcquire; EvRead 0x1100 4; EvRelease; EvAcquire]
       ++ retry_events (EvRead 0x1030 8) CONF_MODBUS_RETR ++ [EvRelease]) /\
  fst (run (get_parameters ascii_table) (fresh_client name_error_device)) =
    Raise AttributeError /\
  (exists ps c',
     run (read_params ascii_table) (fresh_client empty_error_device) =
       (Ok tt, c') /\
     _params c' = Some ps /\
     ps !! 1 = Some (mk_position true [] 0 1) /\
     (forall pos, 2 <= pos <= 16 -> ps !! pos = Some timeout_position)) /\
  timeout_position = mk_position false (str_lit "<timeout>") 5 1.
Proof.
  split; [|split; [|split; [|reflexivity]]].
  - eexists. split; [vm_compute; reflexivity|]. split; reflexivity.
  - vm_compute. reflexivity.
  - pose (c' := snd (run (read_params ascii_table)
                          (fresh_client empty_error_device))).
    pose (ps := default ∅ (_params c')).
    assert (Hrun : fst (run (read_params ascii_table)
                              (fresh_client empty_error_device)) = Ok tt)
      by (vm_compute; reflexivity).
    assert (Hps : _params c' = Some ps) by (vm_compute; reflexivity).
    exists ps, c'. split.
    { unfold c'. rewrite <- Hrun. apply surjective_pairing. }
    split; [exact Hps|]. split; [vm_compute; reflexivity|].
    intros pos Hpos.
    assert (Hcases : pos = 2 \/ pos = 3 \/ pos = 4 \/ pos = 5 \/ pos = 6 \/
                     pos = 7 \/ pos = 8 \/ pos = 9 \/ pos = 10 \/ pos = 11 \/
                     pos = 12 \/ pos = 13 \/ pos = 14 \/ pos = 15 \/ pos = 16)
      by lia.
    repeat (destruct Hcases as [->|Hcases]; [vm_compute; reflexivity|]).
    subst pos. vm_compute. reflexivity.
Qed.

(** ** Several tasks: the lock *)

(** *** Every method takes the lock around every transport call *)

Create HintDb gate discriminated.

Lemma gated_ret {A} h (a : A) : gated h h (ret a).
Proof. apply gated_Ret. Qed.

Lemma gated_lift {A} h (r : result A) : gated h h (lift r).
Proof. apply gated_Ret. Qed.

Lemma gated_bind {A B} h h' (m : prog A) (f : A -> prog B) :
  gated h h' m -> (forall a, gated h' h' (f a)) -> gated h h' (bind m f).
Proof.
  intros Hm Hf. induction Hm; cbn [bind]; try (constructor; auto; fail).
  destruct r; [apply Hf | apply gated_Ret].
Qed.

Lemma gated_releasing {A} h (m : prog A) :
  gated h true m -> gated h false (releasing m).
Proof.
  intros Hm. remember true as h' eqn:Hh'.
  induction Hm; subst; cbn [releasing]; try (constructor; auto; fail).
  apply gated_Release, gated_Ret.
Qed.

Lemma gated_check_connection : gated true true check_connection.
Proof.
  unfold check_connection, async_connect. apply gated_IsConnected.
  intros []; cbn [negb].
  - apply gated_IsConnected. intros b. apply gated_ret.
  - apply gated_Connect. intros b. apply gated_ret.
Qed.

Lemma gated_request_op q kw : gated true true (request_op q kw).
Proof.
  destruct q; cbn [request_op]; constructor; intros r; apply gated_lift.
Qed.

Lemma gated_attempts n (op : prog response) : forall regs_l,
  gated true true op -> gated true true (attempts n op regs_l).
Proof.
  induction n as [|n IH]; intros regs_l Hop; cbn [attempts].
  - apply gated_ret.
  - apply gated_bind; [exact Hop|]. intros r. destruct (isError r).
    + apply gated_Sleep, IH, Hop.
    + apply gated_ret.
Qed.

Lemma gated_transaction (op : prog response) :
  gated true true op -> gated false false (transaction op).
Proof.
  intros Hop. unfold transaction, async_with_lock.
  apply gated_Acquire, gated_releasing.
  apply gated_bind; [apply gated_check_connection|]. intros _.
  apply gated_bind; [apply gated_attempts, Hop|].
  intros [r|]; [apply gated_ret | apply gated_Ret].
Qed.

Lemma gated_read unit address count :
  gated false false (async_read_holding_registers unit address count).
Proof.
  unfold async_read_holding_registers. apply gated_transaction.
  apply gated_ReadRegs. intros r. apply gated_lift.
Qed.

Lemma gated_write unit address payload :
  gated false false (async_write_register unit address payload).
Proof.
  unfold async_write_register. apply gated_transaction.
  apply gated_WriteRegs. intros r. apply gated_lift.
Qed.

Lemma gated_for_each {A S} (body : A -> S -> prog S) l : forall s,
  (forall x s', gated false false (body x s')) ->
  gated false false (for_each l body s).
Proof.
  induction l as [|x l IH]; intros s Hbody; cbn [for_each].
  - apply gated_ret.
  - apply gated_bind; [apply Hbody|]. intros s'. apply IH, Hbody.
Qed.

Lemma gated_if {A} h h' (b : bool) (m1 m2 : prog A) :
  gated h h' m1 -> gated h h' m2 -> gated h h' (if b then m1 else m2).
Proof. destruct b; auto. Qed.

#[local] Hint Resolve gated_ret gated_lift gated_read gated_write gated_if
  : gate.
#[local] Hint Constructors gated : gate.

Ltac gate_step :=
  match goal with
  | |- gated _ _ (ret _) => apply gated_ret
  | |- gated _ _ (lift _) => apply gated_lift
  | |- gated _ _ (Ret _) => apply gated_Ret
  | |- gated _ _ (async_read_holding_registers _ _ _) => apply gated_read
  | |- gated _ _ (async_write_register _ _ _) => apply gated_write
  | |- gated _ _ (GetAddress _) => apply gated_GetAddress; intros ?
  | |- gated _ _ (GetParams _) => apply gated_GetParams; intros ?
  | |- gated _ _ (SetParams _ _) => apply gated_SetParams
  | |- gated _ _ (bind _ _) => apply gated_bind; [|intros ?]
  | |- gated _ _ (if _ then _ else _) => apply gated_if
  | |- gated _ _ (match ?x with _ => _ end) => destruct x
  end.

Section GateOfMethods.

Variable cp1250 : Z -> option Z.

Lemma gated_read_params_slot pos res :
  gated false false (read_params_slot cp1250 pos res).
Proof. unfold read_params_slot. repeat gate_step. Qed.

Lemma gated_read_params : gated false false (read_params cp1250).
Proof.
  unfold read_params. apply gated_bind.
  - apply gated_for_each. intros. apply gated_read_params_slot.
  - intros res. repeat gate_step.
Qed.

Lemma gated_ensure_params : gated false false (ensure_params cp1250).
Proof.
  unfold ensure_params. apply gated_GetParams. intros [ps|].
  - apply gated_ret.
  - apply gated_read_params.
Qed.

Lemma gated_get_parameters : gated false false (get_parameters cp1250).
Proof.
  unfold get_parameters. apply gated_bind; [apply gated_ensure_params|].
  intros _. repeat gate_step.
Qed.

Lemma gated_set_mode pos auto : gated false false (set_mode pos auto).
Proof. unfold set_mode. repeat gate_step. Qed.

Lemma gated_set_temporary_temperature pos temperature duration now :
  gated false false
    (set_temporary_temperature cp1250 pos temperature duration now).
Proof.
  unfold set_temporary_temperature.
  apply gated_bind; [apply gated_ensure_params|]. intros _.
  repeat gate_step.
Qed.

Lemma gated_current_slot data ps pos res :
  gated false false (current_slot data ps pos res).
Proof. unfold current_slot. repeat gate_step. Qed.

Lemma gated_required_slot data ps pos res :
  gated false false (required_slot data ps pos res).
Proof. unfold required_slot. repeat gate_step. Qed.

Lemma gated_get_current_temperatures :
  gated false false (get_current_temperatures cp1250).
Proof.
  unfold get_current_temperatures. apply gated_GetAddress. intros address.
  apply gated_bind; [apply gated_read|]. intros response.
  apply gated_bind; [apply gated_lift|]. intros data.
  apply gated_bind; [apply gated_ensure_params|]. intros _.
  apply gated_GetParams. intros ps. apply gated_if; [apply gated_ret|].
  apply gated_bind; [|intros; apply gated_ret].
  apply gated_for_each. intros. apply gated_current_slot.
Qed.

Lemma gated_get_required_temperatures :
  gated false false (get_required_temperatures cp1250).
Proof.
  unfold get_required_temperatures. apply gated_GetAddress. intros address.
  apply gated_bind; [apply gated_read|]. intros response.
  apply gated_bind; [apply gated_lift|]. intros data.
  apply gated_bind; [apply gated_ensure_params|]. intros _.
  apply gated_GetParams. intros ps. apply gated_if; [apply gated_ret|].
  apply gated_bind; [|intros; apply gated_ret].
  apply gated_for_each. intros. apply gated_required_slot.
Qed.

Lemma gated_facade_call (p : prog unit) :
  facade_call cp1250 p -> gated false false p.
Proof.
  intros Hcall. destruct Hcall; unfold discard;
    (apply gated_bind; [|intros; apply gated_ret]).
  - apply gated_get_parameters.
  - apply gated_set_mode.
  - apply gated_set_temporary_temperature.
  - apply gated_get_current_temperatures.
  - apply gated_get_required_temperatures.
Qed.

End GateOfMethods.

(** *** The lock serializes the transport calls *)

Section GateInvariant.

Context {D : Type} `{Transport D}.

Lemma call_needs_lock {A} h h' (m : prog A) : gated h h' m -> is_call m -> h = true.
Proof. intros Hm Hc. destruct Hm; cbn in Hc; try contradiction; reflexivity. Qed.

Lemma holds_true (s : system D) i : holds s i = true <-> _lock s = Some i.
Proof. unfold holds. apply bool_decide_eq_true. Qed.

Lemma awaiting_holds (s : system D) i t :
  gate_invariant s -> tasks s !! i = Some t -> awaiting t = true ->
  _lock s = Some i.
Proof.
  intros [Hfit _] Ht Ha. destruct (Hfit i t Ht) as [Hg Hc].
  apply holds_true. eapply call_needs_lock; eauto.
Qed.

Lemma pending_after_snoc p h x :
  pending_after p (h ++ [x]) =
    match pending_after p h with
    | Some p' => pending_after p' [x]
    | None => None
    end.
Proof.
  revert p. induction h as [|[i []] h IH]; intros p; cbn.
  - reflexivity.
  - destruct p; [reflexivity | apply IH].
  - destruct p as [j|]; [|reflexivity]. destruct (Nat.eqb i j); [apply IH | reflexivity].
Qed.

(** A step of task [i] that is not a transport call: its program becomes
    [k], the lock becomes [l], the object becomes [c]. *)
Lemma plain_step_invariant (s : system D) i t k l (c : client D) :
  gate_invariant s ->
  tasks s !! i = Some t ->
  awaiting t = false ->
  gated (bool_decide (l = Some i)) false k ->
  (forall j, j <> i -> bool_decide (l = Some j) = holds s j) ->
  gate_invariant
    (mk_system c l (<[i := mk_task k false]> (tasks s)) (history s)).
Proof.
  intros [Hfit (o & Hhist & Ho)] Ht Ha Hk Hl.
  pose proof (lookup_lt_Some _ _ _ Ht) as Hlen. split.
  - intros j t' Hj. unfold holds. cbn [_lock tasks] in *.
    destruct (decide (i = j)) as [<-|Hne].
    + rewrite list_lookup_insert_eq in Hj by exact Hlen.
      inversion Hj; subst t'. cbn. split; [exact Hk | discriminate].
    + rewrite list_lookup_insert_ne in Hj by exact Hne.
      rewrite Hl by congruence. apply Hfit, Hj.
  - exists o. split; [exact Hhist|]. intros j. rewrite (Ho j). cbn [tasks].
    destruct (decide (i = j)) as [<-|Hne].
    + rewrite list_lookup_insert_eq by exact Hlen. split.
      * intros (t' & Ht' & Ha'). congruence.
      * intros (t' & Ht' & Ha'). inversion Ht'; subst t'. discriminate.
    + rewrite list_lookup_insert_ne by exact Hne. reflexivity.
Qed.

Lemma issue_invariant (s : system D) i t :
  gate_invariant s ->
  tasks s !! i = Some t ->
  awaiting t = false ->
  is_call (code t) ->
  gate_invariant (issue i t s).
Proof.
  intros Hinv Ht Ha Hc. pose proof Hinv as [Hfit (o & Hhist & Ho)].
  pose proof (lookup_lt_Some _ _ _ Ht) as Hlen.
  assert (Hlock : _lock s = Some i).
  { apply holds_true. destruct (Hfit i t Ht) as [Hg _].
    eapply call_needs_lock; eauto. }
  assert (Hnone : o = None).
  { destruct o as [j|]; [|reflexivity]. exfalso.
    destruct (proj1 (Ho j) eq_refl) as (tj & Htj & Haj).
    pose proof (awaiting_holds s j tj Hinv Htj Haj) as Hj.
    assert (j = i) by congruence. subst j. congruence. }
  subst o. split.
  - intros j t' Hj. unfold issue, holds in *. cbn [_lock tasks] in *.
    destruct (decide (i = j)) as [<-|Hne].
    + rewrite list_lookup_insert_eq in Hj by exact Hlen.
      inversion Hj; subst t'. cbn. split; [apply (Hfit i t Ht) | auto].
    + rewrite list_lookup_insert_ne in Hj by exact Hne. apply Hfit, Hj.
  - exists (Some i). unfold issue. cbn [history tasks]. split.
    + rewrite pending_after_snoc, Hhist. reflexivity.
    + intros j. destruct (decide (i = j)) as [<-|Hne].
      * rewrite list_lookup_insert_eq by exact Hlen. split; [eauto | reflexivity].
      * rewrite list_lookup_insert_ne by exact Hne. split; [congruence|].
        intros Hj. apply Ho in Hj. discriminate.
Qed.

Lemma complete_invariant (s : system D) i t k (c : client D) :
  gate_invariant s ->
  tasks s !! i = Some t ->
  awaiting t = true ->
  gated true false k ->
  gate_invariant (complete i k c s).
Proof.
  intros Hinv Ht Ha Hk. pose proof Hinv as [Hfit (o & Hhist & Ho)].
  pose proof (lookup_lt_Some _ _ _ Ht) as Hlen.
  pose proof (awaiting_holds s i t Hinv Ht Ha) as Hlock.
  assert (Hsome : o = Some i) by (apply Ho; eauto).
  subst o. split.
  - intros j t' Hj. unfold complete, holds in *. cbn [_lock tasks] in *.
    destruct (decide (i = j)) as [<-|Hne].
    + rewrite list_lookup_insert_eq in Hj by exact Hlen.
      inversion Hj; subst t'. cbn. rewrite bool_decide_eq_true_2 by exact Hlock.
      split; [exact Hk | discriminate].
    + rewrite list_lookup_insert_ne in Hj by exact Hne. apply Hfit, Hj.
  - exists None. unfold complete. cbn [history tasks]. split.
    + rewrite pending_after_snoc, Hhist. cbn. rewrite Nat.eqb_refl. reflexivity.
    + intros j. split; [discriminate|]. intros (t' & Ht' & Ha'). exfalso.
      destruct (decide (i = j)) as [<-|Hne].
      * rewrite list_lookup_insert_eq in Ht' by exact Hlen.
        inversion Ht'; subst t'. discriminate.
      * rewrite list_lookup_insert_ne in Ht' by exact Hne.
        assert (Hj : Some i = Some j) by (apply Ho; eauto). congruence.
Qed.

Lemma not_awaiting (b : bool) (P : Prop) :
  (b = true -> P) -> ~ P -> b = false.
Proof. destruct b; [intros Hc Hn; exfalso; auto | reflexivity]. Qed.

Lemma gated_inv {A} h h' (m : prog A) :
  gated h h' m ->
  match m with
  | Ret _ => h = h'
  | Acquire k => h = false /\ gated true h' k
  | Release k => h = true /\ gated false h' k
  | IsConnected k => forall b, gated h h' (k b)
  | Connect k => h = true /\ forall b, gated true h' (k b)
  | ReadRegs _ _ _ k => h = true /\ forall r, gated true h' (k r)
  | WriteRegs _ _ _ k => h = true /\ forall r, gated true h' (k r)
  | Sleep _ k => gated h h' k
  | GetAddress k => forall a, gated h h' (k a)
  | GetParams k => forall ps, gated h h' (k ps)
  | SetParams _ k => gated h h' k
  end.
Proof. intros Hm. destruct Hm; auto. Qed.

Ltac plain_step Hinv Ht Hc :=
  eapply plain_step_invariant;
  [ exact Hinv | exact Ht | apply (not_awaiting _ _ Hc); cbn; auto | | ].

Lemma advance_invariant (s s' : system D) i :
  gate_invariant s -> advance i s = Some s' -> gate_invariant s'.
Proof.
  intros Hinv Hstep. pose proof Hinv as [Hfit _]. unfold advance in Hstep.
  destruct (tasks s !! i) as [t|] eqn:Ht; [|discriminate].
  destruct (Hfit i t Ht) as [Hg Hc]. apply gated_inv in Hg.
  destruct (code t) eqn:Hcode.
  - discriminate.
  - destruct (_lock s) eqn:Hl; [discriminate|]. inversion Hstep; subst s'.
    destruct Hg as [Hh Hk]. unfold resume, with_lock.
    cbn [self _lock tasks history].
    plain_step Hinv Ht Hc.
    + rewrite bool_decide_eq_true_2 by reflexivity. exact Hk.
    + intros j Hj. unfold holds. rewrite Hl.
      rewrite !bool_decide_eq_false_2; congruence.
  - destruct (_lock s) eqn:Hl; [|discriminate]. inversion Hstep; subst s'.
    destruct Hg as [Hh Hk]. unfold resume, with_lock.
    cbn [self _lock tasks history].
    assert (Hi : _lock s = Some i) by (apply holds_true; congruence).
    plain_step Hinv Ht Hc.
    + rewrite bool_decide_eq_false_2 by discriminate. exact Hk.
    + intros j Hj. unfold holds. rewrite Hi.
      rewrite !bool_decide_eq_false_2; congruence.
  - inversion Hstep; subst s'.
    unfold resume. plain_step Hinv Ht Hc; [apply Hg | reflexivity].
  - destruct Hg as [Hh Hk]. destruct (awaiting t) eqn:Ha.
    + destruct (connect (_client (self s))) as [b d].
      inversion Hstep; subst s'.
      apply (complete_invariant s i t); auto.
    + inversion Hstep; subst s'. apply issue_invariant; auto.
      rewrite Hcode. exact I.
  - destruct Hg as [Hh Hk]. destruct (awaiting t) eqn:Ha.
    + destruct (read_holding_registers address count kwargs (_client (self s)))
        as [r d].
      inversion Hstep; subst s'.
      apply (complete_invariant s i t); auto.
    + inversion Hstep; subst s'. apply issue_invariant; auto.
      rewrite Hcode. exact I.
  - destruct Hg as [Hh Hk]. destruct (awaiting t) eqn:Ha.
    + destruct (write_registers address values kwargs (_client (self s)))
        as [r d].
      inversion Hstep; subst s'.
      apply (complete_invariant s i t); auto.
    + inversion Hstep; subst s'. apply issue_invariant; auto.
      rewrite Hcode. exact I.
  - inversion Hstep; subst s'.
    unfold resume. plain_step Hinv Ht Hc; [exact Hg | reflexivity].
  - inversion Hstep; subst s'.
    unfold resume. plain_step Hinv Ht Hc; [apply Hg | reflexivity].
  - inversion Hstep; subst s'.
    unfold resume. plain_step Hinv Ht Hc; [apply Hg | reflexivity].
  - inversion Hstep; subst s'.
    unfold resume, with_self. cbn [self _lock tasks history].
    plain_step Hinv Ht Hc; [exact Hg | reflexivity].
Qed.

Lemma exec_invariant schedule : forall (s s' : system D),
  gate_invariant s -> exec schedule s = Some s' -> gate_invariant s'.
Proof.
  induction schedule as [|i rest IH]; intros s s' Hinv Hexec; cbn in Hexec.
  - inversion Hexec; subst. exact Hinv.
  - destruct (advance i s) as [s1|] eqn:Hstep; [|discriminate].
    eapply IH; [|exact Hexec]. eapply advance_invariant; eauto.
Qed.

Lemma spawn_invariant (calls : list (prog unit)) (c : client D) :
  Forall (gated false false) calls -> gate_invariant (spawn calls c).
Proof.
  intros Hall. split.
  - intros i t Ht. unfold spawn in Ht. cbn [tasks] in Ht.
    rewrite list_lookup_fmap in Ht.
    destruct (calls !! i) as [p|] eqn:Hp; [|discriminate].
    inversion Ht; subst t. cbn. split; [|discriminate].
    rewrite Forall_forall in Hall. apply Hall.
    apply list_elem_of_lookup. eauto.
  - exists None. split; [reflexivity|]. intros i. split; [discriminate|].
    intros (t & Ht & Ha). unfold spawn in Ht. cbn [tasks] in Ht.
    rewrite list_lookup_fmap in Ht.
    destruct (calls !! i); [|discriminate]. inversion Ht; subst t. discriminate.
Qed.
End GateInvariant.

(** C9, as amended.  Whatever calls of the public methods run as tasks on
    one client object, and in whatever order the tasks are scheduled, no
    transport call is issued while another is pending: the history of the
    run alternates issue and completion, at most one task is suspended on
    a transport call at any time, and that task holds [self._lock].  The
    lock is taken and released inside each [async_read_holding_registers]
    and [async_write_register], so the read and the write of one
    read-modify-write method are two separate critical sections. *)
Theorem gate_serializes_transport {D : Type} `{Transport D}
  (cp1250 : Z -> option Z) (calls : list (prog unit)) (c : client D)
  (schedule : list nat) (s : system D) :
  Forall (facade_call cp1250) calls ->
  exec schedule (spawn calls c) = Some s ->
  serialized (history s) = true /\
  (forall i j ti tj,
     tasks s !! i = Some ti -> tasks s !! j = Some tj ->
     awaiting ti = true -> awaiting tj = true -> i = j) /\
  (forall i t,
     tasks s !! i = Some t -> awaiting t = true -> _lock s = Some i).
Proof.
  intros Hcalls Hexec.
  assert (Hinv : gate_invariant s).
  { eapply exec_invariant; [|exact Hexec]. apply spawn_invariant.
    eapply Forall_impl; [exact Hcalls|]. apply gated_facade_call. }
  split; [|split].
  - destruct Hinv as [_ (o & Hhist & _)]. unfold serialized.
    rewrite Hhist. reflexivity.
  - intros i j ti tj Hi Hj Hai Haj.
    pose proof (awaiting_holds s i ti Hinv Hi Hai).
    pose proof (awaiting_holds s j tj Hinv Hj Haj). congruence.
  - intros i t Hi Ha. exact (awaiting_holds s i t Hinv Hi Ha).
Qed.

Lemma gate_serializes_transport_witness :
  exists s,
    exec (repeat 0%nat 5) (spawn two_mode_calls (fresh_client mode_memory))
      = Some s /\
    history s = [(0%nat, Issued)] /\
    serialized (history s) = true /\
    (forall i t,
       tasks s !! i = Some t -> awaiting t = true -> _lock s = Some i).
Proof.
  assert (Hcalls : Forall (facade_call ascii_table) two_mode_calls)
    by (repeat constructor).
  eexists. split; [vm_compute; reflexivity|]. split; [reflexivity|].
  match goal with
  | |- serialized (history ?s) = true /\ _ =>
      assert (Hexec : exec (repeat 0%nat 5)
                        (spawn two_mode_calls (fresh_client mode_memory))
                      = Some s) by (vm_compute; reflexivity);
      destruct (gate_serializes_transport ascii_table two_mode_calls
                  (fresh_client mode_memory) (repeat 0%nat 5) s Hcalls Hexec)
        as (Hser & _ & Hlock)
  end.
  split; [exact Hser | exact Hlock].
Defined.

(** C9 as stated fails in its last part.  Two calls of [set_mode] for
    zone 1 run as two tasks; each one's read is served before the other
    one's write, the order in which a first-come-first-served lock admits
    them when the second call starts while the first awaits its read.  No
    two transport calls overlap, yet the registers end in a state that
    neither order of the two calls, run one after the other, produces:
    the second task writes back the override window it read before the
    first task replaced it. *)
Lemma gate_leaves_read_modify_write_race :
  exists s,
    exec alternating_schedule (spawn two_mode_calls (fresh_client mode_memory))
      = Some s /\
    forallb finished (tasks s) = true /\
    serialized (history s) = true /\
    mode_block (_client (self s)) = [0x60; 1; 2; 3; 4] /\
    mode_block
      (_client (snd (run (set_mode 1 false)
                       (snd (run (set_mode 1 true) (fresh_client mode_memory))))))
      = [0x60; 0x10; 0x80; 0x10; 0x80] /\
    mode_block
      (_client (snd (run (set_mode 1 true)
                       (snd (run (set_mode 1 false) (fresh_client mode_memory))))))
      = [0x40; 0x10; 0x80; 0x10; 0x80].
Proof.
  eexists. split; [vm_compute; reflexivity|].
  repeat split; vm_compute; reflexivity.
Qed.

(** * Further properties

    What the methods do in the cases the statements above leave open:
    their error paths, what they never do, how their results fit
    together, and how [climate.py] uses them. *)

Section Outcomes.
Context {D : Type} `{Transport D}.
Variable cp1250 : Z -> option Z.

Lemma first_success_or_all_fail (f : nat -> bool) n :
  (exists k, (k < n)%nat /\ (forall i, (i < k)%nat -> f i = true) /\ f k = false)
  \/ (forall i, (i < n)%nat -> f i = true).
Proof.
  induction n as [|n IH].
  { right. intros i Hi. inversion Hi. }
  destruct IH as [(k & Hk & Hbefore & Hat)|Hall].
  - left. exists k. repeat split; auto; lia.
  - destruct (f n) eqn:Hn.
    + right. intros i Hi. destruct (Nat.eq_dec i n) as [->|Hne]; [exact Hn|].
      apply Hall. lia.
    + left. exists n. repeat split; auto.
Qed.


(** X1.  How a register read or write through
    [async_read_holding_registers] or [async_write_register] ends, on any
    transport.  It takes the lock first, calls [connect] once if and only
    if the client was not connected (and goes on whatever [connect]
    answered), makes [k] attempts that return an error response, each
    followed by a sleep of [CONF_MODBUS_RETR_WAIT], and releases the lock
    last.  It returns an error response only when [k] is
    [CONF_MODBUS_RETR], with nothing after the last sleep; otherwise [k]
    is smaller and one more call precedes the release: either it returns
    a response that is not an error, which the transaction returns, or
    the client raises on it, and the transaction raises
    [ModbusException] at once, without a sleep or a further attempt.  The
    object's address and cache are untouched. *)
Theorem transaction_shape (q : request) (unit : Z) (c : client D) :
  exists out c' k,
    run (perform q unit) c = (out, c') /\
    same_object c c' /\
    trace c' =
      trace c
      ++ (if connected (_client c) then [EvAcquire] else [EvAcquire; EvConnect])
      ++ retry_events (request_event q) k
      ++ match out with
         | Ok r => if isError r then [EvRelease] else [request_event q; EvRelease]
         | Raise _ => [request_event q; EvRelease]
         end /\
    match out with
    | Ok r => if isError r then k = CONF_MODBUS_RETR else (k < CONF_MODBUS_RETR)%nat
    | Raise e => e = ModbusException /\ (k < CONF_MODBUS_RETR)%nat
    end.
Proof.
  set (f := transport_call q (slave_kwargs unit)).
  set (c1 := connected_client c).
  assert (Hobj : forall d t,
            same_object c
              (log EvRelease (mk_client d (_address c1) (_params c1) t))).
  { intros d t. destruct (connected_client_object c) as [Ha Hp].
    split; cbn; assumption. }
  destruct (first_success_or_all_fail
              (fun i => failed (reply f i (_client c1))) CONF_MODBUS_RETR)
    as [(k & Hk & Hfail & Hnot)|Hall].
  - destruct (reply f k (_client c1)) as [r|] eqn:Hr.
    + cbn [failed] in Hnot. exists (Ok r). eexists. exists k. split.
      { apply run_transaction_attempts.
        apply (attempts_succeed q (slave_kwargs unit) CONF_MODBUS_RETR k None
                 c1 r); assumption. }
      rewrite Hnot. split; [apply Hobj|]. split; [|exact Hk].
      cbn [log trace]. unfold c1. rewrite connected_client_trace.
      rewrite <- !app_assoc. reflexivity.
    + exists (Raise ModbusException). eexists. exists k. split.
      { apply run_transaction_raise.
        apply (attempts_raise q (slave_kwargs unit) CONF_MODBUS_RETR k None c1);
          assumption. }
      split; [apply Hobj|]. split; [|auto].
      cbn [log trace]. unfold c1. rewrite connected_client_trace.
      rewrite <- !app_assoc. reflexivity.
  - destruct (failed_response _ (Hall (CONF_MODBUS_RETR - 1)%nat
                                   ltac:(unfold CONF_MODBUS_RETR; lia)))
      as (r & Hr & Herr).
    exists (Ok r). eexists. exists CONF_MODBUS_RETR. split.
    { apply run_transaction_attempts. etransitivity;
        [apply (attempts_exhausted q (slave_kwargs unit) CONF_MODBUS_RETR None
                  c1 Hall)|].
      change (match CONF_MODBUS_RETR with
              | O => None
              | S m =>
                  match reply (transport_call q (slave_kwargs unit)) m
                          (_client c1) with
                  | Response r0 => Some r0
                  | Raises => None
                  end
              end)
        with (match reply f (CONF_MODBUS_RETR - 1) (_client c1) with
              | Response r0 => Some r0
              | Raises => None
              end).
      rewrite Hr. reflexivity. }
    rewrite Herr. split; [apply Hobj|]. split; [|reflexivity].
    cbn [log trace]. unfold c1. rewrite connected_client_trace.
    rewrite <- !app_assoc. reflexivity.
Qed.

(** *** Programs that never write *)

Lemma read_only_bind {A B} (m : prog A) (f : A -> prog B) :
  read_only m -> (forall a, read_only (f a)) -> read_only (bind m f).
Proof.
  intros Hm Hf. induction Hm; cbn [bind]; try (constructor; auto; fail).
  destruct r; [apply Hf | constructor].
Qed.

Lemma read_only_releasing {A} (m : prog A) :
  read_only m -> read_only (releasing m).
Proof.
  intros Hm. induction Hm; cbn [releasing]; try (constructor; auto; fail).
  repeat constructor.
Qed.

Lemma read_only_attempts n (op : prog response) : forall regs_l,
  read_only op -> read_only (attempts n op regs_l).
Proof.
  induction n as [|n IH]; intros regs_l Hop; cbn [attempts].
  - constructor.
  - apply read_only_bind; [exact Hop|]. intros r. destruct (isError r).
    + constructor. apply IH, Hop.
    + constructor.
Qed.

Lemma read_only_read unit address count :
  read_only (async_read_holding_registers unit address count).
Proof.
  unfold async_read_holding_registers, transaction, async_with_lock.
  constructor. apply read_only_releasing. apply read_only_bind.
  - unfold check_connection, async_connect. constructor. intros [];
      cbn [negb]; constructor; intros; constructor.
  - intros _. apply read_only_bind.
    + apply read_only_attempts. constructor. intros r. constructor.
    + intros [r|]; constructor.
Qed.

Lemma read_only_for_each {A S} (body : A -> S -> prog S) l : forall s,
  (forall x s', read_only (body x s')) -> read_only (for_each l body s).
Proof.
  induction l as [|x l IH]; intros s Hbody; cbn [for_each].
  - constructor.
  - apply read_only_bind; [apply Hbody|]. intros s'. apply IH, Hbody.
Qed.

Ltac read_only_step :=
  match goal with
  | |- read_only (ret _) => apply read_only_Ret
  | |- read_only (lift _) => apply read_only_Ret
  | |- read_only (Ret _) => apply read_only_Ret
  | |- read_only (async_read_holding_registers _ _ _) => apply read_only_read
  | |- read_only (GetAddress _) => apply read_only_GetAddress; intros ?
  | |- read_only (GetParams _) => apply read_only_GetParams; intros ?
  | |- read_only (SetParams _ _) => apply read_only_SetParams
  | |- read_only (bind _ _) => apply read_only_bind; [|intros ?]
  | |- read_only (if ?b then _ else _) => destruct b
  | |- read_only (match ?x with _ => _ end) => destruct x
  end.

Lemma read_only_read_params : read_only (read_params cp1250).
Proof.
  unfold read_params. apply read_only_bind.
  - apply read_only_for_each. intros pos res. unfold read_params_slot.
    repeat read_only_step.
  - intros res. repeat read_only_step.
Qed.

Lemma read_only_ensure_params : read_only (ensure_params cp1250).
Proof.
  unfold ensure_params. constructor. intros [ps|];
    [constructor | apply read_only_read_params].
Qed.

Lemma read_only_get_parameters : read_only (get_parameters cp1250).
Proof.
  unfold get_parameters. apply read_only_bind; [apply read_only_ensure_params|].
  intros _. repeat read_only_step.
Qed.

Lemma read_only_get_current_temperatures :
  read_only (get_current_temperatures cp1250).
Proof.
  unfold get_current_temperatures. constructor. intros address.
  apply read_only_bind; [apply read_only_read|]. intros response.
  apply read_only_bind; [constructor|]. intros data.
  apply read_only_bind; [apply read_only_ensure_params|]. intros _.
  constructor. intros ps. destruct (_ || _); [constructor|].
  apply read_only_bind; [|intros; constructor].
  apply read_only_for_each. intros pos res. unfold current_slot.
  repeat read_only_step.
Qed.

Lemma read_only_get_required_temperatures :
  read_only (get_required_temperatures cp1250).
Proof.
  unfold get_required_temperatures. constructor. intros address.
  apply read_only_bind; [apply read_only_read|]. intros response.
  apply read_only_bind; [constructor|]. intros data.
  apply read_only_bind; [apply read_only_ensure_params|]. intros _.
  constructor. intros ps. destruct (_ || _); [constructor|].
  apply read_only_bind; [|intros; constructor].
  apply read_only_for_each. intros pos res. unfold required_slot.
  repeat read_only_step.
Qed.

Lemma read_only_trace {A} (m : prog A) :
  read_only m ->
  forall c : client D,
    exists evs,
      trace (snd (run m c)) = trace c ++ evs /\ Forall not_a_write evs.
Proof.
  intros Hm. induction Hm as [r|k Hk IH|k Hk IH|k Hk IH|k Hk IH|a n kw k Hk IH
                              |t k Hk IH|k Hk IH|k Hk IH|ps k Hk IH];
    intros c; cbn [run].
  - exists []. rewrite app_nil_r. split; [reflexivity | constructor].
  - destruct (IH (log EvAcquire c)) as (evs & Ht & Hall).
    exists (EvAcquire :: evs). rewrite Ht. cbn. rewrite <- app_assoc.
    split; [reflexivity|]. constructor; [exact I | exact Hall].
  - destruct (IH (log EvRelease c)) as (evs & Ht & Hall).
    exists (EvRelease :: evs). rewrite Ht. cbn. rewrite <- app_assoc.
    split; [reflexivity|]. constructor; [exact I | exact Hall].
  - apply IH.
  - destruct (connect (_client c)) as [b d].
    destruct (IH b (log EvConnect (set_device d c))) as (evs & Ht & Hall).
    exists (EvConnect :: evs). rewrite Ht. cbn. rewrite <- app_assoc.
    split; [reflexivity|]. constructor; [exact I | exact Hall].
  - destruct (read_holding_registers a n kw (_client c)) as [r d].
    destruct (IH r (log (EvRead a n) (set_device d c))) as (evs & Ht & Hall).
    exists (EvRead a n :: evs). rewrite Ht. cbn. rewrite <- app_assoc.
    split; [reflexivity|]. constructor; [exact I | exact Hall].
  - destruct (IH (log (EvSleep t) c)) as (evs & Ht & Hall).
    exists (EvSleep t :: evs). rewrite Ht. cbn. rewrite <- app_assoc.
    split; [reflexivity|]. constructor; [exact I | exact Hall].
  - apply IH.
  - apply IH.
  - destruct (IH (set_params ps c)) as (evs & Ht & Hall).
    exists evs. split; [exact Ht | exact Hall].
Qed.

(** X2.  [get_parameters], [get_current_temperatures] and
    [get_required_temperatures] never write to the device: whatever the
    transport answers, and whether they return or raise, the log of a run
    gains no [write_registers] call. *)
Theorem queries_never_write (c : client D) :
  (exists evs,
     trace (snd (run (get_parameters cp1250) c)) = trace c ++ evs /\
     Forall not_a_write evs) /\
  (exists evs,
     trace (snd (run (get_current_temperatures cp1250) c)) = trace c ++ evs /\
     Forall not_a_write evs) /\
  (exists evs,
     trace (snd (run (get_required_temperatures cp1250) c)) = trace c ++ evs /\
     Forall not_a_write evs).
Proof.
  split; [|split].
  - apply read_only_trace, read_only_get_parameters.
  - apply read_only_trace, read_only_get_current_temperatures.
  - apply read_only_trace, read_only_get_required_temperatures.
Qed.

(** *** [set_mode] *)

Lemma mode_payload_cons b0 rest auto :
  0 <= b0 < 256 ->
  mode_payload (b0 :: rest) auto =
    Ok (if auto
        then [Z.land b0 0xDF; 0x10; 0x80; 0x10; 0x80]
        else Z.lor b0 0x20 :: firstn 4 rest).
Proof.
  intros Hb. unfold mode_payload.
  rewrite (getitem_nth _ 0 b0) by reflexivity. destruct auto; cbn [result_bind].
  - pose proof (land_0xDF_range b0 Hb) as Hr. apply is_byte_range in Hr.
    cbn [bytes]. rewrite Hr. reflexivity.
  - pose proof (lor_0x20_range b0 Hb) as Hr. apply is_byte_range in Hr.
    cbn [bytes]. rewrite Hr. reflexivity.
Qed.

(** X3.  What [set_mode] does once its six-register read of the mode
    block at [0x1100 + (pos - 1) * 0x10 + 3] has returned a response.  The
    read writes nothing.  If the response is an error, [set_mode] returns
    [False] and nothing is written.  Otherwise [bytes(response.registers)]
    raises [AttributeError] when the response has no registers and
    [ValueError] when a register is outside [0, 256); with an empty
    register list [data[0]] raises [IndexError].  Otherwise one write
    goes to the same address, with the payload
    [b0 & 0xDF, 0x10, 0x80, 0x10, 0x80] for [auto], and [b0 | 0x20]
    followed by up to four of the registers after the first otherwise;
    [set_mode] returns whether that write succeeded, or raises what the
    write raised. *)
Theorem set_mode_outcomes (c : client D) pos auto r1 c1 :
  run (async_read_holding_registers (_address c)
         (0x1100 + (pos - 1) * 0x10 + 0x03) 6) c = (Ok r1, c1) ->
  (exists evs, trace c1 = trace c ++ evs /\ Forall not_a_write evs) /\
  if isError r1
  then run (set_mode pos auto) c = (Ok false, c1)
  else
    match registers_bytes r1 with
    | Raise e =>
        run (set_mode pos auto) c = (Raise e, c1) /\
        (e = ValueError \/ e = AttributeError)
    | Ok [] => run (set_mode pos auto) c = (Raise IndexError, c1)
    | Ok (b0 :: rest) =>
        run (set_mode pos auto) c =
          match
            run (async_write_register (_address c)
                   (0x1100 + (pos - 1) * 0x10 + 0x03)
                   (if auto
                    then [Z.land b0 0xDF; 0x10; 0x80; 0x10; 0x80]
                    else Z.lor b0 0x20 :: firstn 4 rest)) c1
          with
          | (Ok r2, c2) => (Ok (negb (isError r2)), c2)
          | (Raise e, c2) => (Raise e, c2)
          end
    end.
Proof.
  intros Hread. split.
  { destruct (read_only_trace _ (read_only_read (_address c)
                (0x1100 + (pos - 1) * 0x10 + 0x03) 6) c) as (evs & Ht & Hall).
    rewrite Hread in Ht. exists evs. auto. }
  unfold set_mode. cbn [run]. rewrite run_bind, Hread.
  destruct (isError r1); [reflexivity|].
  rewrite run_bind. cbn [run lift].
  destruct (registers_bytes r1) as [data|e] eqn:Hb.
  2:{ split; [reflexivity | eapply registers_bytes_error, Hb]. }
  destruct data as [|b0 rest].
  { rewrite run_bind. cbn [run lift]. destruct auto; reflexivity. }
  rewrite run_bind. cbn [run lift].
  apply registers_bytes_inv in Hb. destruct Hb as [Hregs Hall].
  pose proof (Forall_inv Hall) as Hb0. cbn beta in Hb0.
  rewrite (mode_payload_cons b0 rest auto Hb0). cbn [run].
  destruct (run_async_read (_address c) (0x1100 + (pos - 1) * 0x10 + 0x03) 6 c)
    as (r & c' & Hr & [Ha _] & _).
  rewrite Hread in Hr. inversion Hr; subst r c'. rewrite Ha.
  rewrite run_bind.
  destruct (run (async_write_register _ _ _) c1) as [[r2|e] c2]; [|reflexivity].
  destruct (isError r2); reflexivity.
Qed.

(** X4.  On a mode block of at least five bytes the payload
    of [set_mode] is a fixed point of the same request: built again from
    a block that begins with the payload just written, it has the same
    bytes.  Switching to manual after automatic keeps the window
    [10 80 10 80] and sets bit 5; switching to automatic after manual
    gives the bytes of switching to automatic directly. *)
Theorem mode_payload_composes b0 rest :
  0 <= b0 < 256 ->
  (4 <= length rest)%nat ->
  let auto_p := [Z.land b0 0xDF; 0x10; 0x80; 0x10; 0x80] in
  let manual_p := Z.lor b0 0x20 :: firstn 4 rest in
  mode_payload (b0 :: rest) true = Ok auto_p /\
  mode_payload (b0 :: rest) false = Ok manual_p /\
  forall tail,
    mode_payload (auto_p ++ tail) true = Ok auto_p /\
    mode_payload (manual_p ++ tail) false = Ok manual_p /\
    mode_payload (auto_p ++ tail) false =
      Ok [Z.lor b0 0x20; 0x10; 0x80; 0x10; 0x80] /\
    mode_payload (manual_p ++ tail) true = Ok auto_p.
Proof.
  intros Hb Hlen auto_p manual_p.
  pose proof (land_0xDF_range b0 Hb) as Hland.
  pose proof (lor_0x20_range b0 Hb) as Hlor.
  assert (Hll : Z.land (Z.land b0 0xDF) 0xDF = Z.land b0 0xDF).
  { rewrite <- Z.land_assoc. reflexivity. }
  assert (Hoo : Z.lor (Z.lor b0 0x20) 0x20 = Z.lor b0 0x20).
  { rewrite <- Z.lor_assoc. reflexivity. }
  assert (Hlo : Z.lor (Z.land b0 0xDF) 0x20 = Z.lor b0 0x20).
  { apply Z.bits_inj'. intros i Hi.
    rewrite set_mode_bit, clear_mode_bit, set_mode_bit by exact Hb.
    destruct (i =? 5); reflexivity. }
  assert (Hol : Z.land (Z.lor b0 0x20) 0xDF = Z.land b0 0xDF).
  { apply Z.bits_inj'. intros i Hi.
    rewrite clear_mode_bit, clear_mode_bit, set_mode_bit by assumption.
    destruct (i =? 5); reflexivity. }
  assert (Hfirst : forall tail, firstn 4 (firstn 4 rest ++ tail) = firstn 4 rest).
  { intros tail. rewrite firstn_app, firstn_firstn, Nat.min_id, length_firstn.
    replace (4 - Nat.min 4 (length rest))%nat with 0%nat by lia.
    cbn [firstn]. apply app_nil_r. }
  split; [apply (mode_payload_cons b0 rest true Hb)|].
  split; [apply (mode_payload_cons b0 rest false Hb)|].
  intros tail. unfold auto_p, manual_p. cbn [app].
  rewrite (mode_payload_cons _ _ true Hland), (mode_payload_cons _ _ false Hlor),
    (mode_payload_cons _ _ false Hland), (mode_payload_cons _ _ true Hlor).
  rewrite Hll, Hoo, Hlo, Hol, Hfirst. repeat split; reflexivity.
Qed.

(** *** The payload of a temporary override *)

(** X5.  The five bytes [set_temporary_temperature] writes
    can be read back field by field: the low five bits of the first byte
    are the target level, its bit 5 (the manual-mode bit [0x20] that
    [set_mode] toggles) is always clear, its top two bits are those of
    the byte read from the device, and the two byte pairs are the start
    and the end stamp, most significant byte first. *)
Theorem temporary_payload_fields b0 rest temperature p raw start end_ :
  0 <= b0 < 256 ->
  target_raw_level temperature p = Ok raw ->
  0 <= start < 65536 ->
  0 <= end_ < 65536 ->
  exists first s1 s0 e1 e0,
    temporary_payload (b0 :: rest) raw start end_ = Ok [first; s1; s0; e1; e0] /\
    Forall (fun b => 0 <= b < 256) [first; s1; s0; e1; e0] /\
    first mod 32 = raw /\
    Z.testbit first 5 = false /\
    first / 64 = b0 / 64 /\
    256 * s1 + s0 = start /\
    256 * e1 + e0 = end_.
Proof.
  intros Hb Hraw Hs He.
  destruct (target_raw_level_range _ _ _ Hraw) as [Hr _].
  pose proof (land_0xC0_range b0 Hb) as Hhi.
  exists (Z.lor (Z.land b0 0xC0) raw), (start / 256), (start mod 256),
    (end_ / 256), (end_ mod 256).
  split; [eapply temporary_payload_value; eassumption|].
  assert (Hsum : Z.lor (Z.land b0 0xC0) raw = Z.land b0 0xC0 + raw).
  { destruct (target_raw_level_range _ _ _ Hraw) as [_ [x ->]].
    symmetry. apply add_is_lor. }
  assert (Hmul : Z.land b0 0xC0 = 64 * (b0 / 64)).
  { pose proof (forall_bytes
      (fun b => Z.land b 0xC0 =? 64 * (b / 64)) eq_refl b0 Hb) as Hc.
    apply Z.eqb_eq in Hc. exact Hc. }
  assert (Hq : 0 <= b0 / 64 < 4).
  { split; [apply Z.div_pos; lia | apply Z.div_lt_upper_bound; lia]. }
  rewrite Hsum, Hmul.
  pose proof (Z.mod_pos_bound start 256 ltac:(lia)).
  pose proof (Z.mod_pos_bound end_ 256 ltac:(lia)).
  assert (0 <= start / 256 < 256)
    by (split; [apply Z.div_pos; lia | apply Z.div_lt_upper_bound; lia]).
  assert (0 <= end_ / 256 < 256)
    by (split; [apply Z.div_pos; lia | apply Z.div_lt_upper_bound; lia]).
  split; [repeat constructor; lia|].
  split.
  { symmetry. apply (Z.mod_unique _ 32 (2 * (b0 / 64)) raw); lia. }
  split.
  { rewrite Z.testbit_eqb by lia. change (2 ^ 5) with 32.
    assert (Hd : (64 * (b0 / 64) + raw) / 32 = 2 * (b0 / 64)).
    { symmetry. apply (Z.div_unique _ 32 (2 * (b0 / 64)) raw); lia. }
    rewrite Hd, Z.mul_comm, Z.mod_mul by lia. reflexivity. }
  split.
  { symmetry. apply (Z.div_unique _ 64 (b0 / 64) raw); lia. }
  split.
  - pose proof (Z.div_mod start 256 ltac:(lia)). lia.
  - pose proof (Z.div_mod end_ 256 ltac:(lia)). lia.
Qed.

Lemma quarter_range d : valid_datetime d -> 0 <= minute d / 15 < 4.
Proof.
  intros (_ & _ & _ & _ & Hmin).
  split; [apply Z.div_pos; lia | apply Z.div_lt_upper_bound; lia].
Qed.

Lemma toy_unpack q h dd m :
  0 <= q < 4 -> 0 <= h < 32 -> 0 <= dd < 32 ->
  let t := q + h * 4 + dd * 128 + m * 4096 in
  t / 4096 = m /\ (t mod 4096) / 128 = dd /\ (t mod 128) / 4 = h /\ t mod 4 = q.
Proof.
  intros Hq Hh Hd t.
  assert (H1 : t / 4096 = m)
    by (symmetry; apply (Z.div_unique t 4096 m (q + h * 4 + dd * 128)); unfold t; lia).
  assert (H2 : t mod 4096 = q + h * 4 + dd * 128)
    by (symmetry; apply (Z.mod_unique t 4096 m (q + h * 4 + dd * 128)); unfold t; lia).
  assert (H3 : t mod 128 = q + h * 4)
    by (symmetry; apply (Z.mod_unique t 128 (dd + m * 32) (q + h * 4)); unfold t; lia).
  assert (H4 : t mod 4 = q)
    by (symmetry; apply (Z.mod_unique t 4 (h + dd * 32 + m * 1024) q); unfold t; lia).
  rewrite H2, H3. repeat split; try assumption.
  - symmetry. apply (Z.div_unique _ 128 dd (q + h * 4)); lia.
  - symmetry. apply (Z.div_unique _ 4 h q); lia.
Qed.

(** X6.  The stamp of [__get_toy] packs month, day, hour and
    quarter of an hour without overlap: each field is recovered from the
    stamp by division and remainder, two valid times have the same stamp
    exactly when they agree on the four fields (the year and the minute
    within the quarter are dropped), and a time in an earlier month of
    the year has the smaller stamp. *)
Theorem time_of_year_fields (d : datetime) :
  valid_datetime d ->
  (get_toy d / 4096 = month d /\
   (get_toy d mod 4096) / 128 = day d /\
   (get_toy d mod 128) / 4 = hour d /\
   get_toy d mod 4 = minute d / 15) /\
  forall d',
    valid_datetime d' ->
    (get_toy d = get_toy d' <->
     month d = month d' /\ day d = day d' /\ hour d = hour d' /\
     minute d / 15 = minute d' / 15) /\
    (month d < month d' -> get_toy d < get_toy d').
Proof.
  assert (Hfields : forall x, valid_datetime x ->
            get_toy x / 4096 = month x /\
            (get_toy x mod 4096) / 128 = day x /\
            (get_toy x mod 128) / 4 = hour x /\
            get_toy x mod 4 = minute x / 15).
  { intros x Hx. pose proof (quarter_range x Hx) as Hq.
    destruct Hx as (_ & _ & Hd & Hh & _).
    pose proof (days_in_month_bounds (year x) (month x)).
    rewrite get_toy_formula. apply toy_unpack; lia. }
  intros Hd. split; [apply Hfields, Hd|]. intros d' Hd'.
  destruct (Hfields d Hd) as (Hm & Hday & Hh & Hq).
  destruct (Hfields d' Hd') as (Hm' & Hday' & Hh' & Hq').
  split.
  - split.
    + intros Heq. rewrite <- Hm, <- Hday, <- Hh, <- Hq, Heq. auto.
    + intros (E1 & E2 & E3 & E4). rewrite !get_toy_formula. lia.
  - intros Hlt. rewrite !get_toy_formula.
    pose proof (quarter_range d Hd). pose proof (quarter_range d' Hd').
    destruct Hd as (_ & _ & Hdd & Hhh & _). destruct Hd' as (_ & _ & Hdd' & Hhh' & _).
    pose proof (days_in_month_bounds (year d) (month d)).
    pose proof (days_in_month_bounds (year d') (month d')). lia.
Qed.

(** *** What the two polls return *)

Lemma in_slot_range pos : pos ∈ seqZ 1 16 <-> 1 <= pos <= 16.
Proof. rewrite elem_of_seqZ. lia. Qed.

Lemma polling_outcome {V} (dec : Z -> position -> V)
  (slot : list Z -> option (gmap Z position) -> Z -> gmap Z V ->
          prog (gmap Z V)) (block : Z) (c : client D) :
  (forall data ps pos res,
     slot data (Some ps) pos res =
       (let* b := lift (getitem data (pos - 1)) in
        let* position := lift (params_getitem (Some ps) pos) in
        if used position
        then ret (<[pos := dec b position]> res)
        else ret res)) ->
  cache_invariant c ->
  let polling :=
    GetAddress (fun address =>
    let* response := async_read_holding_registers address block 16 in
    let* data := lift (registers_bytes response) in
    let* _ := ensure_params cp1250 in
    GetParams (fun ps =>
    if negb (Z.of_nat (length data) =? 16) || negb (bool_decide (is_Some ps))
    then ret None
    else
      let* res := for_each (seqZ 1 16) (slot data ps) ∅ in
      ret (Some res))) in
  match run (async_read_holding_registers (_address c) block 16) c with
  | (Raise e, c1) => run polling c = (Raise e, c1) /\ e = ModbusException
  | (Ok r, c1) =>
  match registers_bytes r with
  | Raise e =>
      run polling c = (Raise e, c1) /\ (e = ValueError \/ e = AttributeError)
  | Ok data =>
      match run (ensure_params cp1250) c1 with
      | (Raise e, c2) => run polling c = (Raise e, c2) /\ population_error e
      | (Ok _, c2) =>
          exists ps,
            _params c2 = Some ps /\
            if Z.of_nat (length data) =? 16
            then exists res,
                   run polling c = (Ok (Some res), c2) /\
                   forall pos,
                     res !! pos =
                       if (1 <=? pos) && (pos <=? 16)
                       then match ps !! pos,
                                  nth_error data (Z.to_nat (pos - 1)) with
                            | Some p, Some b =>
                                if used p then Some (dec b p) else None
                            | _, _ => None
                            end
                       else None
            else run polling c = (Ok None, c2)
      end
  end
  end.
Proof.
  intros Hslot Hinv polling. unfold polling. cbn [run]. rewrite run_bind.
  destruct (run_async_read (_address c) block 16 c)
    as (o & c1 & Hr & Hobj & Hexn).
  rewrite Hr. destruct o as [r|e]; [|split; [reflexivity | auto]].
  rewrite run_bind. cbn [run lift].
  destruct (registers_bytes r) as [data|e] eqn:Hb.
  2:{ split; [reflexivity | eapply registers_bytes_error, Hb]. }
  rewrite run_bind.
  assert (Hinv1 : cache_invariant c1).
  { unfold cache_invariant in *. destruct Hobj as [_ Hp]. rewrite Hp. exact Hinv. }
  destruct (ensure_params_spec cp1250 c1 Hinv1)
    as [(ps & c2 & Hrun & Hps & _ & Hfull)|(e & c2 & Hrun & He & _)];
    rewrite Hrun; [|split; [reflexivity | exact He]].
  exists ps. split; [exact Hps|].
  cbn [run]. rewrite Hps.
  destruct (Z.eqb_spec (Z.of_nat (length data)) 16) as [Hlen|Hlen]; cbn [negb orb].
  - rewrite bool_decide_eq_true_2 by eauto. cbn [negb]. rewrite run_bind.
    destruct (polling_loop dec (slot data (Some ps)) data ps (Hslot data ps) Hfull
                (seqZ 1 16) ∅ c2) as (res & Hloop & Hres).
    { intros pos Hin. apply in_slot_range in Hin. lia. }
    rewrite Hloop. exists res. split; [reflexivity|].
    intros pos. rewrite Hres.
    destruct (decide (pos ∈ seqZ 1 16)) as [Hin|Hnin].
    + apply in_slot_range in Hin.
      destruct (Z.leb_spec 1 pos); [|lia]. destruct (Z.leb_spec pos 16); [|lia].
      cbn [andb]. destruct (ps !! pos) as [p|]; [|apply lookup_empty].
      destruct (nth_error data (Z.to_nat (pos - 1))); [|apply lookup_empty].
      destruct (used p); [reflexivity | apply lookup_empty].
    + rewrite lookup_empty.
      destruct (Z.leb_spec 1 pos); [|reflexivity].
      destruct (Z.leb_spec pos 16); [|reflexivity].
      exfalso. apply Hnin, in_slot_range. lia.
  - reflexivity.
Qed.

(** X7.  Every outcome of [get_current_temperatures], by how its read of
    16 registers at [0x60] ends.  If the client raises, the method raises
    [ModbusException] with it.  If a response comes back, the code uses it
    without looking at [isError]: [bytes(response.registers)] raises
    [AttributeError] on a response without registers (an error response)
    and [ValueError] on a register outside [0, 256).  Otherwise the cache
    is filled if it was empty, and an exception of that pass
    ([ValueError], [IndexError], [UnicodeDecodeError], [AttributeError] or
    [ModbusException]) is the outcome.  Otherwise the result is [None]
    unless exactly 16 bytes came back, and then a dictionary whose keys
    are the positions from 1 to 16 with [used] set in the cache, where
    [pos] is mapped to [(data[pos - 1] + shift) * step]. *)
Theorem current_temperatures_outcomes (c : client D) :
  cache_invariant c ->
  match run (async_read_holding_registers (_address c) 0x60 16) c with
  | (Raise e, c1) =>
      run (get_current_temperatures cp1250) c = (Raise e, c1) /\
      e = ModbusException
  | (Ok r, c1) =>
  match registers_bytes r with
  | Raise e =>
      run (get_current_temperatures cp1250) c = (Raise e, c1) /\
      (e = ValueError \/ e = AttributeError)
  | Ok data =>
      match run (ensure_params cp1250) c1 with
      | (Raise e, c2) =>
          run (get_current_temperatures cp1250) c = (Raise e, c2) /\
          population_error e
      | (Ok _, c2) =>
          exists ps,
            _params c2 = Some ps /\
            if Z.of_nat (length data) =? 16
            then exists res,
                   run (get_current_temperatures cp1250) c = (Ok (Some res), c2) /\
                   forall pos,
                     res !! pos =
                       if (1 <=? pos) && (pos <=? 16)
                       then match ps !! pos,
                                  nth_error data (Z.to_nat (pos - 1)) with
                            | Some p, Some b =>
                                if used p
                                then Some ((b + shift p) * step p)
                                else None
                            | _, _ => None
                            end
                       else None
            else run (get_current_temperatures cp1250) c = (Ok None, c2)
      end
  end
  end.
Proof.
  intros Hinv. rewrite get_current_temperatures_polling.
  exact (polling_outcome decode_current_temp current_slot 0x60 c
           ltac:(reflexivity) Hinv).
Qed.

(** X8.  Every outcome of [get_required_temperatures], by how its read
    of 16 registers at [0x70] ends: as for [get_current_temperatures]
    ([ModbusException] when the client raises; [AttributeError] or
    [ValueError] from [bytes(response.registers)]; an exception of the
    population of the cache; [None] unless 16 bytes came back), with
    [pos] mapped to the temperature
    [(data[pos - 1] mod 32 + shift) * step] and the flag
    [data[pos - 1] // 32]. *)
Theorem required_temperatures_outcomes (c : client D) :
  cache_invariant c ->
  match run (async_read_holding_registers (_address c) 0x70 16) c with
  | (Raise e, c1) =>
      run (get_required_temperatures cp1250) c = (Raise e, c1) /\
      e = ModbusException
  | (Ok r, c1) =>
  match registers_bytes r with
  | Raise e =>
      run (get_required_temperatures cp1250) c = (Raise e, c1) /\
      (e = ValueError \/ e = AttributeError)
  | Ok data =>
      match run (ensure_params cp1250) c1 with
      | (Raise e, c2) =>
          run (get_required_temperatures cp1250) c = (Raise e, c2) /\
          population_error e
      | (Ok _, c2) =>
          exists ps,
            _params c2 = Some ps /\
            if Z.of_nat (length data) =? 16
            then exists res,
                   run (get_required_temperatures cp1250) c = (Ok (Some res), c2) /\
                   forall pos,
                     res !! pos =
                       if (1 <=? pos) && (pos <=? 16)
                       then match ps !! pos,
                                  nth_error data (Z.to_nat (pos - 1)) with
                            | Some p, Some b =>
                                if used p
                                then Some (mk_requirement
                                             ((b mod 32 + shift p) * step p)
                                             (b / 32))
                                else None
                            | _, _ => None
                            end
                       else None
            else run (get_required_temperatures cp1250) c = (Ok None, c2)
      end
  end
  end.
Proof.
  intros Hinv. rewrite get_required_temperatures_polling.
  pose proof (polling_outcome decode_requirement required_slot 0x70 c
                ltac:(reflexivity) Hinv) as Hout.
  cbv zeta in Hout.
  destruct (run (async_read_holding_registers (_address c) 0x70 16) c)
    as [[r|e] c1]; [|exact Hout].
  destruct (registers_bytes r) as [data|e]; [|exact Hout].
  destruct (run (ensure_params cp1250) c1) as [[[]|e] c2]; [|exact Hout].
  destruct Hout as (ps & Hps & Hout). exists ps. split; [exact Hps|].
  destruct (Z.of_nat (length data) =? 16); [|exact Hout].
  destruct Hout as (res & Hrun & Hres). exists res. split; [exact Hrun|].
  intros pos. rewrite Hres. destruct ((1 <=? pos) && (pos <=? 16)); [|reflexivity].
  destruct (ps !! pos) as [p|]; [|reflexivity].
  destruct (nth_error data (Z.to_nat (pos - 1))) as [b|]; [|reflexivity].
  destruct (used p); [|reflexivity].
  unfold decode_requirement. rewrite land_1F, Z.shiftr_div_pow2 by lia.
  reflexivity.
Qed.

Lemma poll_keys {V} (dec : Z -> position -> V)
  (slot : list Z -> option (gmap Z position) -> Z -> gmap Z V ->
          prog (gmap Z V)) (block : Z) (c : client D) res c2 :
  (forall data ps pos res,
     slot data (Some ps) pos res =
       (let* b := lift (getitem data (pos - 1)) in
        let* position := lift (params_getitem (Some ps) pos) in
        if used position
        then ret (<[pos := dec b position]> res)
        else ret res)) ->
  cache_invariant c ->
  run (GetAddress (fun address =>
       let* response := async_read_holding_registers address block 16 in
       let* data := lift (registers_bytes response) in
       let* _ := ensure_params cp1250 in
       GetParams (fun ps =>
       if negb (Z.of_nat (length data) =? 16) || negb (bool_decide (is_Some ps))
       then ret None
       else
         let* res := for_each (seqZ 1 16) (slot data ps) ∅ in
         ret (Some res)))) c = (Ok (Some res), c2) ->
  exists ps,
    _params c2 = Some ps /\ cache_complete ps /\
    (_params c = None -> forall pos, is_Some (ps !! pos) -> 1 <= pos <= 16) /\
    (forall ps0, _params c = Some ps0 -> ps = ps0) /\
    forall pos,
      is_Some (res !! pos) <->
      1 <= pos <= 16 /\ exists p, ps !! pos = Some p /\ used p = true.
Proof.
  intros Hslot Hinv Hrun.
  destruct (run_async_read (_address c) block 16 c)
    as (o & c1 & Hr & Hobj & _).
  pose proof (polling_outcome dec slot block c Hslot Hinv) as Hout.
  cbv zeta in Hout. rewrite Hr in Hout.
  destruct o as [r|e];
    [|destruct Hout as [Hout _]; rewrite Hrun in Hout; discriminate].
  destruct (registers_bytes r) as [data|e] eqn:Hb;
    [|destruct Hout as [Hout _]; rewrite Hrun in Hout; discriminate].
  assert (Hinv1 : cache_invariant c1).
  { unfold cache_invariant in *. destruct Hobj as [_ Hp]. rewrite Hp. exact Hinv. }
  assert (Hdom : forall c2' ps,
            run (ensure_params cp1250) c1 = (Ok tt, c2') ->
            _params c2' = Some ps ->
            cache_complete ps /\
            (_params c = None -> forall pos, is_Some (ps !! pos) -> 1 <= pos <= 16) /\
            (forall ps0, _params c = Some ps0 -> ps = ps0)).
  { intros c2' ps Hens Hps. split; [|split].
    - destruct (ensure_params_spec cp1250 c1 Hinv1)
        as [(ps' & c' & Hrun' & Hps' & _ & Hfull)|(e & c' & Hrun' & _)];
        rewrite Hens in Hrun'; inversion Hrun'; subst c'.
      rewrite Hps in Hps'. inversion Hps'; subst ps'. exact Hfull.
    - intros Hnone pos Hsome. destruct Hobj as [_ Hp]. rewrite Hnone in Hp.
      rewrite (ensure_params_empty cp1250 c1 Hp) in Hens.
      destruct (read_params_spec cp1250 c1)
        as [(ps' & c' & Hrun' & Hps' & _ & Hexact)|(e & c' & Hrun' & _)];
        rewrite Hens in Hrun'; inversion Hrun'; subst c'.
      rewrite Hps in Hps'. inversion Hps'; subst ps'. apply Hexact, Hsome.
    - intros ps0 Hps0. destruct Hobj as [_ Hp]. rewrite Hps0 in Hp.
      rewrite (ensure_params_cached cp1250 c1 ps0 Hp) in Hens.
      inversion Hens; subst c2'. congruence. }
  destruct (run (ensure_params cp1250) c1) as [[[]|e] c2'] eqn:Hens.
  2:{ destruct Hout as [Hout _]. rewrite Hrun in Hout. discriminate. }
  destruct Hout as (ps & Hps & Hout).
  destruct (Z.of_nat (length data) =? 16) eqn:Hlen.
  2:{ rewrite Hrun in Hout. discriminate. }
  destruct Hout as (res' & Hrun' & Hres). rewrite Hrun in Hrun'.
  inversion Hrun'; subst res' c2'.
  destruct (Hdom c2 ps eq_refl Hps) as (Hfull & Hexact & Hsame).
  exists ps. split; [exact Hps|]. split; [exact Hfull|]. split; [exact Hexact|].
  split; [exact Hsame|].
  intros pos. rewrite Hres.
  destruct (Z.leb_spec 1 pos); cbn [andb].
  2:{ split; [intros [x Hx]; discriminate | lia]. }
  destruct (Z.leb_spec pos 16).
  2:{ split; [intros [x Hx]; discriminate | lia]. }
  apply Z.eqb_eq in Hlen.
  destruct (getitem_in_range data pos ltac:(lia)) as (b & _ & Hnth).
  rewrite Hnth. destruct (ps !! pos) as [p|].
  - destruct (used p) eqn:Hu.
    + split; [intros _; split; [lia | eauto] | eauto].
    + split; [intros [x Hx]; discriminate|].
      intros (_ & q & Hq & Huq). inversion Hq; subst q. congruence.
  - split; [intros [x Hx]; discriminate|].
    intros (_ & q & Hq & _). discriminate.
Qed.

(** X9.  When [get_current_temperatures] and then
    [get_required_temperatures] return dictionaries, the two have the same
    keys; if the cache was empty before the first poll, these are also the
    keys of the dictionary [get_parameters] returns afterwards, without
    touching the device. *)
Theorem polls_share_keys (c : client D) cur c1 req c2 :
  cache_invariant c ->
  run (get_current_temperatures cp1250) c = (Ok (Some cur), c1) ->
  run (get_required_temperatures cp1250) c1 = (Ok (Some req), c2) ->
  (forall pos, is_Some (cur !! pos) <-> is_Some (req !! pos)) /\
  (_params c = None ->
   exists zones,
     run (get_parameters cp1250) c2 = (Ok (Some zones), c2) /\
     forall pos, is_Some (cur !! pos) <-> is_Some (zones !! pos)).
Proof.
  intros Hinv Hcur Hreq.
  rewrite get_current_temperatures_polling in Hcur.
  rewrite get_required_temperatures_polling in Hreq.
  destruct (poll_keys decode_current_temp current_slot 0x60 c cur c1
              ltac:(reflexivity) Hinv Hcur)
    as (ps & Hps & Hfull & Hexact & _ & Hkeys).
  assert (Hinv1 : cache_invariant c1).
  { unfold cache_invariant. rewrite Hps. exact Hfull. }
  destruct (poll_keys decode_requirement required_slot 0x70 c1 req c2
              ltac:(reflexivity) Hinv1 Hreq)
    as (ps' & Hps' & _ & _ & Hsame & Hkeys').
  assert (ps' = ps) by (apply Hsame, Hps).
  subst ps'. split.
  - intros pos. rewrite Hkeys, Hkeys'. reflexivity.
  - intros Hnone. eexists. split; [apply get_parameters_cached, Hps'|].
    intros pos. rewrite Hkeys. split.
    + intros (_ & p & Hp & Hu). exists (limits_of p). apply listed_zone. eauto.
    + intros [l Hl]. apply listed_zone in Hl. destruct Hl as (p & Hp & Hu & _).
      split; [apply (Hexact Hnone); eauto | eauto].
Qed.

(** *** A device that does not answer *)

Lemma device_after_fixed (f : D -> answer * D) d k :
  snd (f d) = d -> device_after f k d = d.
Proof.
  intros Hfix. induction k as [|k IH]; cbn [device_after]; [reflexivity|].
  rewrite Hfix. exact IH.
Qed.

Lemma dead_read (c : client D) address count :
  connected (_client c) = true ->
  (forall a n kw,
     failed (fst (read_holding_registers a n kw (_client c))) = true /\
     snd (read_holding_registers a n kw (_client c)) = _client c) ->
  exists r,
    isError r = true /\
    run (async_read_holding_registers (_address c) address count) c =
      (Ok r,
       mk_client (_client c) (_address c) (_params c)
         (trace c ++ EvAcquire
          :: retry_events (EvRead address count) CONF_MODBUS_RETR
          ++ [EvRelease])).
Proof.
  intros Hconn Hdead.
  set (q := Read address count). set (kw := slave_kwargs (_address c)).
  assert (Hc1 : connected_client c = log EvAcquire c).
  { unfold connected_client, check_connection. cbn [run log _client].
    rewrite Hconn. reflexivity. }
  assert (Hfix : snd (transport_call q kw (_client c)) = _client c)
    by apply Hdead.
  assert (Hrep : forall i, reply (transport_call q kw) i (_client c)
                           = fst (transport_call q kw (_client c))).
  { intros i. unfold reply. rewrite device_after_fixed by exact Hfix. reflexivity. }
  destruct (failed_response _ (proj1 (Hdead address count kw)))
    as (r & Hr & Herr).
  change (fst (read_holding_registers address count kw (_client c)))
    with (fst (transport_call q kw (_client c))) in Hr.
  exists r. split; [exact Herr|].
  change (async_read_holding_registers (_address c) address count)
    with (perform q (_address c)).
  assert (Hatt : run (attempts CONF_MODBUS_RETR (request_op q kw) None)
                     (connected_client c)
                 = (Ok (Some r),
                    mk_client (_client c) (_address c) (_params c)
                      (trace c ++ EvAcquire
                       :: retry_events (EvRead address count) CONF_MODBUS_RETR))).
  { rewrite Hc1.
    rewrite (attempts_exhausted q kw CONF_MODBUS_RETR None (log EvAcquire c))
      by (intros i _; cbn [log _client]; rewrite Hrep; apply Hdead).
    cbn [log _client _address _params trace].
    rewrite device_after_fixed by exact Hfix.
    change (match CONF_MODBUS_RETR with
            | O => None
            | S m =>
                match reply (transport_call q kw) m (_client c) with
                | Response r0 => Some r0
                | Raises => None
                end
            end)
      with (match reply (transport_call q kw) 9 (_client c) with
            | Response r0 => Some r0
            | Raises => None
            end).
    rewrite Hrep, Hr, <- app_assoc. reflexivity. }
  rewrite (run_transaction_attempts q (_address c) c _ _ Hatt).
  unfold log. cbn [_client _address _params trace].
  rewrite <- !app_assoc. reflexivity.
Qed.

Lemma dead_population l : forall res (c : client D),
  connected (_client c) = true ->
  (forall a n kw,
     failed (fst (read_holding_registers a n kw (_client c))) = true /\
     snd (read_holding_registers a n kw (_client c)) = _client c) ->
  run (for_each l (read_params_slot cp1250) res) c =
    (Ok (fold_left (fun m pos => <[pos := timeout_position]> m) l res),
     mk_client (_client c) (_address c) (_params c)
       (trace c ++ exhausted_reads l)).
Proof.
  induction l as [|pos l IH]; intros res c Hconn Hdead.
  - cbn. rewrite app_nil_r. destruct c; reflexivity.
  - destruct (dead_read c (0x1100 + (pos - 1) * 0x10) 4 Hconn Hdead)
      as (r & Herr & Hrun).
    rewrite (config_timeout_continues cp1250 pos l res c r _ Hrun Herr).
    rewrite IH by (cbn [_client]; assumption).
    cbn [_client _address _params trace fold_left exhausted_reads].
    rewrite <- !app_assoc. reflexivity.
Qed.

Lemma timeouts_lookup l : forall (res : gmap Z position) pos,
  fold_left (fun m k => <[k := timeout_position]> m) l res !! pos =
    if decide (pos ∈ l) then Some timeout_position else res !! pos.
Proof.
  induction l as [|x l IH]; intros res pos; cbn [fold_left].
  - destruct (decide (pos ∈ [])) as [Hin|_]; [inversion Hin | reflexivity].
  - rewrite IH. destruct (decide (pos ∈ l)) as [Hin|Hnin].
    + rewrite decide_True by (right; exact Hin). reflexivity.
    + destruct (decide (pos = x)) as [->|Hne].
      * rewrite decide_True by left. apply lookup_insert_eq.
      * rewrite decide_False, lookup_insert_ne by
          (try congruence; intros Hc; apply elem_of_cons in Hc; tauto).
        reflexivity.
Qed.

(** X10.  A device that is connected but answers every
    read with an error.  [get_parameters] on an empty cache does not fail:
    it returns the empty dictionary after 16 transactions of ten attempts,
    each attempt followed by a sleep (352 log entries), and caches the
    entry [used = False], [name = "<timeout>"], [shift = 5], [step = 1]
    for each of the 16 positions. *)
Theorem dead_device_lists_no_zone (c : client D) :
  _params c = None ->
  connected (_client c) = true ->
  (forall a n kw,
     failed (fst (read_holding_registers a n kw (_client c))) = true /\
     snd (read_holding_registers a n kw (_client c)) = _client c) ->
  exists ps,
    run (get_parameters cp1250) c =
      (Ok (Some ∅),
       mk_client (_client c) (_address c) (Some ps)
         (trace c ++ exhausted_reads (seqZ 1 16))) /\
    (forall pos, 1 <= pos <= 16 -> ps !! pos = Some timeout_position) /\
    length (exhausted_reads (seqZ 1 16)) = (16 * (2 * 10 + 2))%nat.
Proof.
  intros Hnone Hconn Hdead.
  set (ps := fold_left (fun m pos => <[pos := timeout_position]> m)
               (seqZ 1 16) (∅ : gmap Z position)).
  assert (Hps : forall pos, ps !! pos =
            if decide (pos ∈ seqZ 1 16) then Some timeout_position else None).
  { intros pos. unfold ps. rewrite timeouts_lookup, lookup_empty. reflexivity. }
  exists ps. split; [|split; [|reflexivity]].
  - assert (Hempty : limits_of <$> filter (fun kv => used kv.2 = true) ps = ∅).
    { apply map_empty. intros pos.
      destruct ((limits_of <$> filter (fun kv => used kv.2 = true) ps) !! pos)
        as [l|] eqn:Hl; [|reflexivity].
      apply listed_zone in Hl. destruct Hl as (p & Hp & Hu & _).
      rewrite Hps in Hp. destruct (decide (pos ∈ seqZ 1 16)); [|discriminate].
      inversion Hp; subst p. discriminate. }
    unfold get_parameters. rewrite run_bind, (ensure_params_empty cp1250 c Hnone).
    unfold read_params. rewrite run_bind, dead_population by assumption.
    fold ps. cbn [run]. unfold set_params, ret.
    cbn [run _client _address _params trace]. rewrite Hempty. reflexivity.
  - intros pos Hpos. rewrite Hps, decide_True by (apply in_slot_range; exact Hpos).
    reflexivity.
Qed.

(** *** A population that raises *)

Lemma short_config_raises pos res (c : client D) r c1 params :
  run (async_read_holding_registers (_address c)
         (0x1100 + (pos - 1) * 0x10) 4) c = (Ok r, c1) ->
  isError r = false ->
  registers_bytes r = Ok params ->
  (length params < 3)%nat ->
  run (read_params_slot cp1250 pos res) c = (Raise IndexError, c1).
Proof.
  intros Hread Herr Hbytes Hlen. unfold read_params_slot. cbn [run].
  rewrite run_bind, Hread, Herr. rewrite run_bind. cbn [run lift].
  rewrite Hbytes. rewrite run_bind. cbn [run lift].
  assert (Hdec : decode_zone_params params = Raise IndexError).
  { destruct params as [|p0 [|p1 [|p2 rest]]]; cbn in Hlen; try lia; reflexivity. }
  rewrite Hdec. reflexivity.
Qed.

(** X11.  A configuration read of slot 1 that
    succeeds with fewer than three registers makes the indexing of lines
    147-149 raise: [get_parameters] on an empty cache ends in [IndexError]
    right after that read, no other slot is read, and the cache stays
    empty. *)
Theorem short_config_aborts_population (c : client D) r c1 params :
  _params c = None ->
  run (async_read_holding_registers (_address c) 0x1100 4) c = (Ok r, c1) ->
  isError r = false ->
  registers_bytes r = Ok params ->
  (length params < 3)%nat ->
  run (get_parameters cp1250) c = (Raise IndexError, c1) /\
  _params c1 = None.
Proof.
  intros Hnone Hread Herr Hbytes Hlen.
  destruct (run_async_read (_address c) 0x1100 4 c)
    as (r' & c' & Hr' & [_ Hp] & _).
  rewrite Hread in Hr'. inversion Hr'; subst r' c'.
  split; [|congruence].
  unfold get_parameters. rewrite run_bind, (ensure_params_empty cp1250 c Hnone).
  unfold read_params. rewrite run_bind.
  change (seqZ 1 16) with (1 :: seqZ 2 15). cbn [for_each]. rewrite run_bind.
  rewrite (short_config_raises 1 ∅ c r c1 params Hread Herr Hbytes Hlen).
  reflexivity.
Qed.

(** X12.  When [__read_params] raises, [self._params] is what it was:
    the assignment of line 169 is not reached, so an empty cache stays
    empty and the entries of the slots read before the exception are
    dropped.  The exception is the [ModbusException] of the client, the
    [AttributeError] of [registers] read on a response without them, the
    [ValueError] of [bytes], the [IndexError] of an index beyond the
    configuration block, or the [UnicodeDecodeError] of [decode]. *)
Theorem raising_population_sets_no_cache (c : client D) e c' :
  run (read_params cp1250) c = (Raise e, c') ->
  _params c' = _params c /\ _address c' = _address c /\
  (e = ModbusException \/ e = AttributeError \/ e = ValueError \/
   e = IndexError \/ e = UnicodeDecodeError).
Proof.
  intros Hrun.
  destruct (read_params_spec cp1250 c)
    as [(ps & c'' & Hrun' & _)|(e' & c'' & Hrun' & He & [Ha Hp])];
    rewrite Hrun in Hrun'; inversion Hrun'; subst.
  split; [exact Hp|]. split; [exact Ha|].
  destruct He as [->|[->|[->|[->| ->]]]]; auto 6.
Qed.

(** *** What a slot stores *)

Lemma decode_zone_params_range params u sh st :
  Forall (fun b => 0 <= b < 256) params ->
  decode_zone_params params = Ok (u, sh, st) ->
  -32 <= sh <= 31 /\ 1 <= st <= 4.
Proof.
  intros Hall. unfold decode_zone_params.
  destruct (getitem params 0) as [p0|] eqn:H0; [|discriminate]. cbn [result_bind].
  destruct (getitem params 2) as [p2|] eqn:H2; [|discriminate]. cbn [result_bind].
  intros Heq. inversion Heq; subst. clear Heq.
  assert (Hb : 0 <= p2 < 256).
  { unfold getitem in H2. destruct (_ && _); [|discriminate].
    destruct (nth_error params _) as [x|] eqn:Hn; [|discriminate].
    inversion H2; subst x. rewrite Forall_forall in Hall. apply Hall.
    apply list_elem_of_In. eapply nth_error_In, Hn. }
  rewrite land_3F, high_two_bits by exact Hb.
  pose proof (Z.mod_pos_bound p2 64 ltac:(lia)) as Hm.
  rewrite sign_correction by exact Hm.
  assert (0 <= p2 / 64 < 4)
    by (split; [apply Z.div_pos; lia | apply Z.div_lt_upper_bound; lia]).
  destruct (p2 mod 64 <? 32) eqn:Hlt; [apply Z.ltb_lt in Hlt | apply Z.ltb_ge in Hlt];
    lia.
Qed.

Lemma read_params_slot_entry pos res (c : client D) res' c' :
  run (read_params_slot cp1250 pos res) c = (Ok res', c') ->
  exists p, res' = <[pos := p]> res /\ entry_in_range p.
Proof.
  unfold read_params_slot. cbn [run]. rewrite run_bind.
  destruct (run_async_read (_address c) (0x1100 + (pos - 1) * 0x10) 4 c)
    as (o & c1 & Hr & Hobj1 & _).
  rewrite Hr. destruct o as [r|e]; [|discriminate]. destruct (isError r).
  - cbn. intros Heq. inversion Heq; subst. exists timeout_position.
    split; [reflexivity|]. unfold entry_in_range. cbn.
    split; [lia|]. split; [lia|]. auto.
  - rewrite run_bind. cbn [run lift].
    destruct (registers_bytes r) as [params|e] eqn:Hb; [|discriminate].
    apply registers_bytes_inv in Hb. destruct Hb as [_ Hall].
    rewrite run_bind. cbn [run lift].
    destruct (decode_zone_params params) as [[[u sh] st]|e] eqn:Hd;
      [|discriminate].
    pose proof (decode_zone_params_range _ _ _ _ Hall Hd) as Hrange.
    rewrite run_bind. destruct u.
    + rewrite run_bind. cbn [run].
      destruct (run_async_read (_address c1) (0x1030 + (pos - 1) * 8) 8 c1)
        as (o2 & c2 & Hr2 & Hobj2 & _).
      rewrite Hr2. destruct o2 as [r2|e]; [|discriminate].
      rewrite run_bind. cbn [run lift].
      destruct (registers_bytes r2) as [nm|e]; [|discriminate].
      cbn [run lift].
      match goal with
      | |- context [decode ?t ?n] => destruct (decode t n) as [s|e]
      end; [|discriminate].
      cbn. intros Heq. inversion Heq; subst. eexists. split; [reflexivity|].
      unfold entry_in_range. cbn. split; [apply Hrange|].
      split; [apply Hrange | discriminate].
    + cbn. intros Heq. inversion Heq; subst. eexists. split; [reflexivity|].
      unfold entry_in_range. cbn. split; [apply Hrange|].
      split; [apply Hrange | auto].
Qed.

Lemma read_params_loop_entries l : forall res (c : client D) res' c',
  (forall pos p, res !! pos = Some p -> entry_in_range p) ->
  run (for_each l (read_params_slot cp1250) res) c = (Ok res', c') ->
  forall pos p, res' !! pos = Some p -> entry_in_range p.
Proof.
  induction l as [|x l IH]; intros res c res' c' Hres Hrun.
  - cbn in Hrun. inversion Hrun; subst. exact Hres.
  - cbn [for_each] in Hrun. rewrite run_bind in Hrun.
    destruct (run (read_params_slot cp1250 x res) c) as [[res1|e1] c1] eqn:Hslot;
      [|discriminate].
    destruct (read_params_slot_entry x res c res1 c1 Hslot) as (p & -> & Hp).
    apply (IH (<[x := p]> res) c1 res' c'); [|exact Hrun].
    intros pos q Hq. destruct (decide (x = pos)) as [->|Hne].
    + rewrite lookup_insert_eq in Hq. inversion Hq; subst q. exact Hp.
    + rewrite lookup_insert_ne in Hq by exact Hne. eapply Hres, Hq.
Qed.

(** X13.  Every entry [__read_params] caches has [shift]
    from -32 to 31 and [step] from 1 to 4.  So the limits [get_parameters]
    publishes satisfy [-124 <= min < max <= 244] and
    [max - min = 29 * step], an entry with [used] unset has the empty name
    or is the timeout entry, and the division by [step] in
    [set_temporary_temperature] cannot raise [ZeroDivisionError] on a
    cached entry. *)
Theorem cached_entries_in_range (c c' : client D) ps pos p :
  run (read_params cp1250) c = (Ok tt, c') ->
  _params c' = Some ps ->
  ps !! pos = Some p ->
  (-32 <= shift p <= 31 /\ 1 <= step p <= 4) /\
  (-124 <= lim_min (limits_of p) /\
   lim_min (limits_of p) < lim_max (limits_of p) /\
   lim_max (limits_of p) <= 244) /\
  lim_max (limits_of p) - lim_min (limits_of p) = 29 * step p /\
  (used p = false -> name p = [] \/ p = timeout_position) /\
  forall temperature,
    exists raw, target_raw_level temperature p = Ok raw.
Proof.
  intros Hrun Hps Hp. unfold read_params in Hrun. rewrite run_bind in Hrun.
  destruct (run (for_each (seqZ 1 16) (read_params_slot cp1250) ∅) c)
    as [[res|e] c1] eqn:Hloop; [|discriminate].
  cbn in Hrun. inversion Hrun; subst c'. cbn in Hps. inversion Hps; subst ps.
  assert (Hrange : entry_in_range p).
  { eapply (read_params_loop_entries (seqZ 1 16) ∅ c res c1); eauto.
    intros k q Hq. rewrite lookup_empty in Hq. discriminate. }
  destruct Hrange as (Hsh & Hst & Hname). split; [auto|].
  cbn [limits_of lim_min lim_max].
  split; [nia|]. split; [lia|]. split; [exact Hname|].
  intros temperature. eexists. apply target_raw_level_value. lia.
Qed.

(** *** The name of a zone *)

Lemma find_from_spec data : forall i,
  0 <= i ->
  (find_from 0 data i = -1 /\ ~ In 0 data) \/
  (exists kept rest,
     data = kept ++ 0 :: rest /\ ~ In 0 kept /\
     find_from 0 data i = i + Z.of_nat (length kept)).
Proof.
  induction data as [|x data IH]; intros i Hi; cbn [find_from].
  - left. split; [reflexivity | intros []].
  - destruct (Z.eqb_spec x 0) as [->|Hne].
    + right. exists [], data. cbn. split; [reflexivity|]. split; [tauto | lia].
    + destruct (IH (i + 1) ltac:(lia)) as [[Hf Hnin]|(kept & rest & -> & Hnin & Hf)].
      * left. split; [exact Hf|]. cbn. intros [Hx|Hin]; [congruence | tauto].
      * right. exists (x :: kept), rest. split; [reflexivity|]. split.
        -- cbn. intros [Hx|Hin]; [congruence | tauto].
        -- rewrite Hf. cbn [length]. lia.
Qed.

Lemma decode_pointwise l : forall s,
  decode cp1250 l = Ok s -> Forall2 (fun b u => cp1250 b = Some u) l s.
Proof.
  induction l as [|b l IH]; intros s; cbn [decode].
  - intros Heq. inversion Heq. constructor.
  - destruct (cp1250 b) as [u|] eqn:Hu; [|discriminate].
    destruct (decode cp1250 l) as [t|] eqn:Ht; [|discriminate].
    cbn. intros Heq. inversion Heq; subst. constructor; auto.
Qed.

Lemma name_cut_spec (nm : list Z) (s : list Z) :
  decode cp1250
    (if negb (find nm 0 =? -1) then slice nm 0 (find nm 0) else nm) = Ok s ->
  exists kept rest,
    nm = kept ++ rest /\
    ~ In 0 kept /\
    (rest = [] \/ exists rest', rest = 0 :: rest') /\
    Forall2 (fun b u => cp1250 b = Some u) kept s.
Proof.
  unfold find.
  destruct (find_from_spec nm 0 ltac:(lia))
    as [[Hf Hnin]|(kept & rest & Hnm & Hnin & Hf)].
  - rewrite Hf. cbn [Z.eqb negb]. intros Hdec.
    exists nm, []. rewrite app_nil_r. repeat split; auto using decode_pointwise.
  - rewrite Hf. destruct (Z.eqb_spec (0 + Z.of_nat (length kept)) (-1)); [lia|].
    cbn [negb]. unfold slice. rewrite Z.sub_0_r, Z.add_0_l, Nat2Z.id.
    change (Z.to_nat 0) with 0%nat. subst nm.
    change (skipn 0 (kept ++ 0 :: rest)) with (kept ++ 0 :: rest).
    rewrite firstn_app, firstn_all, Nat.sub_diag. cbn [firstn].
    rewrite app_nil_r. intros Hdec.
    exists kept, (0 :: rest). repeat split; eauto using decode_pointwise.
Qed.

(** X14.  The name [__read_params] stores for a slot whose
    configuration read succeeded.  If the zone is not used, the name is
    empty and the name block is not read.  If it is used, the name is the
    [cp1250] decoding, byte by byte, of the registers of the name response
    up to the first zero register (of all of them when none is zero);
    what follows that zero is dropped. *)
Theorem name_is_text_before_nul pos res (c : client D) r c1 r2 c2 res' c' :
  run (async_read_holding_registers (_address c)
         (0x1100 + (pos - 1) * 0x10) 4) c = (Ok r, c1) ->
  isError r = false ->
  run (async_read_holding_registers (_address c)
         (0x1030 + (pos - 1) * 8) 8) c1 = (Ok r2, c2) ->
  run (read_params_slot cp1250 pos res) c = (Ok res', c') ->
  exists p,
    res' = <[pos := p]> res /\
    (used p = false -> name p = [] /\ c' = c1) /\
    (used p = true ->
     c' = c2 /\
     exists kept rest,
       registers r2 = Some (kept ++ rest) /\
       ~ In 0 kept /\
       (rest = [] \/ exists rest', rest = 0 :: rest') /\
       Forall2 (fun b u => cp1250 b = Some u) kept (name p)).
Proof.
  intros Hr Herr Hr2. unfold read_params_slot. cbn [run]. rewrite run_bind.
  rewrite Hr, Herr. rewrite run_bind. cbn [run lift].
  destruct (run_async_read (_address c) (0x1100 + (pos - 1) * 0x10) 4 c)
    as (r' & c1' & Hr' & [Ha _] & _).
  rewrite Hr in Hr'. inversion Hr'; subst r' c1'.
  destruct (registers_bytes r) as [params|e] eqn:Hb; [|discriminate].
  rewrite run_bind. cbn [run lift].
  destruct (decode_zone_params params) as [[[u sh] st]|e] eqn:Hd; [|discriminate].
  rewrite run_bind. destruct u.
  - rewrite run_bind. cbn [run]. rewrite Ha, Hr2.
    rewrite run_bind. cbn [run lift].
    destruct (registers_bytes r2) as [nm|e] eqn:Hb2; [|discriminate].
    apply registers_bytes_inv in Hb2. destruct Hb2 as [Hnm _].
    cbn [run lift].
    match goal with
    | |- context [decode ?t ?n] => destruct (decode t n) as [s|e] eqn:Hdec
    end; [|discriminate].
    cbn. intros Heq. inversion Heq; subst res' c'. eexists.
    split; [reflexivity|]. cbn [used name]. split; [discriminate|].
    intros _. split; [reflexivity|]. rewrite Hnm.
    destruct (name_cut_spec nm s Hdec) as (kept & rest & -> & Hk).
    exists kept, rest. split; [reflexivity | exact Hk].
  - cbn. intros Heq. inversion Heq; subst res' c'. eexists.
    split; [reflexivity|]. cbn [used name]. split; [auto | discriminate].
Qed.

(** *** Flooring *)

Lemma Qfloor_unique (x : Q) (z : Z) :
  (inject_Z z <= x)%Q -> (x < inject_Z (z + 1))%Q -> Qfloor x = z.
Proof.
  intros Hle Hlt.
  assert (H1 : z <= Qfloor x).
  { rewrite <- (Qfloor_Z z). apply Qfloor_resp_le, Hle. }
  assert (H2 : Qfloor x < z + 1).
  { rewrite Zlt_Qlt. eapply Qle_lt_trans; [apply Qfloor_le | exact Hlt]. }
  lia.
Qed.

(** X15.  For [step >= 1], [floor(temperature) // step] of
    line 71 is the floor of [temperature / step]: flooring first loses
    nothing, for negative and fractional temperatures too.  The level
    written is that floor minus [shift], reduced to five bits. *)
Theorem floor_then_floordiv (temperature : Q) (p : position) :
  1 <= step p ->
  floordiv (floor temperature) (step p) =
    Ok (Qfloor (temperature / inject_Z (step p))) /\
  target_raw_level temperature p =
    Ok (Z.land (Qfloor (temperature / inject_Z (step p)) - shift p) 0x1F).
Proof.
  intros Hstep.
  assert (Heq : Qfloor temperature / step p
                = Qfloor (temperature / inject_Z (step p))).
  { symmetry. set (n := step p) in *. set (z := Qfloor temperature / n).
    assert (Hn : (inject_Z 0 < inject_Z n)%Q) by (rewrite <- Zlt_Qlt; lia).
    change (inject_Z 0) with 0%Q in Hn.
    pose proof (Z.mul_div_le (Qfloor temperature) n ltac:(lia)) as Hlo.
    pose proof (Z.mul_succ_div_gt (Qfloor temperature) n ltac:(lia)) as Hhi.
    fold z in Hlo, Hhi.
    apply Qfloor_unique.
    - apply Qle_shift_div_l; [exact Hn|].
      rewrite <- inject_Z_mult. eapply Qle_trans; [|apply Qfloor_le].
      rewrite <- Zle_Qle. lia.
    - apply Qlt_shift_div_r; [exact Hn|].
      rewrite <- inject_Z_mult. eapply Qlt_le_trans; [apply Qlt_floor|].
      rewrite <- Zle_Qle. unfold Z.succ in Hhi. lia. }
  unfold target_raw_level, floordiv, floor.
  destruct (Z.eqb_spec (step p) 0); [lia|]. cbn [result_bind].
  rewrite Heq. split; reflexivity.
Qed.
End Outcomes.

(** ** The lock, once more *)

Section Progress.
Context {D : Type} `{Transport D}.

Lemma owner_update (s : system D) i t x l (c : client D) h :
  lock_owner_live s ->
  tasks s !! i = Some t ->
  l = _lock s \/ l = Some i \/ l = None ->
  lock_owner_live (mk_system c l (<[i := x]> (tasks s)) h).
Proof.
  intros Hlive Ht Hl j Hj. cbn [_lock tasks] in *.
  apply lookup_lt_is_Some. rewrite length_insert.
  destruct Hl as [->|[->| ->]].
  - apply lookup_lt_is_Some, Hlive, Hj.
  - inversion Hj; subst j. eapply lookup_lt_Some, Ht.
  - discriminate.
Qed.

Lemma advance_owner (s s' : system D) i :
  lock_owner_live s -> advance i s = Some s' -> lock_owner_live s'.
Proof.
  intros Hlive Hstep. unfold advance in Hstep.
  destruct (tasks s !! i) as [t|] eqn:Ht; [|discriminate].
  destruct (code t);
    repeat match type of Hstep with
           | match _lock s with _ => _ end = _ =>
               destruct (_lock s) eqn:Hl; try discriminate
           | (if awaiting t then _ else _) = _ => destruct (awaiting t)
           | (let (_, _) := ?x in _) = _ => destruct x
           end;
    try discriminate; inversion Hstep; subst s';
    unfold resume, issue, complete, with_lock, with_self;
    cbn [self _lock tasks history];
    eapply owner_update; eauto.
Qed.

Lemma exec_owner schedule : forall (s s' : system D),
  lock_owner_live s -> exec schedule s = Some s' -> lock_owner_live s'.
Proof.
  induction schedule as [|i rest IH]; intros s s' Hlive Hexec; cbn in Hexec.
  - inversion Hexec; subst. exact Hlive.
  - destruct (advance i s) as [s1|] eqn:Hstep; [|discriminate].
    eapply IH; [|exact Hexec]. eapply advance_owner; eauto.
Qed.

Lemma holder_can_move (s : system D) i t :
  tasks s !! i = Some t ->
  _lock s = Some i ->
  gated true false (code t) ->
  finished t = false /\ is_Some (advance i s).
Proof.
  intros Ht Hl Hg. apply gated_inv in Hg. unfold advance, finished.
  rewrite Ht. destruct (code t).
  - discriminate.
  - destruct Hg as [Hh _]. discriminate.
  - rewrite Hl. split; [reflexivity | eauto].
  - split; [reflexivity | eauto].
  - split; [reflexivity|]. destruct (awaiting t); [|eauto].
    destruct (connect (_client (self s))). eauto.
  - split; [reflexivity|]. destruct (awaiting t); [|eauto].
    destruct (read_holding_registers address count kwargs (_client (self s))).
    eauto.
  - split; [reflexivity|]. destruct (awaiting t); [|eauto].
    destruct (write_registers address values kwargs (_client (self s))). eauto.
  - split; [reflexivity | eauto].
  - split; [reflexivity | eauto].
  - split; [reflexivity | eauto].
  - split; [reflexivity | eauto].
Qed.

Lemma waiter_can_move (s : system D) i t :
  tasks s !! i = Some t ->
  _lock s = None ->
  gated false false (code t) ->
  finished t = false ->
  is_Some (advance i s).
Proof.
  intros Ht Hl Hg Hf. apply gated_inv in Hg. unfold advance.
  unfold finished in Hf. rewrite Ht. destruct (code t).
  - discriminate.
  - rewrite Hl. eauto.
  - destruct Hg as [Hh _]. discriminate.
  - eauto.
  - destruct Hg as [Hh _]. discriminate.
  - destruct Hg as [Hh _]. discriminate.
  - destruct Hg as [Hh _]. discriminate.
  - eauto.
  - eauto.
  - eauto.
  - eauto.
Qed.

(** X16.  The lock cannot block the tasks for good.
    Whatever calls of the public methods run as tasks on one client
    object, and however far a schedule has taken them: if every task has
    finished, the lock is free, and if some task has not, at least one
    task can make its next move. *)
Theorem gate_never_deadlocks (cp1250 : Z -> option Z)
  (calls : list (prog unit)) (c : client D) (schedule : list nat)
  (s : system D) :
  Forall (facade_call cp1250) calls ->
  exec schedule (spawn calls c) = Some s ->
  (forallb finished (tasks s) = true -> _lock s = None) /\
  (forallb finished (tasks s) = false -> exists i, is_Some (advance i s)).
Proof.
  intros Hcalls Hexec.
  assert (Hinv : gate_invariant s).
  { eapply exec_invariant; [|exact Hexec]. apply spawn_invariant.
    eapply Forall_impl; [exact Hcalls|]. apply gated_facade_call. }
  assert (Hlive : lock_owner_live s).
  { eapply exec_owner; [|exact Hexec]. intros i Hi. discriminate. }
  destruct Hinv as [Hfit _].
  assert (Hheld : forall i, _lock s = Some i ->
            exists t, tasks s !! i = Some t /\ finished t = false /\
                      is_Some (advance i s)).
  { intros i Hi. destruct (Hlive i Hi) as [t Ht]. exists t. split; [exact Ht|].
    apply holder_can_move; [exact Ht | exact Hi|].
    destruct (Hfit i t Ht) as [Hg _]. unfold holds in Hg.
    rewrite bool_decide_eq_true_2 in Hg by exact Hi. exact Hg. }
  split.
  - intros Hall. destruct (_lock s) as [i|] eqn:Hl; [|reflexivity]. exfalso.
    destruct (Hheld i eq_refl) as (t & Ht & Hf & _).
    rewrite forallb_forall in Hall.
    rewrite Hall in Hf; [discriminate|].
    apply list_elem_of_In, list_elem_of_lookup. eauto.
  - intros Hsome. destruct (_lock s) as [i|] eqn:Hl.
    + destruct (Hheld i eq_refl) as (t & _ & _ & Hmove). eauto.
    + assert (Hex : exists i t, tasks s !! i = Some t /\ finished t = false).
      { clear -Hsome. induction (tasks s) as [|t l IH]; [discriminate|].
        cbn in Hsome. destruct (finished t) eqn:Hf.
        - destruct (IH Hsome) as (i & t' & Hi & Hf'). exists (S i), t'. auto.
        - exists 0%nat, t. auto. }
      destruct Hex as (i & t & Ht & Hf). exists i.
      apply (waiter_can_move s i t Ht Hl); [|exact Hf].
      destruct (Hfit i t Ht) as [Hg _]. unfold holds in Hg.
      rewrite Hl, bool_decide_eq_false_2 in Hg by discriminate. exact Hg.
Qed.
End Progress.

(** ** Concrete runs *)

(** A client that cannot connect: [__check_connection] gets [False] from
    [connect], the transaction drops that result, and the read raises on
    its first attempt; the lock is released. *)
Lemma offline_read_raises :
  run (async_read_holding_registers 1 0x60 16) (fresh_client Offline) =
    (Raise ModbusException,
     mk_client Offline 1 None
       [EvAcquire; EvConnect; EvRead 0x60 16; EvRelease]).
Proof. reflexivity. Qed.

Lemma set_mode_outcomes_witness :
  exists c1 r2 c2,
    run (async_read_holding_registers 1 0x1103 6) (fresh_client mode_memory) =
      (Ok (mk_response false (Some [0x40; 1; 2; 3; 4; 5])), c1) /\
    run (async_write_register 1 0x1103 [0x40; 0x10; 0x80; 0x10; 0x80]) c1 =
      (Ok r2, c2) /\
    run (set_mode 1 true) (fresh_client mode_memory) =
      (Ok (negb (isError r2)), c2).
Proof.
  pose (c := fresh_client mode_memory).
  pose (r1 := mk_response false (Some [0x40; 1; 2; 3; 4; 5])).
  pose (c1 := snd (run (async_read_holding_registers 1 0x1103 6) c)).
  assert (Hread : run (async_read_holding_registers (_address c)
                         (0x1100 + (1 - 1) * 0x10 + 0x03) 6) c = (Ok r1, c1))
    by (vm_compute; reflexivity).
  destruct (set_mode_outcomes c 1 true r1 c1 Hread) as [_ Hrun].
  change (isError r1) with false in Hrun.
  change (registers_bytes r1) with (Ok [0x40; 1; 2; 3; 4; 5]) in Hrun.
  cbv iota beta in Hrun.
  destruct (run (async_write_register (_address c)
                   (0x1100 + (1 - 1) * 0x10 + 0x03)
                   [Z.land 0x40 0xDF; 0x10; 0x80; 0x10; 0x80]) c1)
    as [[r2|e] c2] eqn:Hwrite.
  - exists c1, r2, c2. split; [exact Hread|]. split; [exact Hwrite | exact Hrun].
  - exfalso. revert Hwrite. vm_compute. discriminate.
Defined.

Lemma mode_payload_composes_witness :
  mode_payload ([0x40; 0x10; 0x80; 0x10; 0x80] ++ [5]) false =
    Ok [0x60; 0x10; 0x80; 0x10; 0x80] /\
  mode_payload ([0x60; 1; 2; 3; 4] ++ [5]) true =
    Ok [0x40; 0x10; 0x80; 0x10; 0x80].
Proof.
  assert (Hb : 0 <= 0x40 < 256) by lia.
  assert (Hlen : (4 <= length [1; 2; 3; 4; 5])%nat) by (cbn; lia).
  destruct (mode_payload_composes 0x40 [1; 2; 3; 4; 5] Hb Hlen)
    as (_ & _ & Htail).
  destruct (Htail [5]) as (_ & _ & Hmanual & Hauto).
  split; [exact Hmanual | exact Hauto].
Defined.

Lemma temporary_payload_fields_witness :
  exists first s1 s0 e1 e0,
    temporary_payload [0xC5] 10 13626 13634 = Ok [first; s1; s0; e1; e0] /\
    first mod 32 = 10 /\
    Z.testbit first 5 = false /\
    first / 64 = 3 /\
    256 * s1 + s0 = 13626 /\
    256 * e1 + e0 = 13634.
Proof.
  assert (Hb : 0 <= 0xC5 < 256) by lia.
  assert (Hraw : target_raw_level (22 # 1) (mk_position true [] 1 2) = Ok 10)
    by reflexivity.
  assert (Hs : 0 <= 13626 < 65536) by lia.
  assert (He : 0 <= 13634 < 65536) by lia.
  destruct (temporary_payload_fields 0xC5 [] (22 # 1) (mk_position true [] 1 2)
              10 13626 13634 Hb Hraw Hs He)
    as (first & s1 & s0 & e1 & e0 & Hp & _ & H1 & H2 & H3 & H4 & H5).
  exists first, s1, s0, e1, e0. auto 10.
Defined.

Lemma time_of_year_fields_witness :
  get_toy (mk_datetime 2024 3 10 14 32) / 4096 = 3 /\
  (get_toy (mk_datetime 2024 3 10 14 32) mod 4096) / 128 = 10 /\
  (get_toy (mk_datetime 2024 3 10 14 32) mod 128) / 4 = 14 /\
  get_toy (mk_datetime 2024 3 10 14 32) mod 4 = 2.
Proof.
  assert (Hd : valid_datetime (mk_datetime 2024 3 10 14 32))
    by (unfold valid_datetime; cbn; lia).
  exact (proj1 (time_of_year_fields (mk_datetime 2024 3 10 14 32) Hd)).
Defined.

Lemma current_temperatures_outcomes_witness :
  exists res c2,
    run (get_current_temperatures ascii_table) (fresh_client zone3_memory) =
      (Ok (Some res), c2) /\
    res !! 3 = Some 2 /\
    res !! 4 = None /\
    res !! 17 = None.
Proof.
  pose (c := fresh_client zone3_memory).
  pose (data := repeat 0 16).
  pose (r := mk_response false (Some data)).
  pose (c1 := snd (run (async_read_holding_registers 1 0x60 16) c)).
  pose (c2 := snd (run (ensure_params ascii_table) c1)).
  assert (Hinv : cache_invariant c) by exact I.
  assert (Hr : run (async_read_holding_registers (_address c) 0x60 16) c
               = (Ok r, c1)) by (vm_compute; reflexivity).
  assert (Hens : run (ensure_params ascii_table) c1 = (Ok tt, c2))
    by (vm_compute; reflexivity).
  pose proof (current_temperatures_outcomes ascii_table c Hinv) as Hout.
  rewrite Hr in Hout.
  change (registers_bytes r) with (Ok data) in Hout. cbv iota beta in Hout.
  rewrite Hens in Hout. destruct Hout as (ps & Hps & Hout).
  change (Z.of_nat (length data) =? 16) with true in Hout. cbv iota in Hout.
  destruct Hout as (res & Hrun & Hres).
  assert (H3 : _params c2 ≫= (fun m => m !! 3) = Some (mk_position true [] 1 2))
    by (vm_compute; reflexivity).
  assert (H4 : _params c2 ≫= (fun m => m !! 4) = Some (mk_position false [] 0 1))
    by (vm_compute; reflexivity).
  rewrite Hps in H3, H4. cbn [mbind option_bind] in H3, H4.
  exists res, c2. split; [exact Hrun|].
  rewrite !Hres, H3, H4. repeat split; reflexivity.
Defined.

Lemma required_temperatures_outcomes_witness :
  exists res c2,
    run (get_required_temperatures ascii_table)
        (fresh_client requirement_memory) = (Ok (Some res), c2) /\
    res !! 3 = Some (mk_requirement 12 2) /\
    res !! 4 = None.
Proof.
  pose (c := fresh_client requirement_memory).
  pose (data := [0; 0; 0x45; 0; 0; 0; 0; 0; 0; 0; 0; 0; 0; 0; 0; 0]).
  pose (r := mk_response false (Some data)).
  pose (c1 := snd (run (async_read_holding_registers 1 0x70 16) c)).
  pose (c2 := snd (run (ensure_params ascii_table) c1)).
  assert (Hinv : cache_invariant c) by exact I.
  assert (Hr : run (async_read_holding_registers (_address c) 0x70 16) c
               = (Ok r, c1)) by (vm_compute; reflexivity).
  assert (Hens : run (ensure_params ascii_table) c1 = (Ok tt, c2))
    by (vm_compute; reflexivity).
  pose proof (required_temperatures_outcomes ascii_table c Hinv) as Hout.
  rewrite Hr in Hout.
  change (registers_bytes r) with (Ok data) in Hout. cbv iota beta in Hout.
  rewrite Hens in Hout. destruct Hout as (ps & Hps & Hout).
  change (Z.of_nat (length data) =? 16) with true in Hout. cbv iota in Hout.
  destruct Hout as (res & Hrun & Hres).
  assert (H3 : _params c2 ≫= (fun m => m !! 3) = Some (mk_position true [] 1 2))
    by (vm_compute; reflexivity).
  assert (H4 : _params c2 ≫= (fun m => m !! 4) = Some (mk_position false [] 0 1))
    by (vm_compute; reflexivity).
  rewrite Hps in H3, H4. cbn [mbind option_bind] in H3, H4.
  exists res, c2. split; [exact Hrun|].
  rewrite !Hres, H3, H4. repeat split; reflexivity.
Defined.

Lemma polls_share_keys_witness :
  exists cur c1 req c2,
    run (get_current_temperatures ascii_table) (fresh_client zone3_memory) =
      (Ok (Some cur), c1) /\
    run (get_required_temperatures ascii_table) c1 = (Ok (Some req), c2) /\
    cur !! 3 = Some 2 /\
    forall pos, is_Some (cur !! pos) <-> is_Some (req !! pos).
Proof.
  pose (c := fresh_client zone3_memory).
  pose (cur := ({[ 3 := 2 ]} : gmap Z Z)).
  pose (req := ({[ 3 := mk_requirement 2 0 ]} : gmap Z requirement)).
  pose (c1 := snd (run (get_current_temperatures ascii_table) c)).
  pose (c2 := snd (run (get_required_temperatures ascii_table) c1)).
  assert (Hinv : cache_invariant c) by exact I.
  assert (Hcur : run (get_current_temperatures ascii_table) c
                 = (Ok (Some cur), c1)) by (vm_compute; reflexivity).
  assert (Hreq : run (get_required_temperatures ascii_table) c1
                 = (Ok (Some req), c2)) by (vm_compute; reflexivity).
  exists cur, c1, req, c2. split; [exact Hcur|]. split; [exact Hreq|].
  split; [reflexivity|].
  exact (proj1 (polls_share_keys ascii_table c cur c1 req c2 Hinv Hcur Hreq)).
Defined.

Lemma dead_device_lists_no_zone_witness :
  exists ps,
    run (get_parameters ascii_table) (fresh_client dead_table) =
      (Ok (Some ∅),
       mk_client dead_table 1 (Some ps) (exhausted_reads (seqZ 1 16))) /\
    ps !! 16 = Some timeout_position.
Proof.
  pose (c := fresh_client dead_table).
  assert (Hnone : _params c = None) by reflexivity.
  assert (Hconn : connected (_client c) = true) by reflexivity.
  assert (Hdead : forall a n kw,
            failed (fst (read_holding_registers a n kw (_client c))) = true /\
            snd (read_holding_registers a n kw (_client c)) = _client c)
    by (intros a n kw; split; reflexivity).
  destruct (dead_device_lists_no_zone ascii_table c Hnone Hconn Hdead)
    as (ps & Hrun & Hps & _).
  exists ps. split; [exact Hrun|]. apply Hps. lia.
Defined.

Lemma short_config_aborts_population_witness :
  fst (run (get_parameters ascii_table) (fresh_client short_config_device)) =
    Raise IndexError.
Proof.
  pose (c := fresh_client short_config_device).
  pose (r := mk_response false (Some [0x01; 0x00])).
  pose (c1 := snd (run (async_read_holding_registers 1 0x1100 4) c)).
  assert (Hnone : _params c = None) by reflexivity.
  assert (Hread : run (async_read_holding_registers (_address c) 0x1100 4) c
                  = (Ok r, c1)) by (vm_compute; reflexivity).
  assert (Herr : isError r = false) by reflexivity.
  assert (Hbytes : registers_bytes r = Ok [0x01; 0x00]) by reflexivity.
  assert (Hlen : (length [0x01; 0x00] < 3)%nat) by (cbn; lia).
  destruct (short_config_aborts_population ascii_table c r c1 [0x01; 0x00]
              Hnone Hread Herr Hbytes Hlen) as [Hrun _].
  fold c. rewrite Hrun. reflexivity.
Defined.

Lemma raising_population_sets_no_cache_witness :
  _params (snd (run (read_params ascii_table)
                  (fresh_client short_config_device))) = None.
Proof.
  pose (c := fresh_client short_config_device).
  pose (c' := snd (run (read_params ascii_table) c)).
  assert (Hrun : run (read_params ascii_table) c = (Raise IndexError, c'))
    by (vm_compute; reflexivity).
  exact (proj1 (raising_population_sets_no_cache ascii_table c IndexError c'
                  Hrun)).
Defined.

Lemma cached_entries_in_range_witness :
  -124 <= lim_min (limits_of (mk_position true [] 1 2)) /\
  lim_min (limits_of (mk_position true [] 1 2))
    < lim_max (limits_of (mk_position true [] 1 2)) /\
  lim_max (limits_of (mk_position true [] 1 2)) <= 244.
Proof.
  pose (c := fresh_client zone3_memory).
  pose (c' := snd (run (read_params ascii_table) c)).
  pose (ps := default ∅ (_params c')).
  assert (Hrun : run (read_params ascii_table) c = (Ok tt, c'))
    by (vm_compute; reflexivity).
  assert (Hps : _params c' = Some ps) by (vm_compute; reflexivity).
  assert (Hp : ps !! 3 = Some (mk_position true [] 1 2))
    by (vm_compute; reflexivity).
  exact (proj1 (proj2 (cached_entries_in_range ascii_table c c' ps 3
                         (mk_position true [] 1 2) Hrun Hps Hp))).
Defined.

Lemma name_is_text_before_nul_witness :
  exists p kept rest,
    fst (run (read_params_slot ascii_table 3 ∅) (fresh_client named_memory)) =
      Ok (<[3 := p]> ∅) /\
    [0x48; 0x61; 0; 0; 0; 0; 0; 0] = kept ++ rest /\
    ~ In 0 kept /\
    Forall2 (fun b u => ascii_table b = Some u) kept (name p).
Proof.
  pose (c := fresh_client named_memory).
  pose (r := mk_response false (Some [0x01; 0x00; 0x41; 0x00])).
  pose (r2 := mk_response false (Some [0x48; 0x61; 0; 0; 0; 0; 0; 0])).
  pose (c1 := snd (run (async_read_holding_registers 1 0x1120 4) c)).
  pose (c2 := snd (run (async_read_holding_registers 1 0x1040 8) c1)).
  pose (res' := ({[ 3 := mk_position true [0x48; 0x61] 1 2 ]}
                 : gmap Z position)).
  pose (c' := snd (run (read_params_slot ascii_table 3 ∅) c)).
  assert (Hr : run (async_read_holding_registers (_address c)
                      (0x1100 + (3 - 1) * 0x10) 4) c = (Ok r, c1))
    by (vm_compute; reflexivity).
  assert (Herr : isError r = false) by reflexivity.
  assert (Hr2 : run (async_read_holding_registers (_address c)
                       (0x1030 + (3 - 1) * 8) 8) c1 = (Ok r2, c2))
    by (vm_compute; reflexivity).
  assert (Hrun : run (read_params_slot ascii_table 3 ∅) c = (Ok res', c'))
    by (vm_compute; reflexivity).
  destruct (name_is_text_before_nul ascii_table 3 ∅ c r c1 r2 c2 res' c'
              Hr Herr Hr2 Hrun) as (p & Hres & _ & Hused).
  assert (Hp : res' !! 3 = Some p) by (rewrite Hres; apply lookup_insert_eq).
  assert (Hu : used p = true).
  { change (res' !! 3) with (Some (mk_position true [0x48; 0x61] 1 2)) in Hp.
    inversion Hp. reflexivity. }
  destruct (Hused Hu) as (_ & kept & rest & Hsplit & Hnin & _ & Hdec).
  assert (Hsplit' : [0x48; 0x61; 0; 0; 0; 0; 0; 0] = kept ++ rest).
  { change (registers r2) with (Some [0x48; 0x61; 0; 0; 0; 0; 0; 0]) in Hsplit.
    inversion Hsplit. reflexivity. }
  exists p, kept, rest. fold c. rewrite Hrun, <- Hres.
  split; [reflexivity|]. split; [exact Hsplit'|]. split; [exact Hnin | exact Hdec].
Defined.

Lemma floor_then_floordiv_witness :
  floordiv (floor (45 # 2)) 2 = Ok 11 /\
  target_raw_level (45 # 2) (mk_position true [] 1 2) = Ok 10.
Proof.
  assert (Hstep : 1 <= step (mk_position true [] 1 2)) by (cbn; lia).
  exact (floor_then_floordiv (45 # 2) (mk_position true [] 1 2) Hstep).
Defined.

Lemma gate_never_deadlocks_witness :
  (exists s,
     exec alternating_schedule
       (spawn two_mode_calls (fresh_client mode_memory)) = Some s /\
     forallb finished (tasks s) = true /\
     _lock s = None) /\
  (exists s i,
     exec (repeat 0%nat 5)
       (spawn two_mode_calls (fresh_client mode_memory)) = Some s /\
     forallb finished (tasks s) = false /\
     is_Some (advance i s)).
Proof.
  assert (Hcalls : Forall (facade_call ascii_table) two_mode_calls)
    by (repeat constructor).
  split.
  - eexists. split; [vm_compute; reflexivity|].
    match goal with
    | |- forallb finished (tasks ?s) = true /\ _ =>
        assert (Hexec : exec alternating_schedule
                          (spawn two_mode_calls (fresh_client mode_memory))
                        = Some s) by (vm_compute; reflexivity);
        assert (Hall : forallb finished (tasks s) = true) by reflexivity;
        pose proof (proj1 (gate_never_deadlocks ascii_table two_mode_calls
                             (fresh_client mode_memory) alternating_schedule s
                             Hcalls Hexec) Hall) as Hfree
    end.
    split; [exact Hall | exact Hfree].
  - eexists.
    match goal with
    | |- exists i, exec _ _ = Some ?s /\ _ =>
        assert (Hexec : exec (repeat 0%nat 5)
                          (spawn two_mode_calls (fresh_client mode_memory))
                        = Some s) by (vm_compute; reflexivity);
        assert (Hsome : forallb finished (tasks s) = false) by reflexivity;
        destruct (proj2 (gate_never_deadlocks ascii_table two_mode_calls
                           (fresh_client mode_memory) (repeat 0%nat 5) s
                           Hcalls Hexec) Hsome) as [i Hi]
    end.
    exists i. split; [exact Hexec|]. split; [exact Hsome | exact Hi].
Defined.


(** ** The coordinator and the entities *)

Lemma data_items_spec items required : forall data,
  NoDup (fst <$> items) ->
  (forall iid curr, (iid, curr) ∈ items -> is_Some (required !! iid)) ->
  exists data',
    data_items items required data = Ok data' /\
    forall iid,
      data' !! iid =
        match list_to_map (M := gmap Z Z) items !! iid with
        | Some curr => mk_reading curr <$> required !! iid
        | None => data !! iid
        end.
Proof.
  induction items as [|[iid curr] items IH]; intros data Hnd Hreq.
  - exists data. split; [reflexivity|]. intros iid. cbn.
    rewrite lookup_empty. reflexivity.
  - cbn [data_items]. destruct (Hreq iid curr) as [r Hr]; [left|].
    rewrite Hr. cbn [fmap list_fmap fst] in Hnd. apply NoDup_cons in Hnd.
    destruct Hnd as [Hnin Hnd].
    destruct (IH (<[iid := mk_reading curr r]> data) Hnd) as (data' & Hrun & Hd).
    { intros k v Hin. apply (Hreq k v). right. exact Hin. }
    exists data'. split; [exact Hrun|]. intros k. rewrite Hd.
    rewrite list_to_map_cons.
    destruct (decide (k = iid)) as [->|Hne].
    + rewrite (not_elem_of_list_to_map_1 items iid Hnin).
      rewrite !lookup_insert_eq, Hr. reflexivity.
    + rewrite (lookup_insert_ne (list_to_map items)) by congruence.
      destruct (list_to_map items !! k); [reflexivity|].
      apply lookup_insert_ne. congruence.
Qed.

Lemma async_get_data_dict_spec current required :
  (forall iid, is_Some (current !! iid) -> is_Some (required !! iid)) ->
  exists data,
    async_get_data_dict current required = Ok data /\
    forall iid,
      data !! iid =
        match current !! iid, required !! iid with
        | Some curr, Some r => Some (mk_reading curr r)
        | _, _ => None
        end.
Proof.
  intros Hkeys. unfold async_get_data_dict.
  destruct (data_items_spec (map_to_list current) required ∅)
    as (data & Hrun & Hd).
  - apply NoDup_fst_map_to_list.
  - intros iid curr Hin. apply elem_of_map_to_list in Hin. apply Hkeys. eauto.
  - exists data. split; [exact Hrun|]. intros iid. rewrite Hd.
    rewrite list_to_map_to_list.
    destruct (current !! iid) as [curr|] eqn:Hc.
    + destruct (Hkeys iid) as [r Hr]; [eauto|]. rewrite Hr. reflexivity.
    + apply lookup_empty.
Qed.

(** X18.  From a requirement byte to the entity's
    state.  When the coordinator's entry of a thermostat was decoded from
    [byte] by [get_required_temperatures], [_handle_coordinator_update]
    sets the target to [((byte & 0x1F) + shift) * step], the action to
    heating exactly when the current temperature is below that target,
    and the mode by the top three bits of the byte: off below [0x20],
    automatic from [0x20] to [0x3F] and from [0x80] to [0x9F], heat from
    [0x40] to [0x7F]; from [0xA0] on (flag 5, 6 or 7) the mode keeps its
    previous value. *)
Theorem requirement_byte_sets_mode (byte current : Z) (p : position)
  (self : EtathermThermostat) (data : gmap Z reading) :
  0 <= byte < 256 ->
  data !! _id self = Some (mk_reading current (decode_requirement byte p)) ->
  exists self',
    _handle_coordinator_update (Some data) self = Ok self' /\
    _id self' = _id self /\
    _current_temperature self' = Some current /\
    _target_temperature self' = Some ((byte mod 32 + shift p) * step p) /\
    _attr_hvac_action self' =
      Some (if current <? (byte mod 32 + shift p) * step p
            then HVACAction_HEATING else HVACAction_IDLE) /\
    _attr_hvac_mode self' =
      (if byte <? 32 then HVACMode_OFF
       else if byte <? 64 then HVACMode_AUTO
       else if byte <? 128 then HVACMode_HEAT
       else if byte <? 160 then HVACMode_AUTO
       else _attr_hvac_mode self).
Proof.
  intros Hb Hd. unfold _handle_coordinator_update. rewrite Hd.
  eexists. split; [reflexivity|]. cbn [_id _current_temperature
    _target_temperature _attr_hvac_action _attr_hvac_mode curr req].
  unfold decode_requirement. cbn [temp flag].
  rewrite land_1F, Z.shiftr_div_pow2 by lia. change (2 ^ 5) with 32.
  repeat split.
  pose proof (Z.mul_div_le byte 32 ltac:(lia)) as Hlo.
  pose proof (Z.mul_succ_div_gt byte 32 ltac:(lia)) as Hhi.
  assert (Hq : byte / 32 = 0 \/ byte / 32 = 1 \/ byte / 32 = 2 \/ byte / 32 = 3
               \/ byte / 32 = 4 \/ byte / 32 = 5 \/ byte / 32 = 6
               \/ byte / 32 = 7) by lia.
  destruct (Z.ltb_spec byte 32); destruct (Z.ltb_spec byte 64);
    destruct (Z.ltb_spec byte 128); destruct (Z.ltb_spec byte 160);
    destruct Hq as [Hq|[Hq|[Hq|[Hq|[Hq|[Hq|[Hq|Hq]]]]]]];
    rewrite Hq in *; try lia; reflexivity.
Qed.

Section Climate.
Context {D : Type} `{Transport D}.
Variable cp1250 : Z -> option Z.

Lemma get_parameters_fresh (c c0 : client D) zones :
  _params c = None ->
  run (get_parameters cp1250) c = (Ok (Some zones), c0) ->
  exists ps,
    _params c0 = Some ps /\
    (forall pos, is_Some (ps !! pos) <-> 1 <= pos <= 16) /\
    zones = limits_of <$> filter (fun kv => used kv.2 = true) ps.
Proof.
  intros Hnone Hrun.
  destruct (get_parameters_returns cp1250 c _ c0 Hrun) as (ps & Hps & Hz & _).
  exists ps. split; [exact Hps|]. split; [|congruence].
  unfold get_parameters in Hrun. rewrite run_bind in Hrun.
  rewrite (ensure_params_empty cp1250 c Hnone) in Hrun.
  destruct (read_params_spec cp1250 c)
    as [(ps' & c' & Hrun' & Hps' & _ & Hexact)|(e & c' & Hrun' & _)];
    rewrite Hrun' in Hrun; [|discriminate].
  assert (Hc : c' = c0).
  { revert Hrun. cbn [run]. rewrite Hps'. cbn. intros Heq.
    inversion Heq. reflexivity. }
  subst c'. assert (ps = ps') by congruence. subst ps'. exact Hexact.
Qed.

(** X19.  The thermostats created by
    [async_setup_platform] find their entry.  The entities get the keys of
    the dictionary [get_parameters] returns on the new client; when later,
    with the cache unchanged, the two polls of [__async_get_data] return
    dictionaries, building the coordinator's data raises no [KeyError],
    the data have exactly those keys, and [_handle_coordinator_update] of
    each such entity succeeds and takes its current and its target
    temperature from the two polls. *)
Theorem thermostats_find_their_data (c c0 c1 c2 c3 : client D)
  (zones : gmap Z limits) (current : gmap Z Z)
  (required : gmap Z requirement) :
  _params c = None ->
  run (get_parameters cp1250) c = (Ok (Some zones), c0) ->
  _params c1 = _params c0 ->
  run (get_current_temperatures cp1250) c1 = (Ok (Some current), c2) ->
  run (get_required_temperatures cp1250) c2 = (Ok (Some required), c3) ->
  exists data,
    async_get_data_dict current required = Ok data /\
    (forall idx, is_Some (data !! idx) <-> is_Some (zones !! idx)) /\
    forall self,
      is_Some (zones !! _id self) ->
      exists entry self',
        data !! _id self = Some entry /\
        current !! _id self = Some (curr entry) /\
        required !! _id self = Some (req entry) /\
        _handle_coordinator_update (Some data) self = Ok self' /\
        _current_temperature self' = Some (curr entry) /\
        _target_temperature self' = Some (temp (req entry)).
Proof.
  intros Hnone Hzones Hsame Hcur Hreq.
  destruct (get_parameters_fresh c c0 zones Hnone Hzones)
    as (ps0 & Hps0 & Hexact & ->).
  rewrite Hps0 in Hsame.
  assert (Hinv1 : cache_invariant c1).
  { unfold cache_invariant. rewrite Hsame. intros pos Hpos. apply Hexact, Hpos. }
  rewrite get_current_temperatures_polling in Hcur.
  rewrite get_required_temperatures_polling in Hreq.
  destruct (poll_keys cp1250 decode_current_temp current_slot 0x60 c1 current c2
              ltac:(reflexivity) Hinv1 Hcur)
    as (ps & Hps & Hfull & _ & Hsame1 & Hkeys).
  assert (ps = ps0) by (apply Hsame1, Hsame). subst ps.
  assert (Hinv2 : cache_invariant c2).
  { unfold cache_invariant. rewrite Hps. exact Hfull. }
  destruct (poll_keys cp1250 decode_requirement required_slot 0x70 c2 required c3
              ltac:(reflexivity) Hinv2 Hreq)
    as (ps' & _ & _ & _ & Hsame2 & Hkeys').
  assert (ps' = ps0) by (apply Hsame2, Hps). subst ps'.
  assert (Hlisted : forall idx,
            is_Some ((limits_of <$> filter (fun kv => used kv.2 = true) ps0)
                     !! idx) <->
            is_Some (current !! idx)).
  { intros idx. rewrite Hkeys. split.
    - intros [l Hl]. apply listed_zone in Hl. destruct Hl as (p & Hp & Hu & _).
      split; [apply Hexact; eauto | eauto].
    - intros (_ & p & Hp & Hu). exists (limits_of p). apply listed_zone. eauto. }
  assert (Hboth : forall iid,
            is_Some (current !! iid) -> is_Some (required !! iid)).
  { intros iid. rewrite Hkeys, Hkeys'. tauto. }
  destruct (async_get_data_dict_spec current required Hboth)
    as (data & Hdata & Hd).
  exists data. split; [exact Hdata|]. split.
  - intros idx. rewrite Hlisted, Hd. split.
    + intros [entry He]. destruct (current !! idx); [eauto | discriminate].
    + intros [v Hv]. rewrite Hv.
      destruct (Hboth idx) as [r Hr]; [eauto|].
      rewrite Hr. eauto.
  - intros self Hz. apply Hlisted in Hz. destruct Hz as [v Hv].
    destruct (Hboth (_id self)) as [r Hr]; [eauto|].
    pose proof (Hd (_id self)) as He. rewrite Hv, Hr in He.
    exists (mk_reading v r). eexists.
    split; [exact He|]. split; [exact Hv|]. split; [exact Hr|].
    unfold _handle_coordinator_update. rewrite He. split; [reflexivity|].
    split; reflexivity.
Qed.
End Climate.

Lemma requirement_byte_sets_mode_witness :
  exists self',
    _handle_coordinator_update
      (Some {[ 3 := mk_reading 2 (mk_requirement 12 2) ]})
      (new_thermostat 3) = Ok self' /\
    _attr_hvac_mode self' = HVACMode_HEAT /\
    _attr_hvac_action self' = Some HVACAction_HEATING.
Proof.
  assert (Hb : 0 <= 0x45 < 256) by lia.
  assert (Hd : ({[ 3 := mk_reading 2 (mk_requirement 12 2) ]}
                : gmap Z reading) !! _id (new_thermostat 3)
               = Some (mk_reading 2
                         (decode_requirement 0x45 (mk_position true [] 1 2))))
    by reflexivity.
  destruct (requirement_byte_sets_mode 0x45 2 (mk_position true [] 1 2)
              (new_thermostat 3) _ Hb Hd)
    as (self' & Hrun & _ & _ & _ & Hact & Hmode).
  exists self'. split; [exact Hrun|]. split; [exact Hmode | exact Hact].
Defined.

Lemma thermostats_find_their_data_witness :
  exists data self',
    async_get_data_dict {[ 3 := 2 ]} {[ 3 := mk_requirement 12 2 ]} = Ok data /\
    _handle_coordinator_update (Some data) (new_thermostat 3) = Ok self' /\
    _current_temperature self' = Some 2 /\
    _target_temperature self' = Some 12.
Proof.
  pose (c := fresh_client requirement_memory).
  pose (zones := ({[ 3 := mk_limits [] 4 62 ]} : gmap Z limits)).
  pose (current := ({[ 3 := 2 ]} : gmap Z Z)).
  pose (required := ({[ 3 := mk_requirement 12 2 ]} : gmap Z requirement)).
  pose (c0 := snd (run (get_parameters ascii_table) c)).
  pose (c2 := snd (run (get_current_temperatures ascii_table) c0)).
  pose (c3 := snd (run (get_required_temperatures ascii_table) c2)).
  assert (Hnone : _params c = None) by reflexivity.
  assert (Hzones : run (get_parameters ascii_table) c = (Ok (Some zones), c0))
    by (vm_compute; reflexivity).
  assert (Hcur : run (get_current_temperatures ascii_table) c0
                 = (Ok (Some current), c2)) by (vm_compute; reflexivity).
  assert (Hreq : run (get_required_temperatures ascii_table) c2
                 = (Ok (Some required), c3)) by (vm_compute; reflexivity).
  destruct (thermostats_find_their_data ascii_table c c0 c0 c2 c3 zones current
              required Hnone Hzones eq_refl Hcur Hreq)
    as (data & Hdata & _ & Hself).
  assert (Hz : is_Some (zones !! _id (new_thermostat 3))) by (eexists; reflexivity).
  destruct (Hself (new_thermostat 3) Hz)
    as (entry & self' & _ & Hc & Hr & Hrun & Hcurr & Htarget).
  assert (Ec : curr entry = 2).
  { change (current !! _id (new_thermostat 3)) with (Some 2) in Hc.
    inversion Hc. reflexivity. }
  assert (Er : req entry = mk_requirement 12 2).
  { change (required !! _id (new_thermostat 3))
      with (Some (mk_requirement 12 2)) in Hr.
    inversion Hr. reflexivity. }
  exists data, self'. split; [exact Hdata|]. split; [exact Hrun|].
  rewrite Hcurr, Htarget, Ec, Er. split; reflexivity.
Defined.
